(** * PnpmLinkManager: linking local projects against a pnpm installation

    A shallow embedding of
    [apps/rush-lib/src/cli/logic/pnpm/PnpmLinkManager.ts] together with the
    statements of its specification that concern the link manifest
    ([rush-link.json]), the dependency node model and the symlinks that
    linking projects onto the disk.

    Strings are byte strings (UTF-8); paths are strings and follow the POSIX
    flavour of Node's [path] module.  The file system is a finite map from
    paths to entries; the effects of linking are threaded through an explicit
    world (file system plus an event log) by a small state-and-error monad. *)

From Stdlib Require Import Ascii String List Bool Arith NArith Lia.
From stdpp Require Import base option list strings gmap fin_maps.

Open Scope string_scope.

(** ** Node's [path] module (POSIX) and [strict-uri-encode] *)

Module Path.

(** [path.sep] *)
Definition sep : ascii := "/"%char.

Fixpoint split_go (c : ascii) (s : string) (cur : string) : list string :=
  match s with
  | EmptyString => [cur]
  | String a s' =>
      if Ascii.eqb a c then cur :: split_go c s' EmptyString
      else split_go c s' (cur +:+ String a EmptyString)
  end.

(** [s.split(c)] for a one-character separator *)
Definition split (c : ascii) (s : string) : list string := split_go c s EmptyString.

(** [segments.join(d)] *)
Fixpoint join_with (d : string) (l : list string) : string :=
  match l with
  | [] => EmptyString
  | [x] => x
  | x :: l' => x +:+ d +:+ join_with d l'
  end.

(** [normalizeString]: the stack of kept segments is held in reverse. *)
Fixpoint normalize_segments (allowAboveRoot : bool) (segs : list string)
         (rev_res : list string) : list string :=
  match segs with
  | [] => rev rev_res
  | seg :: segs' =>
      if String.eqb seg "" || String.eqb seg "." then
        normalize_segments allowAboveRoot segs' rev_res
      else if String.eqb seg ".." then
        match rev_res with
        | last :: rest =>
            if String.eqb last ".."
            then normalize_segments allowAboveRoot segs' (".." :: rev_res)
            else normalize_segments allowAboveRoot segs' rest
        | [] =>
            if allowAboveRoot
            then normalize_segments allowAboveRoot segs' [".."]
            else normalize_segments allowAboveRoot segs' []
        end
      else normalize_segments allowAboveRoot segs' (seg :: rev_res)
  end.

Definition starts_with_sep (s : string) : bool :=
  match s with
  | String a _ => Ascii.eqb a sep
  | EmptyString => false
  end.

Fixpoint ends_with_sep (s : string) : bool :=
  match s with
  | EmptyString => false
  | String a EmptyString => Ascii.eqb a sep
  | String _ s' => ends_with_sep s'
  end.

(** [path.posix.normalize] *)
Definition normalize (p : string) : string :=
  if String.eqb p "" then "."
  else
    let isAbsolute := starts_with_sep p in
    let trailingSeparator := ends_with_sep p in
    let body := join_with "/" (normalize_segments (negb isAbsolute) (split sep p) []) in
    if String.eqb body "" then
      (if isAbsolute then "/" else if trailingSeparator then "./" else ".")
    else
      let body' := if trailingSeparator then body +:+ "/" else body in
      if isAbsolute then "/" +:+ body' else body'.

(** [path.join(...args)] *)
Definition join (args : list string) : string :=
  match filter (fun a => a ≠ "") args with
  | [] => "."
  | parts => normalize (join_with "/" parts)
  end.

End Path.

Module UriEncode.

Definition is_unreserved (a : ascii) : bool :=
  let n := nat_of_ascii a in
  (Nat.leb 48 n && Nat.leb n 57)             (* 0-9 *)
  || (Nat.leb 65 n && Nat.leb n 90)          (* A-Z *)
  || (Nat.leb 97 n && Nat.leb n 122)         (* a-z *)
  || Nat.eqb n 45 || Nat.eqb n 95 || Nat.eqb n 46 || Nat.eqb n 126.   (* - _ . ~ *)

Definition hex_digit (n : nat) : ascii :=
  if Nat.ltb n 10 then ascii_of_nat (48 + n) else ascii_of_nat (55 + n).

Definition percent (a : ascii) : string :=
  let n := nat_of_ascii a in
  String "%"%char (String (hex_digit (n / 16)) (String (hex_digit (n mod 16)) EmptyString)).

(** [strict-uri-encode]: [encodeURIComponent] followed by the escaping of
    the characters [!'()*]; on a UTF-8 byte string every byte that is not
    an unreserved character becomes [%XX] with upper-case digits. *)
Fixpoint uriEncode (s : string) : string :=
  match s with
  | EmptyString => EmptyString
  | String a s' =>
      (if is_unreserved a then String a EmptyString else percent a) +:+ uriEncode s'
  end.

End UriEncode.

(** ** Data model *)

(** A JSON object whose values are strings, in the order of the file.  A
    key that the file repeats is a property once, created where the key
    comes first. *)
Definition JsObject : Type := list (string * string).

Fixpoint dedup_keys (seen : list string) (l : list string) : list string :=
  match l with
  | [] => []
  | k :: l' =>
      if bool_decide (k ∈ seen) then dedup_keys seen l'
      else k :: dedup_keys (k :: seen) l'
  end.

Definition digit_value (a : ascii) : option N :=
  let n := nat_of_ascii a in
  if Nat.leb 48 n && Nat.leb n 57 then Some (N.of_nat (n - 48)) else None.

Fixpoint decimal_value (s : string) (acc : N) : option N :=
  match s with
  | EmptyString => Some acc
  | String a s' =>
      match digit_value a with
      | Some v => decimal_value s' (10 * acc + v)%N
      | None => None
      end
  end.

(** An array index: a key that is the decimal numeral, without a leading
    zero, of an integer from 0 to 2^32 - 2. *)
Definition array_index (k : string) : option N :=
  match k with
  | EmptyString => None
  | String a s' =>
      if Ascii.eqb a "0"%char && negb (String.eqb s' "") then None
      else match decimal_value k 0%N with
           | Some n => if N.leb n 4294967294%N then Some n else None
           | None => None
           end
  end.

Definition index_leb (k k' : string) : bool :=
  match array_index k, array_index k' with
  | Some n, Some m => N.leb n m
  | _, _ => true
  end.

Fixpoint insert_key (k : string) (l : list string) : list string :=
  match l with
  | [] => [k]
  | k' :: l' => if index_leb k k' then k :: l else k' :: insert_key k l'
  end.

(** Keys that are array indices, in ascending order of the integers. *)
Definition sort_keys (l : list string) : list string := foldr insert_key [] l.

(** [Object.keys]: the array indices first, in ascending order, and then the
    other keys in the order in which the properties were created. *)
Definition Object_keys (o : JsObject) : list string :=
  let created := dedup_keys [] (map fst o) in
  (sort_keys (filter (fun k => is_Some (array_index k)) created)
   ++ filter (fun k => ~ is_Some (array_index k)) created)%list.

(** [IPackageJson], with the [rushDependencies] field of the temporary
    project's package.json ([IRushTempPackageJson]). *)
Record IPackageJson : Type := mkPackageJson {
  pj_name : string;
  pj_version : string;
  dependencies : option JsObject;
  rushDependencies : option JsObject
}.

(** [x || {}] *)
Definition or_empty (o : option JsObject) : JsObject := default [] o.

Definition rushDependencyNames (pj : IPackageJson) : list string :=
  Object_keys (or_empty (rushDependencies pj)).

Definition dependencyNames (pj : IPackageJson) : list string :=
  Object_keys (or_empty (dependencies pj)).

(** [IRushLinkJson]: [{ localLinks: { [name: string]: string[] } }] *)
Record IRushLinkJson : Type := mkRushLinkJson {
  localLinks : gmap string (list string)
}.

Record RushConfigurationProject : Type := mkProject {
  packageName : string;
  proj_packageJson : IPackageJson;
  projectFolder : string;
  tempProjectName : string
}.

Record RushConfiguration : Type := mkRushConfiguration {
  projects : list RushConfigurationProject;
  commonTempFolder : string;
  rushLinkJsonFilename : string
}.

(** Modelled from the spec: [RushConfiguration.getProjectByName] is not among
    the sources; an internal dependency name "matches a known local project"
    when a project of the configuration carries that package name. *)
Definition getProjectByName (cfg : RushConfiguration) (projectName : string)
  : option RushConfigurationProject :=
  List.find (fun p => String.eqb (packageName p) projectName) (projects cfg).

(** [RushConstants], with the values shown by the examples in the comments of
    [_linkProject]. *)
Module RushConstants.
Definition rushTempProjectsFolderName : string := "projects".
Definition nodeModulesFolderName : string := "node_modules".
Definition rushTempNpmScope : string := "@rush-temp".
Definition packageJsonFilename : string := "package.json".
End RushConstants.

(** Modelled from the spec: [Utilities.parseScopedPackageName] is not among
    the sources; the example in [_linkProject] maps the temporary project
    name "@rush-temp/project1" to the unscoped name "project1". *)
Fixpoint after_first_slash (s : string) : option string :=
  match s with
  | EmptyString => None
  | String a s' => if Ascii.eqb a "/"%char then Some s' else after_first_slash s'
  end.

Definition parseScopedPackageName_name (scopedName : string) : string :=
  match scopedName with
  | String a _ =>
      if Ascii.eqb a "@"%char then default scopedName (after_first_slash scopedName)
      else scopedName
  | EmptyString => scopedName
  end.

(** [BasePackage], the dependency node of the specification. *)
#[warnings="-register-all"]
Inductive BasePackage : Type := mkBasePackage {
  name : string;
  version : option string;
  folderPath : string;
  symlinkTargetFolderPath : option string;
  children : list BasePackage;
  packageJson : option IPackageJson
}.

(** Modelled from the spec: [BasePackage.createLinkedPackage] is not among the
    sources; "produces a node representing a location that will hold a
    symlink; children empty until populated by a strategy". *)
Definition createLinkedPackage (name : string) (version : option string)
           (folderPath : string) (packageJson : option IPackageJson) : BasePackage :=
  mkBasePackage name version folderPath None [] packageJson.

(** [pkg.symlinkTargetFolderPath = target] *)
Definition set_symlinkTargetFolderPath (pkg : BasePackage) (target : string) : BasePackage :=
  mkBasePackage (name pkg) (version pkg) (folderPath pkg) (Some target)
                (children pkg) (packageJson pkg).

(** [pkg.children.push(child)] *)
Definition children_push (pkg child : BasePackage) : BasePackage :=
  mkBasePackage (name pkg) (version pkg) (folderPath pkg) (symlinkTargetFolderPath pkg)
                (children pkg ++ [child]) (packageJson pkg).

Inductive SymlinkKind : Type := SymlinkFile | SymlinkDirectory.

(** ** Errors *)

Inductive BackendViolation : Type := NotInstalled | NotASymlink.

(** One constructor for each place that throws.  The source throws a plain
    [Error] carrying the text given by [message]; the constructors are named
    after the taxonomy of the specification. *)
Inductive Error : Type :=
| JsonLoadError (filename : string)
| ENOENT (path : string)
| ConfigurationError (dependencyName projectName : string)
| BackendInvariantViolationError (why : BackendViolation)
                                 (dependencyName pathToLocalInstallation : string)
| DuplicateChildError (parentName childName : string)
| FilesystemConflictError (linkPath : string)
| TypeError (text : string).

Definition dquote : string := String (ascii_of_nat 34) EmptyString.

Definition message (e : Error) : string :=
  match e with
  | ConfigurationError dependencyName projectName =>
      "Cannot find dependency " +:+ dquote +:+ dependencyName +:+ dquote +:+ " for "
        +:+ dquote +:+ projectName +:+ dquote +:+ " in rush configuration"
  | BackendInvariantViolationError NotInstalled dependencyName pathToLocalInstallation =>
      "Cannot find installed dependency " +:+ dquote +:+ dependencyName +:+ dquote
        +:+ " in " +:+ dquote +:+ pathToLocalInstallation +:+ dquote
  | BackendInvariantViolationError NotASymlink dependencyName pathToLocalInstallation =>
      "Dependency " +:+ dquote +:+ dependencyName +:+ dquote +:+ " is not a symlink in "
        +:+ dquote +:+ pathToLocalInstallation
  | JsonLoadError filename => "Cannot load " +:+ filename
  | ENOENT path => "ENOENT: no such file or directory, lstat " +:+ path
  | DuplicateChildError parentName childName =>
      "Package " +:+ dquote +:+ parentName +:+ dquote +:+ " already has a child named "
        +:+ dquote +:+ childName +:+ dquote
  | FilesystemConflictError linkPath =>
      "Refusing to replace " +:+ dquote +:+ linkPath +:+ dquote +:+ ": not a symlink"
  | TypeError text => text
  end.

(** ** The file system *)

Inductive FileContent : Type :=
| PackageJsonFile (pj : IPackageJson)
| RushLinkJsonFile (j : IRushLinkJson)
| OtherFile.

Inductive FsEntry : Type :=
| FsFile (content : FileContent)
| FsDir
| FsSymlink (target : string).

(** Paths are keys as they stand: symlink targets are absolute, and a path
    is looked up whole, not component by component. *)
Abbreviation FileSystem := (gmap string FsEntry).

(** The kernel gives up after this many symlinks in one resolution. *)
Definition MAXSYMLINKS : nat := 40.

(** [stat]: follows symlinks. *)
Fixpoint stat_fuel (fuel : nat) (fs : FileSystem) (p : string) : option FsEntry :=
  match fs !! p with
  | None => None
  | Some (FsSymlink target) =>
      match fuel with
      | O => None
      | S fuel' => stat_fuel fuel' fs target
      end
  | Some e => Some e
  end.

Definition statSync (fs : FileSystem) (p : string) : option FsEntry :=
  stat_fuel MAXSYMLINKS fs p.

(** [fs.existsSync]: true when [stat] succeeds, so false on a symlink whose
    target is missing. *)
Definition existsSync (fs : FileSystem) (p : string) : bool :=
  bool_decide (is_Some (statSync fs p)).

(** [lstat]: does not follow a symlink at the path itself. *)
Definition lstatSync (fs : FileSystem) (p : string) : option FsEntry := fs !! p.

(** [fs.Stats], reduced to the kind of the entry. *)
Record Stats : Type := mkStats {
  isSymbolicLink : bool;
  isDirectory : bool;
  isFile : bool
}.

Definition stats_of (e : FsEntry) : Stats :=
  match e with
  | FsSymlink _ => mkStats true false false
  | FsDir => mkStats false true false
  | FsFile _ => mkStats false false true
  end.

(** The paths visited by [stat] from [p], [p] included. *)
Fixpoint stat_chain (fuel : nat) (fs : FileSystem) (p : string) : list string :=
  p :: match fs !! p with
       | Some (FsSymlink target) =>
           match fuel with
           | O => []
           | S fuel' => stat_chain fuel' fs target
           end
       | _ => []
       end.

(** ** The world and its monad *)

Inductive Event : Type :=
| EvConsoleLog (text : string)
| EvPrintTree (root : BasePackage)
| EvReadJson (filename : string)
| EvMkdir (folder : string)
| EvSymlink (target linkPath : string) (kind : SymlinkKind)
| EvSaveJson (filename : string) (content : IRushLinkJson).

Record World : Type := mkWorld {
  fs : FileSystem;
  log : list Event
}.

(** A computation either throws or returns, and leaves a world behind in
    both cases. *)
Definition M (A : Type) : Type := World -> (Error + A) * World.

Definition ret {A : Type} (a : A) : M A := fun w => (inr a, w).

Definition throw {A : Type} (e : Error) : M A := fun w => (inl e, w).

Definition bind {A B : Type} (m : M A) (k : A -> M B) : M B :=
  fun w =>
    match m w with
    | (inl e, w') => (inl e, w')
    | (inr a, w') => k a w'
    end.

Declare Scope io_scope.
Delimit Scope io_scope with io.
Notation "x <- c1 ;; c2" := (bind c1 (fun x => c2))
  (at level 100, c1 at next level, right associativity) : io_scope.
Notation "c1 ;; c2" := (bind c1 (fun _ => c2))
  (at level 100, right associativity) : io_scope.
Open Scope io_scope.

Definition emit (ev : Event) : M unit :=
  fun w => (inr tt, mkWorld (fs w) (log w ++ [ev])).

Definition get_fs : M FileSystem := fun w => (inr (fs w), w).

Definition put_fs (fs' : FileSystem) : M unit :=
  fun w => (inr tt, mkWorld fs' (log w)).

(** [for (const x of l) { s = f(x, s) }] *)
Fixpoint foldM {A S : Type} (f : A -> S -> M S) (l : list A) (s : S) : M S :=
  match l with
  | [] => ret s
  | a :: l' => s' <- f a s ;; foldM f l' s'
  end.

(** [for (const x of l) { f(x) }] *)
Fixpoint forM_ {A : Type} (f : A -> M unit) (l : list A) : M unit :=
  match l with
  | [] => ret tt
  | a :: l' => f a ;; forM_ f l'
  end.

Definition console_log (text : string) : M unit := emit (EvConsoleLog text).

Definition fsx_existsSync (p : string) : M bool :=
  fs <- get_fs ;; ret (existsSync fs p).

(** [fsx.lstatSync] throws when nothing is at the path. *)
Definition fsx_lstatSync (p : string) : M Stats :=
  fs <- get_fs ;;
  match lstatSync fs p with
  | Some e => ret (stats_of e)
  | None => throw (ENOENT p)
  end.

(** [fsx.readJsonSync] and [JsonFile.load], at a file that holds a
    package.json. *)
Definition fsx_readJsonSync (filename : string) : M IPackageJson :=
  emit (EvReadJson filename) ;;
  fs <- get_fs ;;
  match statSync fs filename with
  | Some (FsFile (PackageJsonFile pj)) => ret pj
  | _ => throw (JsonLoadError filename)
  end.

(** [JsonFile.save(jsonObject, jsonFilename)]: the object is written to the
    file, whatever was at that path.  The write itself is taken to succeed;
    a disk that refuses it (line 37 would then throw, after the line of
    line 36 is on the console) is outside the model. *)
Definition JsonFile_save (jsonObject : IRushLinkJson) (jsonFilename : string) : M bool :=
  emit (EvSaveJson jsonFilename jsonObject) ;;
  fs <- get_fs ;;
  put_fs (<[jsonFilename := FsFile (RushLinkJsonFile jsonObject)]> fs) ;;
  ret true.

(** ** The node model and the projection onto the disk *)

(** Modelled from the spec: [BasePackage.createVirtualTempPackage] is not
    among the sources; the manifest reader loads the staging manifest of the
    project and wraps it in a node for the install folder. *)
Definition createVirtualTempPackage (packageJsonFilename installFolderName : string)
  : M BasePackage :=
  packageJson <- fsx_readJsonSync packageJsonFilename ;;
  ret (createLinkedPackage (pj_name packageJson) (Some (pj_version packageJson))
                           installFolderName (Some packageJson)).

Definition child_names (pkg : BasePackage) : list string := map name (children pkg).

(** Modelled from the spec: [BasePackage.addChild] is not among the sources;
    it "appends to children, asserting child.name is not already present
    among existing children", and "fails fast with a descriptive error
    identifying the parent and the duplicate name". *)
Definition addChild (pkg child : BasePackage) : M BasePackage :=
  if bool_decide (name child ∈ child_names pkg)
  then throw (DuplicateChildError (name pkg) (name child))
  else ret (children_push pkg child).

(** Modelled from the spec: [BaseLinkManager._createSymlink] is not among the
    sources; [ensureSymlink(targetPath, linkPath, kind)] removes a symlink
    already at [linkPath], fails loudly when [linkPath] holds anything that
    is not a symlink, and then creates the symlink. *)
Definition _createSymlink (linkTarget linkSource : string) (kind : SymlinkKind) : M unit :=
  fs <- get_fs ;;
  match lstatSync fs linkSource with
  | Some (FsSymlink _) =>
      emit (EvSymlink linkTarget linkSource kind) ;;
      put_fs (<[linkSource := FsSymlink linkTarget]> (delete linkSource fs))
  | Some _ => throw (FilesystemConflictError linkSource)
  | None =>
      emit (EvSymlink linkTarget linkSource kind) ;;
      put_fs (<[linkSource := FsSymlink linkTarget]> fs)
  end.

(** Modelled from the spec: the projection engine "creates new folders or
    reads existing ones". *)
Definition ensureFolder (folder : string) : M unit :=
  fs <- get_fs ;;
  match lstatSync fs folder with
  | Some _ => ret tt
  | None => emit (EvMkdir folder) ;; put_fs (<[folder := FsDir]> fs)
  end.

(** Modelled from the spec: the walk of a dependency node is not among the
    sources.  A node with a symlink target becomes a symlink and its
    children are not walked; a node without one becomes a real directory
    before its children are materialized. *)
Fixpoint createSymlinksForDependencies (pkg : BasePackage) : M unit :=
  match symlinkTargetFolderPath pkg with
  | Some target => _createSymlink target (folderPath pkg) SymlinkDirectory
  | None =>
      ensureFolder (folderPath pkg) ;;
      ensureFolder (Path.join [folderPath pkg; "node_modules"]) ;;
      (fix walk (l : list BasePackage) : M unit :=
         match l with
         | [] => ret tt
         | child :: l' => createSymlinksForDependencies child ;; walk l'
         end) (children pkg)
  end.

(** Modelled from the spec: [BaseLinkManager._createSymlinksForTopLevelProject]
    is not among the sources.  The root is the project's own folder, which
    exists and is never recreated; its [node_modules] folder is created and
    every child is walked. *)
Definition _createSymlinksForTopLevelProject (localPackage : BasePackage) : M unit :=
  ensureFolder (Path.join [folderPath localPackage; "node_modules"]) ;;
  forM_ createSymlinksForDependencies (children localPackage).

(** Modelled from the spec: [BasePackage.printTree] is not among the sources;
    it only writes the tree to the console. *)
Definition printTree (pkg : BasePackage) : M unit := emit (EvPrintTree pkg).

(** ** [PnpmLinkManager] *)

(** "special flag for debugging, will print extra diagnostic information,
    but comes with performance cost" *)
Definition DEBUG : bool := false.

(** [os.EOL] *)
Definition EOL : string := String (ascii_of_nat 10) EmptyString.

(** The names that every object inherits from [Object.prototype]. *)
Definition Object_prototype_names : list string :=
  ["constructor"; "__defineGetter__"; "__defineSetter__"; "hasOwnProperty";
   "__lookupGetter__"; "__lookupSetter__"; "isPrototypeOf"; "propertyIsEnumerable";
   "toString"; "valueOf"; "__proto__"; "toLocaleString"].

(** What [localLinks[name]] finds for the plain object [{}] of line 29: an
    entry of the object itself, a member that the object inherits (none of
    them is an array, all of them are truthy), or nothing. *)
Inductive LocalLinksLookup : Type :=
| OwnEntry (entry : list string)
| InheritedMember
| NoEntry.

Definition localLinks_get (rushLinkJson : IRushLinkJson) (n : string) : LocalLinksLookup :=
  match localLinks rushLinkJson !! n with
  | Some entry => OwnEntry entry
  | None =>
      if bool_decide (n ∈ Object_prototype_names) then InheritedMember else NoEntry
  end.

(** The body of the loop over the rush dependencies (lines 81-113); the
    local package and the link manifest are the objects it mutates.  Line 96
    calls [push] on what line 91 found: on an inherited member that is a
    [TypeError]. *)
Definition linkRushDependency (cfg : RushConfiguration) (project : RushConfigurationProject)
           (dependencyName : string) (st : BasePackage * IRushLinkJson)
  : M (BasePackage * IRushLinkJson) :=
  let '(localPackage, rushLinkJson) := st in
  match getProjectByName cfg dependencyName with
  | Some matchedRushPackage =>
      let matchedVersion := pj_version (proj_packageJson matchedRushPackage) in
      match localLinks_get rushLinkJson (name localPackage) with
      | InheritedMember => throw (TypeError "localLinks.push is not a function")
      | found =>
          let entry : list string :=
            match found with OwnEntry entry => entry | _ => [] end in
          let rushLinkJson' :=
            mkRushLinkJson (<[name localPackage := (entry ++ [dependencyName])%list]>
                              (localLinks rushLinkJson)) in
          let newLocalFolderPath :=
            Path.join [folderPath localPackage; "node_modules"; dependencyName] in
          let newLocalPackage :=
            createLinkedPackage dependencyName (Some matchedVersion) newLocalFolderPath None in
          let newLocalPackage :=
            set_symlinkTargetFolderPath newLocalPackage (projectFolder matchedRushPackage) in
          ret (children_push localPackage newLocalPackage, rushLinkJson')
      end
  | None =>
      throw (ConfigurationError dependencyName (packageName project))
  end.

(** The body of the loop over the regular dependencies (lines 149-190). *)
Definition linkDependency (pathToLocalInstallation : string) (dependencyName : string)
           (localPackage : BasePackage) : M BasePackage :=
  let dependencyLocalInstallationSymlink :=
    Path.join [pathToLocalInstallation; dependencyName] in
  found <- fsx_existsSync dependencyLocalInstallationSymlink ;;
  if negb found then
    throw (BackendInvariantViolationError NotInstalled dependencyName pathToLocalInstallation)
  else
    stats <- fsx_lstatSync dependencyLocalInstallationSymlink ;;
    if negb (isSymbolicLink stats) then
      throw (BackendInvariantViolationError NotASymlink dependencyName pathToLocalInstallation)
    else
      let newLocalFolderPath :=
        Path.join [folderPath localPackage; "node_modules"; dependencyName] in
      version <- (if DEBUG then
                    packageJsonForDependency <-
                      fsx_readJsonSync (Path.join [dependencyLocalInstallationSymlink;
                                                   RushConstants.packageJsonFilename]) ;;
                    ret (Some (pj_version packageJsonForDependency))
                  else ret None) ;;
      let newLocalPackage :=
        createLinkedPackage dependencyName version newLocalFolderPath None in
      let newLocalPackage :=
        set_symlinkTargetFolderPath newLocalPackage dependencyLocalInstallationSymlink in
      addChild localPackage newLocalPackage.

Definition unscopedTempProjectName (project : RushConfigurationProject) : string :=
  parseScopedPackageName_name (tempProjectName project).

(** "C:\MyRepo\common\temp\projects\project1\package.json" *)
Definition packageJsonFilename (cfg : RushConfiguration) (project : RushConfigurationProject)
  : string :=
  let extractedFolder :=
    Path.join [commonTempFolder cfg; RushConstants.rushTempProjectsFolderName;
               unscopedTempProjectName project] in
  Path.join [extractedFolder; "package.json"].

(** "C:\MyRepo\common\temp\node_modules\@rush-temp\project1" *)
Definition installFolderName (cfg : RushConfiguration) (project : RushConfigurationProject)
  : string :=
  Path.join [commonTempFolder cfg; RushConstants.nodeModulesFolderName;
             RushConstants.rushTempNpmScope; unscopedTempProjectName project].

(** The [node_modules] folder that pnpm keeps for the project's tarball,
    under [common/temp/node_modules/.local]. *)
Definition pathToLocalInstallation (cfg : RushConfiguration)
           (project : RushConfigurationProject) : string :=
  let pathToTgzFile :=
    Path.join [commonTempFolder cfg; "projects"; unscopedTempProjectName project +:+ ".tgz"] in
  let escapedPathToTgzFile :=
    UriEncode.uriEncode (Path.join_with "/" (Path.split Path.sep pathToTgzFile)) in
  Path.join [commonTempFolder cfg; RushConstants.nodeModulesFolderName; ".local";
             escapedPathToTgzFile; RushConstants.nodeModulesFolderName].

(** Lines 54-190: the tree of the project is built in memory; the disk is
    only read. *)
Definition buildLocalPackage (cfg : RushConfiguration) (project : RushConfigurationProject)
           (rushLinkJson : IRushLinkJson) : M (BasePackage * IRushLinkJson) :=
  commonPackage <- createVirtualTempPackage (packageJsonFilename cfg project)
                                            (installFolderName cfg project) ;;
  let localPackage :=
    createLinkedPackage (pj_name (proj_packageJson project)) (version commonPackage)
                        (projectFolder project) None in
  st <- foldM (linkRushDependency cfg project)
              (from_option rushDependencyNames [] (packageJson commonPackage))
              (localPackage, rushLinkJson) ;;
  localPackage <- foldM (linkDependency (pathToLocalInstallation cfg project))
                        (from_option dependencyNames [] (packageJson commonPackage))
                        (fst st) ;;
  ret (localPackage, snd st).

(** [PnpmLinkManager._linkProject]; the mutated link manifest is returned. *)
Definition _linkProject (cfg : RushConfiguration) (project : RushConfigurationProject)
           (rushLinkJson : IRushLinkJson) : M IRushLinkJson :=
  st <- buildLocalPackage cfg project rushLinkJson ;;
  let localPackage := fst st in
  (if DEBUG then printTree localPackage else ret tt) ;;
  _createSymlinksForTopLevelProject localPackage ;;
  let commonBinFolder := Path.join [commonTempFolder cfg; "node_modules"; ".bin"] in
  let projectBinFolder := Path.join [folderPath localPackage; "node_modules"; ".bin"] in
  found <- fsx_existsSync commonBinFolder ;;
  (if found then _createSymlink commonBinFolder projectBinFolder SymlinkDirectory
   else ret tt) ;;
  ret (snd st).

(** The body of the loop of [_linkProjects]. *)
Definition linkOne (cfg : RushConfiguration) (rushProject : RushConfigurationProject)
           (rushLinkJson : IRushLinkJson) : M IRushLinkJson :=
  console_log (EOL +:+ "LINKING: " +:+ packageName rushProject) ;;
  _linkProject cfg rushProject rushLinkJson.

(** The loop of [_linkProjects] over a list of projects. *)
Definition linkAll (cfg : RushConfiguration) (l : list RushConfigurationProject)
           (rushLinkJson : IRushLinkJson) : M IRushLinkJson :=
  foldM (linkOne cfg) l rushLinkJson.

(** The body of the [try] block of [_linkProjects]. *)
Definition linkProjects_body (cfg : RushConfiguration) : M unit :=
  let rushLinkJson := mkRushLinkJson ∅ in
  rushLinkJson <- linkAll cfg (projects cfg) rushLinkJson ;;
  console_log ("Writing " +:+ dquote +:+ rushLinkJsonFilename cfg +:+ dquote) ;;
  JsonFile_save rushLinkJson (rushLinkJsonFilename cfg) ;;
  ret tt.

Inductive PromiseResult : Type :=
| Resolved
| Rejected (error : Error).

(** [PnpmLinkManager._linkProjects] *)
Definition _linkProjects (cfg : RushConfiguration) (w : World) : PromiseResult * World :=
  match linkProjects_body cfg w with
  | (inr _, w') => (Resolved, w')
  | (inl error, w') => (Rejected error, w')
  end.

(** ** Notions used by the statements *)

(** The staging manifest of a project as [JsonFile.load] finds it. *)
Definition stagingManifest (cfg : RushConfiguration) (project : RushConfigurationProject)
           (fs : FileSystem) : option IPackageJson :=
  match statSync fs (packageJsonFilename cfg project) with
  | Some (FsFile (PackageJsonFile pj)) => Some pj
  | _ => None
  end.

(** The link manifests written by [JsonFile.save], oldest first. *)
Fixpoint saves (evs : list Event) : list (string * IRushLinkJson) :=
  match evs with
  | [] => []
  | EvSaveJson filename content :: evs' => (filename, content) :: saves evs'
  | _ :: evs' => saves evs'
  end.

(** The files read by [readJsonSync] and [JsonFile.load], oldest first. *)
Fixpoint reads (evs : list Event) : list string :=
  match evs with
  | [] => []
  | EvReadJson filename :: evs' => filename :: reads evs'
  | _ :: evs' => reads evs'
  end.

(** What an event does to the disk. *)
Definition replay1 (fs : FileSystem) (ev : Event) : FileSystem :=
  match ev with
  | EvMkdir folder => <[folder := FsDir]> fs
  | EvSymlink target linkPath _ => <[linkPath := FsSymlink target]> fs
  | EvSaveJson filename content => <[filename := FsFile (RushLinkJsonFile content)]> fs
  | _ => fs
  end.

Definition replay (evs : list Event) (fs : FileSystem) : FileSystem :=
  fold_left replay1 evs fs.

(** The paths that the events of a log write to. *)
Fixpoint written_paths (evs : list Event) : list string :=
  match evs with
  | [] => []
  | EvMkdir folder :: evs' => folder :: written_paths evs'
  | EvSymlink _ linkPath _ :: evs' => linkPath :: written_paths evs'
  | EvSaveJson filename _ :: evs' => filename :: written_paths evs'
  | _ :: evs' => written_paths evs'
  end.

(** One symlink hop. *)
Definition readlink (fs : FileSystem) (p : string) : option string :=
  match fs !! p with
  | Some (FsSymlink target) => Some target
  | _ => None
  end.

(** The node that the loop over the rush dependencies creates for the
    dependency [d], matched with the project [matched]. *)
Definition rushChild (parentFolder d : string) (matched : RushConfigurationProject)
  : BasePackage :=
  mkBasePackage d (Some (pj_version (proj_packageJson matched)))
                (Path.join [parentFolder; "node_modules"; d])
                (Some (projectFolder matched)) [] None.

(** The node that the loop over the regular dependencies creates for [d]. *)
Definition depChild (parentFolder pathToLocalInstallation d : string) : BasePackage :=
  mkBasePackage d None
                (Path.join [parentFolder; "node_modules"; d])
                (Some (Path.join [pathToLocalInstallation; d])) [] None.

Definition with_children (pkg : BasePackage) (l : list BasePackage) : BasePackage :=
  mkBasePackage (name pkg) (version pkg) (folderPath pkg) (symlinkTargetFolderPath pkg)
                l (packageJson pkg).

Definition known (cfg : RushConfiguration) (d : string) : bool :=
  bool_decide (is_Some (getProjectByName cfg d)).

Definition rushChildren (cfg : RushConfiguration) (parentFolder : string)
           (keys : list string) : list BasePackage :=
  flat_map (fun d => match getProjectByName cfg d with
                     | Some matched => [rushChild parentFolder d matched]
                     | None => []
                     end) keys.

(** The link manifest after [keys] have been appended to the entry of [n]. *)
Definition record_links (n : string) (keys : list string) (rushLinkJson : IRushLinkJson)
  : IRushLinkJson :=
  match keys with
  | [] => rushLinkJson
  | _ => mkRushLinkJson
           (<[n := (default [] (localLinks rushLinkJson !! n) ++ keys)%list]>
              (localLinks rushLinkJson))
  end.

(** What one turn of the loop over the regular dependencies returns, as a
    function of the disk. *)
Definition linkDependency_result (fs : FileSystem) (pathToLocalInstallation d : string)
           (localPackage : BasePackage) : Error + BasePackage :=
  let p := Path.join [pathToLocalInstallation; d] in
  if negb (existsSync fs p) then
    inl (BackendInvariantViolationError NotInstalled d pathToLocalInstallation)
  else
    match lstatSync fs p with
    | None => inl (ENOENT p)
    | Some e =>
        if negb (isSymbolicLink (stats_of e)) then
          inl (BackendInvariantViolationError NotASymlink d pathToLocalInstallation)
        else if bool_decide (d ∈ child_names localPackage) then
          inl (DuplicateChildError (name localPackage) d)
        else inr (children_push localPackage
                                (depChild (folderPath localPackage) pathToLocalInstallation d))
    end.

(** A loop whose body may fail, without effects. *)
Fixpoint foldE {A S : Type} (f : A -> S -> Error + S) (l : list A) (s : S) : Error + S :=
  match l with
  | [] => inr s
  | a :: l' => match f a s with
               | inl e => inl e
               | inr s' => foldE f l' s'
               end
  end.

(** The first key of the loop over the rush dependencies is known, and
    line 91 finds an inherited member under the name [n]: line 96 throws. *)
Definition push_fails (cfg : RushConfiguration) (rushLinkJson : IRushLinkJson) (n : string)
           (keys : list string) : bool :=
  match keys with
  | d :: _ =>
      known cfg d
      && bool_decide (localLinks rushLinkJson !! n = None)
      && bool_decide (n ∈ Object_prototype_names)
  | [] => false
  end.

(** What lines 54-190 return for a staging manifest [pj], as a function of
    the disk. *)
Definition planProject (cfg : RushConfiguration) (project : RushConfigurationProject)
           (rushLinkJson : IRushLinkJson) (fs : FileSystem) (pj : IPackageJson)
  : Error + (BasePackage * IRushLinkJson) :=
  let localPackage :=
    createLinkedPackage (pj_name (proj_packageJson project)) (Some (pj_version pj))
                        (projectFolder project) None in
  if push_fails cfg rushLinkJson (pj_name (proj_packageJson project)) (rushDependencyNames pj)
  then inl (TypeError "localLinks.push is not a function")
  else
  match List.find (fun d => negb (known cfg d)) (rushDependencyNames pj) with
  | Some d => inl (ConfigurationError d (packageName project))
  | None =>
      let withRush :=
        with_children localPackage
                      (rushChildren cfg (projectFolder project) (rushDependencyNames pj)) in
      match foldE (linkDependency_result fs (pathToLocalInstallation cfg project))
                  (dependencyNames pj) withRush with
      | inl e => inl e
      | inr localPackage' =>
          inr (localPackage',
               record_links (pj_name (proj_packageJson project)) (rushDependencyNames pj)
                            rushLinkJson)
      end
  end.

(** The symlinks (target, link path) of the children that have a target. *)
Definition child_links (l : list BasePackage) : list (string * string) :=
  omap (fun c => match symlinkTargetFolderPath c with
                 | Some target => Some (target, folderPath c)
                 | None => None
                 end) l.

(** The symlinks that the projection makes for a tree of leaves, in order. *)
Definition links_of (localPackage : BasePackage) : list (string * string) :=
  child_links (children localPackage).

Definition link_event (l : string * string) : Event :=
  EvSymlink (fst l) (snd l) SymlinkDirectory.

(** A child that is a symlink and has no children of its own. *)
Definition leaf_link (c : BasePackage) : Prop :=
  is_Some (symlinkTargetFolderPath c) /\ children c = [].

Definition no_save (ev : Event) : Prop :=
  match ev with
  | EvSaveJson _ _ => False
  | _ => True
  end.

(** The staging manifests are the only files that a run over the projects of
    [l] may read, and it may not save the link manifest. *)
Definition link_event_of (cfg : RushConfiguration) (l : list RushConfigurationProject)
           (ev : Event) : Prop :=
  match ev with
  | EvSaveJson _ _ => False
  | EvReadJson filename => exists project, project ∈ l /\ filename = packageJsonFilename cfg project
  | _ => True
  end.

(** A computation is traced when the log accounts for all it does to the
    disk, with events that [Q] allows. *)
Definition traced {A : Type} (Q : Event -> Prop) (c : M A) : Prop :=
  forall w, exists evs,
    log (snd (c w)) = (log w ++ evs)%list
    /\ fs (snd (c w)) = replay evs (fs w)
    /\ Forall Q evs.

(** The folders of a project. *)
Definition nodeModulesFolder (project : RushConfigurationProject) : string :=
  Path.join [projectFolder project; "node_modules"].

Definition projectBinFolder (project : RushConfigurationProject) : string :=
  Path.join [projectFolder project; "node_modules"; ".bin"].

Definition commonBinFolder (cfg : RushConfiguration) : string :=
  Path.join [commonTempFolder cfg; "node_modules"; ".bin"].

(** The events of the projection of a tree onto a disk, when it succeeds. *)
Definition mkdir_events (fs : FileSystem) (folder : string) : list Event :=
  match fs !! folder with
  | None => [EvMkdir folder]
  | Some _ => []
  end.

Definition bin_events (cfg : RushConfiguration) (project : RushConfigurationProject)
           (fs : FileSystem) : list Event :=
  if existsSync fs (commonBinFolder cfg)
  then [EvSymlink (commonBinFolder cfg) (projectBinFolder project) SymlinkDirectory]
  else [].

Definition tree_events (project : RushConfigurationProject) (fs : FileSystem)
           (localPackage : BasePackage) : list Event :=
  (mkdir_events fs (nodeModulesFolder project) ++ map link_event (links_of localPackage))%list.

Definition project_events (cfg : RushConfiguration) (project : RushConfigurationProject)
           (fs : FileSystem) (localPackage : BasePackage) : list Event :=
  (tree_events project fs localPackage
   ++ bin_events cfg project (replay (tree_events project fs localPackage) fs))%list.

(** The location of a regular dependency is as the backend must leave it. *)
Definition installed_as_symlink (fs : FileSystem) (p : string) : bool :=
  existsSync fs p && bool_decide (is_Some (readlink fs p)).

(** [localPackage.name] for the tree of a project. *)
Definition localName (project : RushConfigurationProject) : string :=
  pj_name (proj_packageJson project).

(** The world once an event has been logged. *)
Definition logged (w : World) (ev : Event) : World := mkWorld (fs w) (log w ++ [ev]).

Definition linking_message (project : RushConfigurationProject) : Event :=
  EvConsoleLog (EOL +:+ "LINKING: " +:+ packageName project).

Definition writing_message (cfg : RushConfiguration) : Event :=
  EvConsoleLog ("Writing " +:+ dquote +:+ rushLinkJsonFilename cfg +:+ dquote).

(** Induction on a tree, children included. *)
Fixpoint BasePackage_tree_ind (P : BasePackage -> Prop)
  (H : forall n v f s l pj, Forall P l -> P (mkBasePackage n v f s l pj))
  (pkg : BasePackage) : P pkg :=
  match pkg with
  | mkBasePackage n v f s l pj =>
      H n v f s l pj
        ((fix all (l : list BasePackage) : Forall P l :=
            match l with
            | [] => @List.Forall_nil _ P
            | c :: l' => @List.Forall_cons _ P c l' (BasePackage_tree_ind P H c) (all l')
            end) l)
  end.

(** A computation that throws nothing but what [Q] allows. *)
Definition throws_only {A : Type} (Q : Error -> Prop) (c : M A) : Prop :=
  forall w e w', c w = (inl e, w') -> Q e.

Definition is_conflict (e : Error) : Prop := exists linkPath, e = FilesystemConflictError linkPath.

(** The depth of a tree: 0 for a node without children. *)
Fixpoint depth (pkg : BasePackage) : nat :=
  match pkg with
  | mkBasePackage _ _ _ _ l _ =>
      (fix deepest (l : list BasePackage) : nat :=
         match l with
         | [] => 0
         | c :: l' => Nat.max (S (depth c)) (deepest l')
         end) l
  end.

(** The root that [_linkProject] creates for a project. *)
Definition projectRoot (project : RushConfigurationProject) (pj : IPackageJson) : BasePackage :=
  createLinkedPackage (localName project) (Some (pj_version pj)) (projectFolder project) None.

(** The paths that [stat] visits when linking a project reads the disk: from
    the staging manifest, from the location of every regular dependency and
    from the common [.bin] folder. *)
Definition project_inputs (cfg : RushConfiguration) (project : RushConfigurationProject)
           (fs0 : FileSystem) : list string :=
  (stat_chain MAXSYMLINKS fs0 (packageJsonFilename cfg project)
   ++ flat_map (fun d => stat_chain MAXSYMLINKS fs0
                           (Path.join [pathToLocalInstallation cfg project; d]))
               (from_option dependencyNames [] (stagingManifest cfg project fs0))
   ++ stat_chain MAXSYMLINKS fs0 (commonBinFolder cfg))%list.

Definition inputs (cfg : RushConfiguration) (fs0 : FileSystem) : list string :=
  flat_map (fun project => project_inputs cfg project fs0) (projects cfg).

(** Two disks that hold the same at every path outside [W]. *)
Definition agree_outside (W : string -> Prop) (fsA fsB : FileSystem) : Prop :=
  forall p, ~ W p -> fsA !! p = fsB !! p.

(** The manifests of the regular dependencies themselves, where the backend
    has installed them for the projects: the files that the diagnostic
    branch of [_linkProject] reads. *)
Definition own_manifests (cfg : RushConfiguration) (fs : FileSystem) : list string :=
  flat_map (fun project =>
              map (fun d => Path.join [Path.join [pathToLocalInstallation cfg project; d];
                                       RushConstants.packageJsonFilename])
                  (from_option dependencyNames [] (stagingManifest cfg project fs)))
           (projects cfg).

(** The paths that a run consults whatever the manifests say: the staging
    manifest and the folder of every project, and the common [.bin] folder. *)
Definition consulted (cfg : RushConfiguration) : list string :=
  commonBinFolder cfg
  :: flat_map (fun project => [packageJsonFilename cfg project; projectFolder project])
              (projects cfg).

Definition is_file (o : option FsEntry) : Prop := exists c, o = Some (FsFile c).

(** Two disks that differ at most in the contents of files of [S]. *)
Definition same_but_contents (S : list string) (fs1 fs2 : FileSystem) : Prop :=
  forall p, fs1 !! p = fs2 !! p \/ (p ∈ S /\ is_file (fs1 !! p) /\ is_file (fs2 !! p)).

(** Every symlink of the first disk leads to a path where the two disks hold
    the same. *)
Definition unaliased (fs1 fs2 : FileSystem) : Prop :=
  forall p target, fs1 !! p = Some (FsSymlink target) -> fs1 !! target = fs2 !! target.

Definition related (S : list string) (w1 w2 : World) : Prop :=
  log w1 = log w2 /\ same_but_contents S (fs w1) (fs w2) /\ unaliased (fs w1) (fs w2).

(** A step of two related runs: the worlds are still related, and a path
    where the disks held the same still holds the same. *)
Definition step_ok (S : list string) (w1 w2 w1' w2' : World) : Prop :=
  related S w1' w2'
  /\ forall q, fs w1 !! q = fs w2 !! q -> fs w1' !! q = fs w2' !! q.

(** A symlink to [p]. *)
Definition leads_to (p : string) (e : FsEntry) : bool :=
  match e with
  | FsSymlink target => String.eqb target p
  | _ => false
  end.

(** A computation that cannot tell two related worlds apart. *)
Definition respects {A : Type} (S : list string) (c : M A) : Prop :=
  forall w1 w2, related S w1 w2 ->
                fst (c w1) = fst (c w2) /\ step_ok S w1 w2 (snd (c w1)) (snd (c w2)).

(** ** Notions about paths, names and messages *)

(** A string without a path separator. *)
Fixpoint sep_free (s : string) : bool :=
  match s with
  | EmptyString => true
  | String a s' => negb (Ascii.eqb a Path.sep) && sep_free s'
  end.

(** A path segment that [normalize] keeps as it stands. *)
Definition plain_segment (s : string) : bool :=
  sep_free s && negb (String.eqb s "") && negb (String.eqb s ".")
  && negb (String.eqb s "..").

(** The characters of a string are all unreserved. *)
Fixpoint all_unreserved (s : string) : bool :=
  match s with
  | EmptyString => true
  | String a s' => UriEncode.is_unreserved a && all_unreserved s'
  end.

(** The texts written to the console, oldest first. *)
Fixpoint console_texts (evs : list Event) : list string :=
  match evs with
  | [] => []
  | EvConsoleLog text :: evs' => text :: console_texts evs'
  | _ :: evs' => console_texts evs'
  end.

(** The errors that lines 54-190 throw: those of the staging manifest, of
    the rush dependencies, of the regular dependencies and of [addChild]. *)
Definition validation_error (e : Error) : Prop :=
  match e with
  | ENOENT _ | FilesystemConflictError _ => False
  | _ => True
  end.

(** An event that makes a folder or a symlink. *)
Definition is_link_write (ev : Event) : Prop :=
  match ev with
  | EvMkdir _ | EvSymlink _ _ _ => True
  | _ => False
  end.

(** Every entry of the link manifest is under the name of a project of the
    configuration, is not empty, and holds package names of projects of the
    configuration. *)
Definition manifest_ok (cfg : RushConfiguration) (rushLinkJson : IRushLinkJson) : Prop :=
  forall n l,
    localLinks rushLinkJson !! n = Some l ->
    l <> []
    /\ (exists project, project ∈ projects cfg /\ localName project = n)
    /\ Forall (fun d => is_Some (getProjectByName cfg d)) l.

(** The texts of lines 32 and 36. *)
Definition linking_text (project : RushConfigurationProject) : string :=
  EOL +:+ "LINKING: " +:+ packageName project.

Definition writing_text (cfg : RushConfiguration) : string :=
  "Writing " +:+ dquote +:+ rushLinkJsonFilename cfg +:+ dquote.

(** A line of the console that announces a project (line 32). *)
Definition linking_line (text : string) : bool :=
  String.prefix (EOL +:+ "LINKING: ") text.

(** ** A workspace of two projects

    Project [a] (in [/repo/tools/a]) declares the internal dependency [b] and
    the regular dependency [lodash]; project [b] (in [/repo/tools/b])
    declares [lodash] too.  The backend has installed [lodash] once, in
    [/store/lodash/1.0.0], has put a symlink to it into the local
    installation folder of each project, and has made the common [.bin]
    folder. *)
Module Scenario.

Definition projectA : RushConfigurationProject :=
  mkProject "a" (mkPackageJson "a" "1.0.0" None None) "/repo/tools/a" "@rush-temp/a".

Definition projectB : RushConfigurationProject :=
  mkProject "b" (mkPackageJson "b" "2.0.0" None None) "/repo/tools/b" "@rush-temp/b".

Definition cfg : RushConfiguration :=
  mkRushConfiguration [projectA; projectB] "/repo/common/temp"
                      "/repo/common/temp/rush-link.json".

Definition stagingA : IPackageJson :=
  mkPackageJson "@rush-temp/a" "0.0.0" (Some [("lodash", "1.0.0")]) (Some [("b", "2.0.0")]).

Definition stagingB : IPackageJson :=
  mkPackageJson "@rush-temp/b" "0.0.0" (Some [("lodash", "1.0.0")]) None.

Definition store : string := "/store/lodash/1.0.0".

Definition lodashOfA : string := Path.join [pathToLocalInstallation cfg projectA; "lodash"].
Definition lodashOfB : string := Path.join [pathToLocalInstallation cfg projectB; "lodash"].

Definition disk : FileSystem :=
  <["/repo/common/temp/projects/a/package.json" := FsFile (PackageJsonFile stagingA)]>
  (<["/repo/common/temp/projects/b/package.json" := FsFile (PackageJsonFile stagingB)]>
  (<[lodashOfA := FsSymlink store]>
  (<[lodashOfB := FsSymlink store]>
  (<[store := FsDir]>
  (<["/repo/tools/a" := FsDir]>
  (<["/repo/tools/b" := FsDir]> ∅)))))).

Definition world : World := mkWorld disk [].

(** The world after one run, and after a second one. *)
Abbreviation world_after := (snd (_linkProjects cfg world)).

Abbreviation world_after_twice := (snd (_linkProjects cfg (snd (_linkProjects cfg world)))).

(** The tree of [a]. *)
Definition treeOfA : BasePackage :=
  mkBasePackage "a" (Some "0.0.0") "/repo/tools/a" None
    [rushChild "/repo/tools/a" "b" projectB;
     depChild "/repo/tools/a" (pathToLocalInstallation cfg projectA) "lodash"]
    None.

(** A stale project graph: [a] still declares the internal dependency [b],
    but [b] is no longer a project of the configuration. *)
Definition staleCfg : RushConfiguration :=
  mkRushConfiguration [projectA] "/repo/common/temp" "/repo/common/temp/rush-link.json".

(** A staging manifest that lists [b] both as an internal and as a regular
    dependency, and a disk where the backend has installed that [b]. *)
Definition stagingTwice : IPackageJson :=
  mkPackageJson "@rush-temp/a" "0.0.0" (Some [("b", "2.0.0")]) (Some [("b", "2.0.0")]).

Definition bOfA : string := Path.join [pathToLocalInstallation cfg projectA; "b"].

Definition diskTwice : FileSystem :=
  <["/repo/common/temp/projects/a/package.json" := FsFile (PackageJsonFile stagingTwice)]>
  (<[bOfA := FsSymlink "/store/b/2.0.0"]>
  (<["/store/b/2.0.0" := FsDir]> disk)).

(** The manifest of [lodash] itself, where the backend has installed it for
    [a], in the edition [v]. *)
Definition lodashManifestOfA : string :=
  Path.join [lodashOfA; RushConstants.packageJsonFilename].

Definition lodashManifest (v : string) : FileContent :=
  PackageJsonFile (mkPackageJson "lodash" v None None).

Definition worldWith (v : string) : World :=
  mkWorld (<[lodashManifestOfA := FsFile (lodashManifest v)]> disk) [].

(** The same disk once the backend has made the common [.bin] folder. *)
Definition worldWithBin : World := mkWorld (<[commonBinFolder cfg := FsDir]> disk) [].

(** The staging manifest of [b] with another name and another range for
    [lodash]. *)
Definition stagingB' : IPackageJson :=
  mkPackageJson "b-staging" "0.0.0" (Some [("lodash", "^4.17.0")]) (Some []).

Definition worldWithStagingB' : World :=
  mkWorld (<["/repo/common/temp/projects/b/package.json"
             := FsFile (PackageJsonFile stagingB')]> disk) [].

(** The backend has left a folder, not a symlink, for the [lodash] of [b]. *)
Definition worldWithFolder : World := mkWorld (<[lodashOfB := FsDir]> disk) [].

(** A workspace with a project named [7]; the staging manifest of [a]
    declares the internal dependencies [b] and [7], in this order. *)
Definition projectSeven : RushConfigurationProject :=
  mkProject "7" (mkPackageJson "7" "3.0.0" None None) "/repo/tools/7" "@rush-temp/7".

Definition cfgNumbered : RushConfiguration :=
  mkRushConfiguration [projectA; projectB; projectSeven] "/repo/common/temp"
                      "/repo/common/temp/rush-link.json".

Definition stagingNumbered : IPackageJson :=
  mkPackageJson "@rush-temp/a" "0.0.0" None (Some [("b", "2.0.0"); ("7", "3.0.0")]).

Definition stagingSeven : IPackageJson :=
  mkPackageJson "@rush-temp/7" "0.0.0" None None.

Definition worldNumbered : World :=
  mkWorld (<["/repo/common/temp/projects/a/package.json"
             := FsFile (PackageJsonFile stagingNumbered)]>
           (<["/repo/common/temp/projects/7/package.json"
              := FsFile (PackageJsonFile stagingSeven)]>
           (<["/repo/tools/7" := FsDir]> disk))) [].

(** A workspace whose first project carries the name of a member of
    [Object.prototype]; its staging manifest declares the internal
    dependency [b], which is a project, and then [zzz], which is not. *)
Definition projectConstructor : RushConfigurationProject :=
  mkProject "constructor" (mkPackageJson "constructor" "1.0.0" None None)
            "/repo/tools/constructor" "@rush-temp/constructor".

Definition cfgInherited : RushConfiguration :=
  mkRushConfiguration [projectConstructor; projectB] "/repo/common/temp"
                      "/repo/common/temp/rush-link.json".

Definition stagingConstructor : IPackageJson :=
  mkPackageJson "@rush-temp/constructor" "0.0.0" None
                (Some [("b", "2.0.0"); ("zzz", "1.0.0")]).

Definition worldInherited : World :=
  mkWorld (<["/repo/common/temp/projects/constructor/package.json"
             := FsFile (PackageJsonFile stagingConstructor)]>
           (<["/repo/tools/constructor" := FsDir]> disk)) [].

(** The same workspace with the project renamed to [builder]. *)
Definition projectBuilder : RushConfigurationProject :=
  mkProject "builder" (mkPackageJson "builder" "1.0.0" None None)
            "/repo/tools/constructor" "@rush-temp/constructor".

Definition cfgRenamed : RushConfiguration :=
  mkRushConfiguration [projectBuilder; projectB] "/repo/common/temp"
                      "/repo/common/temp/rush-link.json".

End Scenario.

(** * Properties *)

Open Scope list_scope.

Arguments Path.join : simpl never.
Arguments pathToLocalInstallation : simpl never.
Arguments packageJsonFilename : simpl never.
Arguments installFolderName : simpl never.

(** Closes an equation between closed terms by evaluation. *)
Ltac by_evaluation :=
  match goal with
  | |- _ = ?rhs => vm_cast_no_check (@eq_refl _ rhs)
  end.

Lemma pair_fst_snd {A B : Type} (p : A * B) (a : A) : fst p = a -> p = (a, snd p).
Proof. destruct p. cbn. now intros ->. Qed.

(** Closes [c = (a, snd c)] by evaluating the first component only. *)
Ltac fst_by_evaluation :=
  match goal with
  | |- ?c = (?a, _) =>
      let H := fresh in
      assert (fst c = a) as H by by_evaluation;
      exact (pair_fst_snd c a H)
  end.

Ltac split_all := repeat match goal with |- _ /\ _ => split end.

Ltac list_eq := repeat first [rewrite <- app_assoc | progress cbn [app]]; reflexivity.

(** ** The monad *)

Lemma bind_inr {A B : Type} (m : M A) (k : A -> M B) w a w' :
  m w = (inr a, w') -> bind m k w = k a w'.
Proof. intros H. unfold bind. now rewrite H. Qed.

Lemma bind_inl {A B : Type} (m : M A) (k : A -> M B) w e w' :
  m w = (inl e, w') -> bind m k w = (inl e, w').
Proof. intros H. unfold bind. now rewrite H. Qed.

Lemma bind_inr_inv {A B : Type} (m : M A) (k : A -> M B) w b w' :
  bind m k w = (inr b, w') -> exists a w1, m w = (inr a, w1) /\ k a w1 = (inr b, w').
Proof.
  unfold bind. destruct (m w) as [[e|a] w1]; [discriminate|]. eauto.
Qed.

Lemma bind_inl_inv {A B : Type} (m : M A) (k : A -> M B) w e w' :
  bind m k w = (inl e, w') ->
  m w = (inl e, w') \/ exists a w1, m w = (inr a, w1) /\ k a w1 = (inl e, w').
Proof.
  unfold bind. destruct (m w) as [[e1|a] w1]; intros H; [left|right; eauto].
  now inversion H.
Qed.

Lemma foldM_app {A S : Type} (f : A -> S -> M S) l1 l2 s w :
  foldM f (l1 ++ l2) s w = bind (foldM f l1 s) (foldM f l2) w.
Proof.
  revert s w. induction l1 as [|a l1 IH]; intros s w; simpl.
  - reflexivity.
  - unfold bind. destruct (f a s w) as [[e|s'] w1]; [reflexivity|].
    rewrite IH. reflexivity.
Qed.

(** A loop whose body leaves the world alone is a function of the disk. *)
Lemma foldM_pure {A S : Type} (f : A -> S -> M S) (g : FileSystem -> A -> S -> Error + S) :
  (forall a s w, f a s w = (g (fs w) a s, w)) ->
  forall l s w, foldM f l s w = (foldE (g (fs w)) l s, w).
Proof.
  intros Hf l. induction l as [|a l IH]; intros s w; simpl.
  - reflexivity.
  - unfold bind. rewrite Hf. destruct (g (fs w) a s) as [e|s']; [reflexivity|].
    apply IH.
Qed.

Lemma foldE_app {A S : Type} (f : A -> S -> Error + S) l1 l2 s :
  foldE f (l1 ++ l2) s =
  match foldE f l1 s with inl e => inl e | inr s' => foldE f l2 s' end.
Proof.
  revert s. induction l1 as [|a l1 IH]; intros s; simpl; [reflexivity|].
  destruct (f a s); [reflexivity|]. apply IH.
Qed.

(** ** [Object.keys] lists a key once *)

Lemma dedup_keys_spec seen l :
  NoDup (dedup_keys seen l)
  /\ (forall k, k ∈ dedup_keys seen l <-> k ∈ l /\ k ∉ seen).
Proof.
  revert seen. induction l as [|k l IH]; intros seen; simpl.
  - split; [constructor|]. intros k. rewrite elem_of_nil. tauto.
  - case_bool_decide as Hk.
    + destruct (IH seen) as [Hnd Hin]. split; [exact Hnd|].
      intros k'. rewrite Hin, elem_of_cons. split; [tauto|].
      intros [[->|H] Hn]; [contradiction|tauto].
    + destruct (IH (k :: seen)) as [Hnd Hin]. split.
      * constructor; [|exact Hnd]. rewrite Hin, elem_of_cons. tauto.
      * intros k'. rewrite !elem_of_cons, Hin, elem_of_cons. split.
        -- intros [->|[H1 H2]]; tauto.
        -- intros [[->|H1] H2]; [tauto|].
           destruct (decide (k' = k)); tauto.
Qed.

Lemma insert_key_perm k l : insert_key k l ≡ₚ k :: l.
Proof.
  induction l as [|k' l IH]; [reflexivity|]. cbn [insert_key].
  destruct (index_leb k k'); [reflexivity|]. rewrite IH. apply Permutation_swap.
Qed.

Lemma sort_keys_perm l : sort_keys l ≡ₚ l.
Proof.
  induction l as [|k l IH]; [reflexivity|]. unfold sort_keys in *. cbn [foldr].
  now rewrite insert_key_perm, IH.
Qed.

(** [Object.keys] lists the properties, each once. *)
Lemma Object_keys_perm o : Object_keys o ≡ₚ dedup_keys [] (map fst o).
Proof. unfold Object_keys. rewrite sort_keys_perm. apply filter_app_complement. Qed.

Lemma Object_keys_NoDup o : NoDup (Object_keys o).
Proof. rewrite Object_keys_perm. apply dedup_keys_spec. Qed.

Lemma Object_keys_elem o k : k ∈ Object_keys o <-> k ∈ map fst o.
Proof.
  rewrite Object_keys_perm. destruct (dedup_keys_spec [] (map fst o)) as [_ H].
  rewrite H, elem_of_nil. tauto.
Qed.

(** ** The loop over the rush dependencies *)

Lemma known_true cfg d : known cfg d = true <-> is_Some (getProjectByName cfg d).
Proof. unfold known. apply bool_decide_eq_true. Qed.

Lemma known_false cfg d : known cfg d = false <-> getProjectByName cfg d = None.
Proof.
  unfold known. rewrite bool_decide_eq_false, <- eq_None_not_Some. tauto.
Qed.

Lemma getProjectByName_Some cfg d q :
  getProjectByName cfg d = Some q -> In q (projects cfg) /\ packageName q = d.
Proof.
  unfold getProjectByName. intros H. apply find_some in H as [H1 H2].
  split; [exact H1|]. now apply String.eqb_eq.
Qed.

Lemma localLinks_get_inherited rushLinkJson n :
  localLinks_get rushLinkJson n = InheritedMember
  <-> localLinks rushLinkJson !! n = None /\ n ∈ Object_prototype_names.
Proof.
  unfold localLinks_get. destruct (localLinks rushLinkJson !! n).
  - split; [discriminate|]. now intros [? _].
  - case_bool_decide; split; try tauto; try discriminate.
Qed.

Lemma linkRushDependency_known cfg project d localPackage rushLinkJson w matched :
  getProjectByName cfg d = Some matched ->
  localLinks_get rushLinkJson (name localPackage) <> InheritedMember ->
  linkRushDependency cfg project d (localPackage, rushLinkJson) w
  = (inr (children_push localPackage (rushChild (folderPath localPackage) d matched),
          record_links (name localPackage) [d] rushLinkJson), w).
Proof.
  intros H Hg. unfold linkRushDependency. rewrite H. unfold localLinks_get in *.
  destruct (localLinks rushLinkJson !! name localPackage) as [entry|] eqn:Hl.
  - unfold record_links. cbn [localLinks]. now rewrite Hl.
  - case_bool_decide; [contradiction|]. unfold record_links. cbn [localLinks].
    now rewrite Hl.
Qed.

(** Line 96 on an inherited member. *)
Lemma linkRushDependency_inherited cfg project d localPackage rushLinkJson w matched :
  getProjectByName cfg d = Some matched ->
  localLinks_get rushLinkJson (name localPackage) = InheritedMember ->
  linkRushDependency cfg project d (localPackage, rushLinkJson) w
  = (inl (TypeError "localLinks.push is not a function"), w).
Proof. intros H Hg. unfold linkRushDependency. now rewrite H, Hg. Qed.

Lemma linkRushDependency_unknown cfg project d st w :
  getProjectByName cfg d = None ->
  linkRushDependency cfg project d st w
  = (inl (ConfigurationError d (packageName project)), w).
Proof. intros H. unfold linkRushDependency. destruct st. rewrite H. reflexivity. Qed.

Lemma record_links_cons n d keys rushLinkJson :
  record_links n keys (record_links n [d] rushLinkJson) = record_links n (d :: keys) rushLinkJson.
Proof.
  destruct keys as [|k keys]; [reflexivity|].
  unfold record_links. cbn [localLinks]. f_equal.
  rewrite lookup_insert_eq, insert_insert_eq. simpl.
  now rewrite <- app_assoc.
Qed.

Lemma push_fails_spec cfg rushLinkJson n d keys :
  push_fails cfg rushLinkJson n (d :: keys) = true
  <-> known cfg d = true /\ localLinks_get rushLinkJson n = InheritedMember.
Proof.
  cbn [push_fails]. rewrite !andb_true_iff, !bool_decide_eq_true, localLinks_get_inherited.
  tauto.
Qed.

Lemma push_fails_recorded cfg rushLinkJson n d keys :
  push_fails cfg (record_links n [d] rushLinkJson) n keys = false.
Proof.
  destruct keys as [|k keys]; [reflexivity|]. cbn [push_fails record_links localLinks].
  rewrite lookup_insert_eq. rewrite (bool_decide_eq_false_2 (Some _ = None)) by discriminate.
  now rewrite andb_false_r.
Qed.

Lemma rush_loop cfg project keys : forall localPackage rushLinkJson w,
  foldM (linkRushDependency cfg project) keys (localPackage, rushLinkJson) w
  = (if push_fails cfg rushLinkJson (name localPackage) keys
     then inl (TypeError "localLinks.push is not a function")
     else
     match List.find (fun d => negb (known cfg d)) keys with
     | Some d => inl (ConfigurationError d (packageName project))
     | None =>
         inr (with_children localPackage
                (children localPackage ++ rushChildren cfg (folderPath localPackage) keys),
              record_links (name localPackage) keys rushLinkJson)
     end, w).
Proof.
  induction keys as [|d keys IH]; intros localPackage rushLinkJson w.
  - simpl. unfold ret. rewrite app_nil_r. now destruct localPackage.
  - cbn [foldM List.find]. destruct (known cfg d) eqn:Hk; cbn [negb].
    + pose proof Hk as Hkn. apply known_true in Hk as [q Hq].
      destruct (push_fails cfg rushLinkJson (name localPackage) (d :: keys)) eqn:Hp.
      * apply push_fails_spec in Hp as [_ Hp].
        erewrite bind_inl by (eapply linkRushDependency_inherited; eassumption).
        reflexivity.
      * assert (localLinks_get rushLinkJson (name localPackage) <> InheritedMember) as Hg.
        { intros Hg. assert (push_fails cfg rushLinkJson (name localPackage) (d :: keys)
                             = true) as Hp' by (apply push_fails_spec; auto).
          congruence. }
        erewrite bind_inr by (apply linkRushDependency_known; eassumption).
        rewrite IH. cbn [name children_push]. rewrite push_fails_recorded.
        destruct (List.find _ keys); [reflexivity|].
        rewrite record_links_cons. cbn [rushChildren flat_map]. rewrite Hq.
        unfold with_children, children_push. cbn. now rewrite <- app_assoc.
    + assert (push_fails cfg rushLinkJson (name localPackage) (d :: keys) = false) as ->
          by (cbn [push_fails]; now rewrite Hk).
      apply known_false in Hk.
      erewrite bind_inl by (apply linkRushDependency_unknown; exact Hk).
      reflexivity.
Qed.

Lemma rushChildren_names cfg folder keys :
  Forall (fun d => known cfg d = true) keys ->
  map name (rushChildren cfg folder keys) = keys.
Proof.
  induction 1 as [|d keys Hd _ IH]; [reflexivity|].
  apply known_true in Hd as [q Hq]. cbn [rushChildren flat_map]. rewrite Hq.
  cbn. f_equal. exact IH.
Qed.

Lemma find_unknown_None cfg keys :
  List.find (fun d => negb (known cfg d)) keys = None <->
  Forall (fun d => known cfg d = true) keys.
Proof.
  induction keys as [|d keys IH]; simpl.
  - split; [constructor|reflexivity].
  - destruct (known cfg d) eqn:Hk; simpl.
    + rewrite IH. split; [now constructor|]. now inversion 1.
    + split; [discriminate|]. inversion 1; congruence.
Qed.

(** The first name that matches no project. *)
Lemma find_unknown_Some cfg keys d :
  List.find (fun d => negb (known cfg d)) keys = Some d ->
  exists pre post, keys = pre ++ d :: post
                   /\ Forall (fun d' => known cfg d' = true) pre
                   /\ getProjectByName cfg d = None.
Proof.
  induction keys as [|k keys IH]; simpl; [discriminate|].
  destruct (known cfg k) eqn:Hk; simpl.
  - intros H. destruct (IH H) as (pre & post & -> & Hpre & Hd).
    exists (k :: pre), post. repeat split; [now constructor|exact Hd].
  - intros [= ->]. exists [], keys. repeat split; [constructor|].
    now apply known_false.
Qed.

(** ** The loop over the regular dependencies *)

Lemma linkDependency_spec pathToLocalInstallation d localPackage w :
  linkDependency pathToLocalInstallation d localPackage w
  = (linkDependency_result (fs w) pathToLocalInstallation d localPackage, w).
Proof.
  unfold linkDependency, linkDependency_result, fsx_existsSync, fsx_lstatSync,
    addChild, get_fs, bind, ret, throw, DEBUG.
  destruct (existsSync (fs w) _); cbn [negb]; [|reflexivity].
  destruct (lstatSync (fs w) _) as [e|]; [|reflexivity].
  destruct (isSymbolicLink (stats_of e)); cbn [negb]; [|reflexivity].
  cbn [name set_symlinkTargetFolderPath createLinkedPackage].
  case_bool_decide; reflexivity.
Qed.

Lemma dep_loop pathToLocalInstallation deps localPackage w :
  foldM (linkDependency pathToLocalInstallation) deps localPackage w
  = (foldE (linkDependency_result (fs w) pathToLocalInstallation) deps localPackage, w).
Proof.
  apply (foldM_pure (linkDependency pathToLocalInstallation)
                    (fun fs => linkDependency_result fs pathToLocalInstallation)).
  intros. apply linkDependency_spec.
Qed.

Lemma stat_fuel_lookup n fs p e : stat_fuel n fs p = Some e -> is_Some (fs !! p).
Proof. destruct n; simpl; destruct (fs !! p); eauto; discriminate. Qed.

Lemma existsSync_lookup fs p : existsSync fs p = true -> is_Some (fs !! p).
Proof.
  unfold existsSync, statSync. intros H. apply bool_decide_eq_true in H as [e He].
  eapply stat_fuel_lookup, He.
Qed.

Lemma installed_as_symlink_true fs p :
  installed_as_symlink fs p = true <->
  existsSync fs p = true /\ exists target, fs !! p = Some (FsSymlink target).
Proof.
  unfold installed_as_symlink, readlink.
  rewrite andb_true_iff, bool_decide_eq_true. split; intros [H1 H2]; split; try exact H1.
  - destruct (fs !! p) as [[]|]; try (destruct H2; discriminate). eauto.
  - destruct H2 as [t ->]. eauto.
Qed.

Lemma linkDependency_result_ok fs loc d localPackage :
  installed_as_symlink fs (Path.join [loc; d]) = true ->
  linkDependency_result fs loc d localPackage
  = if bool_decide (d ∈ child_names localPackage)
    then inl (DuplicateChildError (name localPackage) d)
    else inr (children_push localPackage (depChild (folderPath localPackage) loc d)).
Proof.
  intros H. apply installed_as_symlink_true in H as [H1 [t H2]].
  unfold linkDependency_result, lstatSync. rewrite H1, H2. reflexivity.
Qed.

Lemma linkDependency_result_bad fs loc d localPackage :
  installed_as_symlink fs (Path.join [loc; d]) = false ->
  exists why, linkDependency_result fs loc d localPackage
              = inl (BackendInvariantViolationError why d loc)
              /\ (why = NotInstalled <-> existsSync fs (Path.join [loc; d]) = false).
Proof.
  intros H. unfold linkDependency_result, lstatSync.
  destruct (existsSync fs (Path.join [loc; d])) eqn:He; cbn [negb].
  - destruct (existsSync_lookup _ _ He) as [e Hl]. rewrite Hl.
    destruct e as [c| |t]; cbn; try (exists NotASymlink; split; [reflexivity|split; discriminate]).
    exfalso. assert (installed_as_symlink fs (Path.join [loc; d]) = true) as H'
      by (apply installed_as_symlink_true; eauto).
    congruence.
  - exists NotInstalled. split; [reflexivity|tauto].
Qed.

(** ** Lines 54-190 as a function of the disk *)

Lemma fsx_readJsonSync_spec filename w :
  fsx_readJsonSync filename w
  = (match statSync (fs w) filename with
     | Some (FsFile (PackageJsonFile pj)) => inr pj
     | _ => inl (JsonLoadError filename)
     end, mkWorld (fs w) (log w ++ [EvReadJson filename])).
Proof.
  unfold fsx_readJsonSync, emit, get_fs, bind, ret, throw. cbn [fs log].
  destruct (statSync (fs w) filename) as [[[]| |]|]; reflexivity.
Qed.

Lemma buildLocalPackage_spec cfg project rushLinkJson w :
  buildLocalPackage cfg project rushLinkJson w
  = (match stagingManifest cfg project (fs w) with
     | Some pj => planProject cfg project rushLinkJson (fs w) pj
     | None => inl (JsonLoadError (packageJsonFilename cfg project))
     end,
     mkWorld (fs w) (log w ++ [EvReadJson (packageJsonFilename cfg project)])).
Proof.
  unfold buildLocalPackage, createVirtualTempPackage, stagingManifest.
  unfold bind at 1 2. rewrite fsx_readJsonSync_spec.
  destruct (statSync (fs w) (packageJsonFilename cfg project)) as [[[pj| |]| |]|];
    try reflexivity.
  unfold ret at 1. cbn [packageJson version createLinkedPackage from_option].
  unfold bind at 1. rewrite rush_loop. unfold planProject.
  cbn [children name folderPath createLinkedPackage app].
  destruct (push_fails cfg rushLinkJson _ (rushDependencyNames pj)); [reflexivity|].
  destruct (List.find _ (rushDependencyNames pj)); [reflexivity|].
  cbn [fst snd]. unfold bind. rewrite dep_loop. cbn [fs].
  destruct (foldE _ _ _); reflexivity.
Qed.

Lemma buildLocalPackage_fs cfg project rushLinkJson w :
  fs (snd (buildLocalPackage cfg project rushLinkJson w)) = fs w.
Proof. rewrite buildLocalPackage_spec. reflexivity. Qed.

(** ** The shape of the tree *)

Lemma rushChildren_leaves cfg folder keys : Forall leaf_link (rushChildren cfg folder keys).
Proof.
  induction keys as [|d keys IH]; [constructor|].
  cbn [rushChildren flat_map]. destruct (getProjectByName cfg d); [|exact IH].
  constructor; [|exact IH]. split; [eexists|]; reflexivity.
Qed.

(** What the loop over the regular dependencies keeps and what it adds. *)
Lemma dep_loop_children fs loc deps : forall localPackage localPackage',
  foldE (linkDependency_result fs loc) deps localPackage = inr localPackage' ->
  localPackage' = with_children localPackage
                    (children localPackage ++ map (depChild (folderPath localPackage) loc) deps)
  /\ Forall (fun d => installed_as_symlink fs (Path.join [loc; d]) = true) deps
  /\ (forall d, d ∈ deps -> d ∉ child_names localPackage)
  /\ NoDup deps.
Proof.
  induction deps as [|d deps IH]; intros localPackage localPackage'; simpl.
  - intros [= <-]. rewrite app_nil_r. repeat split.
    + now destruct localPackage.
    + constructor.
    + intros d Hd. now apply elem_of_nil in Hd.
    + constructor.
  - destruct (installed_as_symlink fs (Path.join [loc; d])) eqn:Hi.
    + rewrite (linkDependency_result_ok _ _ _ _ Hi).
      case_bool_decide as Hd; [discriminate|]. intros H.
      apply IH in H as (-> & Hall & Hnot & Hnd).
      assert (child_names (children_push localPackage
                (depChild (folderPath localPackage) loc d)) = child_names localPackage ++ [d])
        as Hnames by (unfold child_names; cbn; now rewrite map_app).
      rewrite Hnames in Hnot. repeat split.
      * unfold with_children, children_push. cbn. now rewrite <- app_assoc.
      * now constructor.
      * intros d' [->|Hd']%elem_of_cons; [exact Hd|].
        intros Hin. apply (Hnot d' Hd'). apply elem_of_app. now left.
      * constructor; [|exact Hnd]. intros Hin. apply (Hnot d Hin).
        apply elem_of_app. right. now apply list_elem_of_singleton.
    + destruct (linkDependency_result_bad _ _ _ localPackage Hi) as (why & -> & _).
      discriminate.
Qed.

Lemma planProject_inr cfg project rushLinkJson fs pj localPackage rushLinkJson' :
  planProject cfg project rushLinkJson fs pj = inr (localPackage, rushLinkJson') ->
  Forall (fun d => known cfg d = true) (rushDependencyNames pj)
  /\ localPackage
     = mkBasePackage (localName project) (Some (pj_version pj)) (projectFolder project) None
         (rushChildren cfg (projectFolder project) (rushDependencyNames pj)
          ++ map (depChild (projectFolder project) (pathToLocalInstallation cfg project))
                 (dependencyNames pj)) None
  /\ rushLinkJson' = record_links (localName project) (rushDependencyNames pj) rushLinkJson
  /\ Forall (fun d => installed_as_symlink fs
                        (Path.join [pathToLocalInstallation cfg project; d]) = true)
            (dependencyNames pj)
  /\ NoDup (rushDependencyNames pj ++ dependencyNames pj).
Proof.
  unfold planProject. destruct (push_fails _ _ _ _); [discriminate|].
  destruct (List.find _ _) eqn:Hf; [discriminate|].
  apply find_unknown_None in Hf.
  destruct (foldE _ _ _) as [e|p] eqn:Hd; [discriminate|]. intros [= <- <-].
  apply dep_loop_children in Hd as (-> & Hall & Hnot & Hnd).
  unfold child_names in Hnot. cbn in Hnot. rewrite (rushChildren_names _ _ _ Hf) in Hnot.
  repeat split; try assumption.
  apply NoDup_app. repeat split; [apply Object_keys_NoDup| |exact Hnd].
  intros d H1 H2. exact (Hnot d H2 H1).
Qed.

Lemma planProject_inr_push cfg project rushLinkJson fs pj st :
  planProject cfg project rushLinkJson fs pj = inr st ->
  push_fails cfg rushLinkJson (localName project) (rushDependencyNames pj) = false.
Proof.
  unfold planProject. fold (localName project).
  destruct (push_fails _ _ _ _); [discriminate|reflexivity].
Qed.

Lemma push_fails_false cfg rushLinkJson n d keys :
  push_fails cfg rushLinkJson n (d :: keys) = false ->
  known cfg d = true ->
  localLinks_get rushLinkJson n <> InheritedMember.
Proof.
  intros Hp Hk Hg.
  assert (push_fails cfg rushLinkJson n (d :: keys) = true) as Hp'
      by (apply push_fails_spec; auto).
  congruence.
Qed.

(** ** One project, and the loop over the projects *)

Lemma console_log_spec text w : console_log text w = (inr tt, logged w (EvConsoleLog text)).
Proof. reflexivity. Qed.

Lemma linkProject_inr cfg project rushLinkJson w rushLinkJson' w' :
  _linkProject cfg project rushLinkJson w = (inr rushLinkJson', w') ->
  exists pj localPackage,
    stagingManifest cfg project (fs w) = Some pj
    /\ planProject cfg project rushLinkJson (fs w) pj = inr (localPackage, rushLinkJson').
Proof.
  unfold _linkProject. unfold bind at 1. rewrite buildLocalPackage_spec.
  destruct (stagingManifest cfg project (fs w)) as [pj|]; [|discriminate].
  destruct (planProject cfg project rushLinkJson (fs w) pj) as [e|[T r]] eqn:Hp;
    [discriminate|].
  intros H. exists pj, T. split; [reflexivity|].
  cbn [fst snd] in H.
  apply bind_inr_inv in H as (? & ? & _ & H).
  apply bind_inr_inv in H as (? & ? & _ & H).
  apply bind_inr_inv in H as (? & ? & _ & H).
  apply bind_inr_inv in H as (? & ? & _ & H).
  unfold ret in H. inversion H; subst. exact Hp.
Qed.

Lemma linkOne_inr cfg project rushLinkJson w rushLinkJson' w' :
  linkOne cfg project rushLinkJson w = (inr rushLinkJson', w') ->
  exists pj localPackage,
    stagingManifest cfg project (fs w) = Some pj
    /\ planProject cfg project rushLinkJson (fs w) pj = inr (localPackage, rushLinkJson').
Proof.
  unfold linkOne. unfold bind. rewrite console_log_spec.
  intros H. apply linkProject_inr in H. exact H.
Qed.

Lemma linkAll_app cfg l1 l2 rushLinkJson w :
  linkAll cfg (l1 ++ l2) rushLinkJson w
  = bind (linkAll cfg l1 rushLinkJson) (linkAll cfg l2) w.
Proof. apply foldM_app. Qed.

Lemma linkAll_cons cfg project l rushLinkJson w :
  linkAll cfg (project :: l) rushLinkJson w
  = bind (linkOne cfg project rushLinkJson) (linkAll cfg l) w.
Proof. reflexivity. Qed.

Lemma record_links_other n keys rushLinkJson m :
  m <> n -> localLinks (record_links n keys rushLinkJson) !! m = localLinks rushLinkJson !! m.
Proof.
  intros Hne. destruct keys; [reflexivity|]. cbn. now rewrite lookup_insert_ne.
Qed.

Lemma record_links_same n keys rushLinkJson :
  localLinks rushLinkJson !! n = None ->
  localLinks (record_links n keys rushLinkJson) !! n
  = match keys with [] => None | _ => Some keys end.
Proof.
  intros Hn. destruct keys; [exact Hn|]. cbn. now rewrite lookup_insert_eq, Hn.
Qed.

(** The projects of a list leave the entries of all other names alone. *)
Lemma linkAll_other cfg l : forall rushLinkJson w rushLinkJson' w' n,
  linkAll cfg l rushLinkJson w = (inr rushLinkJson', w') ->
  n ∉ map localName l ->
  localLinks rushLinkJson' !! n = localLinks rushLinkJson !! n.
Proof.
  induction l as [|P l IH]; intros rlj w rlj' w' n.
  - intros [= <- <-]. reflexivity.
  - rewrite linkAll_cons. unfold bind.
    destruct (linkOne cfg P rlj w) as [[e|rlj1] w1] eqn:H1; [discriminate|].
    intros H Hn. cbn in Hn. apply not_elem_of_cons in Hn as [Hne Hn].
    rewrite (IH _ _ _ _ _ H Hn).
    apply linkOne_inr in H1 as (pj & T & _ & Hp).
    apply planProject_inr in Hp as (_ & _ & -> & _).
    now apply record_links_other.
Qed.

(** The turn of one project within a successful loop. *)
Lemma linkAll_turn cfg pre project post rushLinkJson w rushLinkJson' w' :
  linkAll cfg (pre ++ project :: post) rushLinkJson w = (inr rushLinkJson', w') ->
  NoDup (map localName (pre ++ project :: post)) ->
  exists rushLinkJsonP wP pj localPackage,
    linkAll cfg pre rushLinkJson w = (inr rushLinkJsonP, wP)
    /\ stagingManifest cfg project (fs wP) = Some pj
    /\ planProject cfg project rushLinkJsonP (fs wP) pj
       = inr (localPackage,
              record_links (localName project) (rushDependencyNames pj) rushLinkJsonP)
    /\ localLinks rushLinkJsonP !! localName project
       = localLinks rushLinkJson !! localName project
    /\ localLinks rushLinkJson' !! localName project
       = localLinks (record_links (localName project) (rushDependencyNames pj) rushLinkJsonP)
           !! localName project.
Proof.
  rewrite linkAll_app. unfold bind at 1.
  destruct (linkAll cfg pre rushLinkJson w) as [[e|rljP] wP] eqn:Hpre; [discriminate|].
  rewrite linkAll_cons. unfold bind at 1.
  destruct (linkOne cfg project rljP wP) as [[e|rlj1] w1] eqn:H1; [discriminate|].
  intros Hpost Hnd. rewrite map_app in Hnd. cbn in Hnd.
  apply NoDup_app in Hnd as (_ & Hdisj & Hnd2). apply NoDup_cons in Hnd2 as [Hnotin _].
  destruct (linkOne_inr _ _ _ _ _ _ H1) as (pj & T & Hs & Hp).
  destruct (planProject_inr _ _ _ _ _ _ _ Hp) as (_ & _ & Hr & _).
  exists rljP, wP, pj, T. subst rlj1. repeat split; try assumption.
  - eapply linkAll_other; [exact Hpre|]. intros Hin.
    apply (Hdisj _ Hin). now left.
  - eapply linkAll_other; [exact Hpost|exact Hnotin].
Qed.

Lemma JsonFile_save_spec jsonObject jsonFilename w :
  JsonFile_save jsonObject jsonFilename w
  = (inr true, mkWorld (<[jsonFilename := FsFile (RushLinkJsonFile jsonObject)]> (fs w))
                       (log w ++ [EvSaveJson jsonFilename jsonObject])).
Proof. reflexivity. Qed.

(** [_linkProjects] in terms of the loop. *)
Lemma linkProjects_spec cfg w :
  _linkProjects cfg w
  = match linkAll cfg (projects cfg) (mkRushLinkJson ∅) w with
    | (inl e, w1) => (Rejected e, w1)
    | (inr rushLinkJson, w1) =>
        (Resolved,
         mkWorld (<[rushLinkJsonFilename cfg := FsFile (RushLinkJsonFile rushLinkJson)]> (fs w1))
                 (log w1 ++ [writing_message cfg;
                             EvSaveJson (rushLinkJsonFilename cfg) rushLinkJson]))
    end.
Proof.
  unfold _linkProjects, linkProjects_body. unfold bind at 1.
  destruct (linkAll cfg (projects cfg) _ w) as [[e|rlj] w1]; [reflexivity|].
  unfold bind. rewrite console_log_spec, JsonFile_save_spec. unfold ret, logged. cbn.
  now rewrite <- app_assoc.
Qed.

(** ** The log accounts for the disk *)

Lemma replay_app evs1 evs2 fs : replay (evs1 ++ evs2) fs = replay evs2 (replay evs1 fs).
Proof. apply fold_left_app. Qed.

Section Traced.

Variable Q : Event -> Prop.
Hypothesis Q_console : forall text, Q (EvConsoleLog text).
Hypothesis Q_tree : forall pkg, Q (EvPrintTree pkg).
Hypothesis Q_mkdir : forall folder, Q (EvMkdir folder).
Hypothesis Q_symlink : forall target linkPath kind, Q (EvSymlink target linkPath kind).

Lemma traced_ret {A : Type} (a : A) : traced Q (ret a).
Proof. intros w. exists []. cbn. rewrite app_nil_r. auto. Qed.

Lemma traced_throw {A : Type} (e : Error) : traced Q (@throw A e).
Proof. intros w. exists []. cbn. rewrite app_nil_r. auto. Qed.

Lemma traced_bind {A B : Type} (m : M A) (k : A -> M B) :
  traced Q m -> (forall a, traced Q (k a)) -> traced Q (bind m k).
Proof.
  intros Hm Hk w. destruct (Hm w) as (evs1 & Hl1 & Hf1 & Hq1).
  unfold bind. destruct (m w) as [[e|a] w1]; cbn [snd] in *.
  - exists evs1. auto.
  - destruct (Hk a w1) as (evs2 & Hl2 & Hf2 & Hq2).
    exists (evs1 ++ evs2). rewrite Hl2, Hf2, Hl1, Hf1, replay_app, app_assoc.
    repeat split. now apply Forall_app.
Qed.

Lemma traced_foldM {A S : Type} (f : A -> S -> M S) l :
  (forall a s, traced Q (f a s)) -> forall s, traced Q (foldM f l s).
Proof.
  intros Hf. induction l as [|a l IH]; intros s; simpl.
  - apply traced_ret.
  - apply traced_bind; [apply Hf|exact IH].
Qed.

Lemma traced_forM_ {A : Type} (f : A -> M unit) l :
  Forall (fun a => traced Q (f a)) l -> traced Q (forM_ f l).
Proof.
  induction 1 as [|a l Ha _ IH]; simpl.
  - apply traced_ret.
  - apply traced_bind; [exact Ha|intros _; exact IH].
Qed.

Lemma traced_pure {A : Type} (c : M A) : (forall w, snd (c w) = w) -> traced Q c.
Proof. intros Hc w. exists []. rewrite Hc. cbn. rewrite app_nil_r. auto. Qed.

Lemma traced_console_log text : traced Q (console_log text).
Proof. intros w. exists [EvConsoleLog text]. cbn. repeat split. now constructor. Qed.

Lemma traced_printTree pkg : traced Q (printTree pkg).
Proof. intros w. exists [EvPrintTree pkg]. cbn. repeat split. now constructor. Qed.

Lemma traced_existsSync p : traced Q (fsx_existsSync p).
Proof. apply traced_pure. reflexivity. Qed.

Lemma traced_lstatSync p : traced Q (fsx_lstatSync p).
Proof.
  apply traced_pure. intros w. unfold fsx_lstatSync, get_fs, bind.
  destruct (lstatSync (fs w) p); reflexivity.
Qed.

Lemma traced_readJsonSync filename :
  Q (EvReadJson filename) -> traced Q (fsx_readJsonSync filename).
Proof.
  intros HQ w. exists [EvReadJson filename]. rewrite fsx_readJsonSync_spec. cbn.
  repeat split. now constructor.
Qed.

Lemma traced_addChild pkg child : traced Q (addChild pkg child).
Proof.
  apply traced_pure. intros w. unfold addChild. case_bool_decide; reflexivity.
Qed.

Lemma createSymlink_spec target linkPath kind w :
  _createSymlink target linkPath kind w
  = match fs w !! linkPath with
    | Some (FsFile _) | Some FsDir => (inl (FilesystemConflictError linkPath), w)
    | _ => (inr tt, mkWorld (<[linkPath := FsSymlink target]> (fs w))
                            (log w ++ [EvSymlink target linkPath kind]))
    end.
Proof.
  unfold _createSymlink, get_fs, put_fs, emit, lstatSync, bind, throw. cbn.
  destruct (fs w !! linkPath) as [[c| |t]|]; try reflexivity.
  now rewrite insert_delete_eq.
Qed.

Lemma ensureFolder_spec folder w :
  ensureFolder folder w
  = (inr tt, mkWorld (replay (mkdir_events (fs w) folder) (fs w))
                     (log w ++ mkdir_events (fs w) folder)).
Proof.
  unfold ensureFolder, mkdir_events, get_fs, put_fs, emit, lstatSync, bind, ret. cbn.
  destruct (fs w !! folder); cbn; [|reflexivity].
  rewrite app_nil_r. now destruct w.
Qed.

Lemma traced_createSymlink target linkPath kind : traced Q (_createSymlink target linkPath kind).
Proof.
  intros w. rewrite createSymlink_spec.
  destruct (fs w !! linkPath) as [[c| |t]|]; cbn;
    try (exists []; cbn; rewrite app_nil_r; now auto);
    (exists [EvSymlink target linkPath kind]; cbn; repeat split; now constructor).
Qed.

Lemma traced_ensureFolder folder : traced Q (ensureFolder folder).
Proof.
  intros w. rewrite ensureFolder_spec. exists (mkdir_events (fs w) folder). cbn.
  repeat split. unfold mkdir_events. destruct (fs w !! folder); [constructor|].
  now constructor.
Qed.

Lemma traced_createSymlinksForDependencies pkg : traced Q (createSymlinksForDependencies pkg).
Proof.
  induction pkg as [n v f s l pj IH] using BasePackage_tree_ind.
  destruct s as [target|]; cbn [createSymlinksForDependencies symlinkTargetFolderPath
                                 folderPath children].
  - apply traced_createSymlink.
  - apply traced_bind; [apply traced_ensureFolder|intros _].
    apply traced_bind; [apply traced_ensureFolder|intros _].
    induction IH as [|c l Hc _ IHl].
    + apply traced_ret.
    + apply traced_bind; [exact Hc|intros _; exact IHl].
Qed.

Lemma traced_createSymlinksForTopLevelProject pkg :
  traced Q (_createSymlinksForTopLevelProject pkg).
Proof.
  apply traced_bind; [apply traced_ensureFolder|intros _].
  apply traced_forM_. apply Forall_forall. intros c _.
  apply traced_createSymlinksForDependencies.
Qed.

Lemma traced_buildLocalPackage cfg project rushLinkJson :
  Q (EvReadJson (packageJsonFilename cfg project)) ->
  traced Q (buildLocalPackage cfg project rushLinkJson).
Proof.
  intros HQ w. exists [EvReadJson (packageJsonFilename cfg project)].
  rewrite buildLocalPackage_spec. cbn. repeat split. now constructor.
Qed.

Lemma traced_linkProject cfg project rushLinkJson :
  Q (EvReadJson (packageJsonFilename cfg project)) ->
  traced Q (_linkProject cfg project rushLinkJson).
Proof.
  intros HQ. unfold _linkProject.
  apply traced_bind; [now apply traced_buildLocalPackage|intros st].
  apply traced_bind; [unfold DEBUG; apply traced_ret|intros _].
  apply traced_bind; [apply traced_createSymlinksForTopLevelProject|intros _].
  apply traced_bind; [apply traced_existsSync|intros found].
  apply traced_bind; [|intros _; apply traced_ret].
  destruct found; [apply traced_createSymlink|apply traced_ret].
Qed.

Lemma traced_linkOne_by cfg project rushLinkJson :
  Q (EvReadJson (packageJsonFilename cfg project)) ->
  traced Q (linkOne cfg project rushLinkJson).
Proof.
  intros HQ. apply traced_bind; [apply traced_console_log|intros _].
  now apply traced_linkProject.
Qed.

Lemma traced_linkAll_by cfg l : forall rushLinkJson,
  (forall project, project ∈ l -> Q (EvReadJson (packageJsonFilename cfg project))) ->
  traced Q (linkAll cfg l rushLinkJson).
Proof.
  induction l as [|P l IH]; intros rlj HQ.
  - apply traced_ret.
  - apply traced_bind.
    + apply traced_linkOne_by, HQ. now left.
    + intros rlj1. apply IH. intros P' HP'. apply HQ. now right.
Qed.

End Traced.

Lemma link_event_no_save cfg l ev : link_event_of cfg l ev -> no_save ev.
Proof. destruct ev; cbn; tauto. Qed.

(** The events of linking the projects of [l]. *)
Lemma linkAll_events cfg l rushLinkJson : traced (link_event_of cfg l) (linkAll cfg l rushLinkJson).
Proof.
  apply traced_linkAll_by; try (intros; exact I).
  intros P HP. exists P. split; [exact HP|reflexivity].
Qed.

Lemma traced_linkOne cfg project rushLinkJson :
  traced no_save (linkOne cfg project rushLinkJson).
Proof. apply traced_linkOne_by; intros; exact I. Qed.

Lemma traced_linkAll cfg l rushLinkJson : traced no_save (linkAll cfg l rushLinkJson).
Proof. apply traced_linkAll_by; intros; exact I. Qed.

Lemma saves_app evs1 evs2 : saves (evs1 ++ evs2) = saves evs1 ++ saves evs2.
Proof.
  induction evs1 as [|ev evs1 IH]; [reflexivity|].
  destruct ev; cbn; rewrite ?IH; reflexivity.
Qed.

Lemma saves_no_save evs : Forall no_save evs -> saves evs = [].
Proof.
  induction 1 as [|ev evs Hev _ IH]; [reflexivity|].
  destruct ev; cbn in *; try exact IH. contradiction.
Qed.

Lemma replay_lookup_notin evs : forall fs p,
  p ∉ written_paths evs -> replay evs fs !! p = fs !! p.
Proof.
  induction evs as [|ev evs IH]; intros fs p Hp; [reflexivity|].
  cbn [replay fold_left]. fold (replay evs (replay1 fs ev)).
  destruct ev; cbn in *; rewrite IH; try assumption; try reflexivity;
    try (apply not_elem_of_cons in Hp as [Hne Hp]; try assumption;
         now rewrite lookup_insert_ne).
Qed.

(** Whatever is on the disk stays on the disk. *)
Lemma replay_lookup_is_Some evs : forall fs p,
  is_Some (fs !! p) -> is_Some (replay evs fs !! p).
Proof.
  induction evs as [|ev evs IH]; intros fs p Hp; [exact Hp|].
  cbn [replay fold_left]. fold (replay evs (replay1 fs ev)). apply IH.
  destruct ev; cbn; try exact Hp;
    (rewrite lookup_insert; case_decide; [eauto|exact Hp]).
Qed.

(** ** The projection of a tree of leaves *)

Lemma createSymlinksForDependencies_leaf c target :
  symlinkTargetFolderPath c = Some target ->
  createSymlinksForDependencies c = _createSymlink target (folderPath c) SymlinkDirectory.
Proof. destruct c as [n v f s l pj]. cbn. now intros ->. Qed.

Lemma child_links_cons c target l :
  symlinkTargetFolderPath c = Some target ->
  child_links (c :: l) = (target, folderPath c) :: child_links l.
Proof. intros H. unfold child_links. cbn. now rewrite H. Qed.

Lemma walk_leaves l : Forall leaf_link l -> forall w w' u,
  forM_ createSymlinksForDependencies l w = (inr u, w') ->
  log w' = log w ++ map link_event (child_links l)
  /\ fs w' = replay (map link_event (child_links l)) (fs w).
Proof.
  induction 1 as [|c l [[target Ht] _] _ IH]; intros w w' u.
  - intros [= <- <-]. cbn. now rewrite app_nil_r.
  - cbn [forM_]. intros H. apply bind_inr_inv in H as ([] & w1 & H1 & H2).
    rewrite (createSymlinksForDependencies_leaf _ _ Ht), createSymlink_spec in H1.
    rewrite (child_links_cons _ _ _ Ht). cbn [map].
    apply IH in H2 as [-> ->].
    destruct (fs w !! folderPath c) as [[| |]|]; try discriminate;
      inversion H1; subst; cbn; now rewrite <- app_assoc.
Qed.

(** Where the links are already in place, the walk changes nothing. *)
Lemma walk_leaves_in_place l : Forall leaf_link l -> forall w,
  (forall target linkPath, (target, linkPath) ∈ child_links l ->
                           fs w !! linkPath = Some (FsSymlink target)) ->
  forM_ createSymlinksForDependencies l w
  = (inr tt, mkWorld (fs w) (log w ++ map link_event (child_links l))).
Proof.
  induction 1 as [|c l [[target Ht] _] _ IH]; intros w Hin.
  - cbn. rewrite app_nil_r. now destruct w.
  - cbn [forM_]. rewrite (child_links_cons _ _ _ Ht) in *.
    rewrite (createSymlinksForDependencies_leaf _ _ Ht).
    assert (fs w !! folderPath c = Some (FsSymlink target)) as Hc
        by (apply Hin; now left).
    erewrite bind_inr; [|rewrite createSymlink_spec, Hc; reflexivity].
    rewrite IH; cbn [fs log].
    + rewrite (insert_id _ _ _ Hc). cbn. now rewrite <- app_assoc.
    + intros t L HL. rewrite (insert_id _ _ _ Hc). apply Hin. now right.
Qed.

Lemma planProject_leaves cfg project rushLinkJson fs pj localPackage rushLinkJson' :
  planProject cfg project rushLinkJson fs pj = inr (localPackage, rushLinkJson') ->
  Forall leaf_link (children localPackage)
  /\ folderPath localPackage = projectFolder project
  /\ symlinkTargetFolderPath localPackage = None.
Proof.
  intros H. apply planProject_inr in H as (_ & -> & _). cbn. repeat split.
  apply Forall_app. split; [apply rushChildren_leaves|].
  apply Forall_forall. intros c Hc. apply list_elem_of_fmap in Hc as (d & -> & _).
  split; [eexists|]; reflexivity.
Qed.

Lemma existsSync_spec p w : fsx_existsSync p w = (inr (existsSync (fs w) p), w).
Proof. reflexivity. Qed.

(** What linking one project does, when it succeeds. *)
Lemma linkProject_success cfg project rushLinkJson w rushLinkJson' w' :
  _linkProject cfg project rushLinkJson w = (inr rushLinkJson', w') ->
  exists pj localPackage,
    stagingManifest cfg project (fs w) = Some pj
    /\ planProject cfg project rushLinkJson (fs w) pj = inr (localPackage, rushLinkJson')
    /\ log w' = log w ++ EvReadJson (packageJsonFilename cfg project)
                      :: project_events cfg project (fs w) localPackage
    /\ fs w' = replay (project_events cfg project (fs w) localPackage) (fs w).
Proof.
  intros H. destruct (linkProject_inr _ _ _ _ _ _ H) as (pj & T & Hs & Hp).
  exists pj, T. split; [exact Hs|]. split; [exact Hp|].
  destruct (planProject_leaves _ _ _ _ _ _ _ Hp) as (Hleaves & Hfolder & _).
  unfold _linkProject in H. apply bind_inr_inv in H as (st & w1 & H1 & H).
  rewrite buildLocalPackage_spec, Hs, Hp in H1. inversion H1; subst st w1; clear H1.
  cbn [fst snd] in H. unfold DEBUG in H.
  apply bind_inr_inv in H as ([] & w1 & H1 & H). inversion H1; subst w1; clear H1.
  apply bind_inr_inv in H as ([] & w2 & H2 & H).
  unfold _createSymlinksForTopLevelProject in H2.
  apply bind_inr_inv in H2 as ([] & w1 & H1 & H2).
  rewrite ensureFolder_spec, Hfolder in H1. cbn [fs log] in H1.
  inversion H1; subst w1; clear H1.
  apply (walk_leaves _ Hleaves) in H2 as [Hl2 Hf2]. cbn [fs log] in Hl2, Hf2.
  apply bind_inr_inv in H as (found & w3 & H3 & H).
  rewrite existsSync_spec in H3. inversion H3; subst found w3; clear H3.
  apply bind_inr_inv in H as ([] & w4 & H4 & H). inversion H; subst; clear H.
  unfold project_events, tree_events, bin_events, links_of.
  fold (nodeModulesFolder project) in *. rewrite Hfolder in H4.
  fold (commonBinFolder cfg) (projectBinFolder project) in *.
  rewrite <- replay_app in Hf2. rewrite <- !app_assoc in Hl2. cbn [app] in Hl2.
  rewrite <- Hf2.
  destruct (existsSync (fs w2) (commonBinFolder cfg)).
  - rewrite createSymlink_spec in H4. rewrite replay_app, <- Hf2.
    destruct (fs w2 !! projectBinFolder project) as [[| |]|]; try discriminate;
      inversion H4; subst; cbn [fs log]; rewrite Hl2;
      (split; [|reflexivity]); list_eq.
  - inversion H4; subst. rewrite Hl2, app_nil_r. split; [reflexivity|exact Hf2].
Qed.

(** Where the planned links are already in place, linking a project changes
    nothing on the disk. *)
Lemma linkProject_in_place cfg project rushLinkJson w pj localPackage rushLinkJson' :
  stagingManifest cfg project (fs w) = Some pj ->
  planProject cfg project rushLinkJson (fs w) pj = inr (localPackage, rushLinkJson') ->
  is_Some (fs w !! nodeModulesFolder project) ->
  (forall target linkPath, (target, linkPath) ∈ links_of localPackage ->
                           fs w !! linkPath = Some (FsSymlink target)) ->
  (existsSync (fs w) (commonBinFolder cfg) = true ->
   fs w !! projectBinFolder project = Some (FsSymlink (commonBinFolder cfg))) ->
  exists w', _linkProject cfg project rushLinkJson w = (inr rushLinkJson', w')
             /\ fs w' = fs w.
Proof.
  intros Hs Hp [e Hnm] Hlinks Hbin.
  destruct (planProject_leaves _ _ _ _ _ _ _ Hp) as (Hleaves & Hfolder & _).
  unfold _linkProject.
  erewrite bind_inr; [|rewrite buildLocalPackage_spec, Hs, Hp; reflexivity].
  cbn [fst snd]. unfold DEBUG.
  erewrite bind_inr; [|reflexivity].
  erewrite bind_inr.
  2:{ unfold _createSymlinksForTopLevelProject.
      erewrite bind_inr; [|rewrite ensureFolder_spec, Hfolder; reflexivity].
      fold (nodeModulesFolder project). unfold mkdir_events. cbn [fs log]. rewrite Hnm.
      cbn [replay fold_left]. rewrite (walk_leaves_in_place _ Hleaves); [reflexivity|].
      exact Hlinks. }
  erewrite bind_inr; [|apply existsSync_spec]. cbn [fs].
  rewrite Hfolder. fold (commonBinFolder cfg) (projectBinFolder project).
  destruct (existsSync (fs w) (commonBinFolder cfg)) eqn:Hb.
  - erewrite bind_inr; [|rewrite createSymlink_spec; cbn [fs]; rewrite (Hbin eq_refl);
                         reflexivity].
    eexists. split; [reflexivity|]. cbn. now apply insert_id, Hbin.
  - erewrite bind_inr; [|reflexivity]. eexists. split; reflexivity.
Qed.

(** ** A successful run, seen from the turn of one project *)

Lemma linkAll_saves cfg l rushLinkJson w :
  saves (log (snd (linkAll cfg l rushLinkJson w))) = saves (log w).
Proof.
  destruct (traced_linkAll cfg l rushLinkJson w) as (evs & -> & _ & Hq).
  now rewrite saves_app, (saves_no_save _ Hq), app_nil_r.
Qed.

Lemma linkOne_success cfg project rushLinkJson w rushLinkJson' w' :
  linkOne cfg project rushLinkJson w = (inr rushLinkJson', w') ->
  exists pj localPackage,
    stagingManifest cfg project (fs w) = Some pj
    /\ planProject cfg project rushLinkJson (fs w) pj = inr (localPackage, rushLinkJson')
    /\ log w' = log w ++ linking_message project
                      :: EvReadJson (packageJsonFilename cfg project)
                      :: project_events cfg project (fs w) localPackage
    /\ fs w' = replay (project_events cfg project (fs w) localPackage) (fs w).
Proof.
  unfold linkOne. intros H. apply bind_inr_inv in H as ([] & w1 & H1 & H).
  rewrite console_log_spec in H1. inversion H1; subst w1; clear H1.
  apply linkProject_success in H as (pj & T & Hs & Hp & Hl & Hf).
  exists pj, T. cbn [fs log logged] in *. repeat split; try assumption.
  rewrite Hl. unfold linking_message. list_eq.
Qed.

Lemma run_turn cfg w w' pre project post :
  _linkProjects cfg w = (Resolved, w') ->
  NoDup (map localName (projects cfg)) ->
  projects cfg = pre ++ project :: post ->
  exists rushLinkJsonP wP pj localPackage manifest w1 evs,
    linkAll cfg pre (mkRushLinkJson ∅) w = (inr rushLinkJsonP, wP)
    /\ stagingManifest cfg project (fs wP) = Some pj
    /\ planProject cfg project rushLinkJsonP (fs wP) pj
       = inr (localPackage,
              record_links (localName project) (rushDependencyNames pj) rushLinkJsonP)
    /\ localLinks rushLinkJsonP !! localName project = None
    /\ linkAll cfg (projects cfg) (mkRushLinkJson ∅) w = (inr manifest, w1)
    /\ localLinks manifest !! localName project
       = match rushDependencyNames pj with [] => None | keys => Some keys end
    /\ w' = mkWorld (<[rushLinkJsonFilename cfg := FsFile (RushLinkJsonFile manifest)]> (fs w1))
                    (log w1 ++ [writing_message cfg;
                                EvSaveJson (rushLinkJsonFilename cfg) manifest])
    /\ saves (log w1) = saves (log w)
    /\ log w1 = log wP ++ linking_message project
                       :: EvReadJson (packageJsonFilename cfg project)
                       :: project_events cfg project (fs wP) localPackage ++ evs.
Proof.
  intros Hrun Hnd Hsplit. rewrite linkProjects_spec in Hrun.
  destruct (linkAll cfg (projects cfg) _ w) as [[e|manifest] w1] eqn:Hall; [discriminate|].
  inversion Hrun; subst w'; clear Hrun.
  pose proof (linkAll_saves cfg (projects cfg) (mkRushLinkJson ∅) w) as Hsaves.
  rewrite Hall in Hsaves. cbn [snd] in Hsaves.
  pose proof Hall as Hall0.
  rewrite Hsplit in Hall, Hnd.
  destruct (linkAll_turn _ _ _ _ _ _ _ _ Hall Hnd)
    as (rljP & wP & pj & T & Hpre & Hs & Hp & HeP & Hfinal).
  cbn [localLinks] in HeP. rewrite lookup_empty in HeP.
  rewrite (record_links_same _ _ _ HeP) in Hfinal.
  rewrite linkAll_app, (bind_inr _ _ _ _ _ Hpre), linkAll_cons in Hall.
  apply bind_inr_inv in Hall as (rlj1 & wQ & H1 & Hpost).
  apply linkOne_success in H1 as (pj' & T' & Hs' & Hp' & Hl1 & _).
  rewrite Hs in Hs'. inversion Hs'; subst pj'. rewrite Hp in Hp'.
  inversion Hp'; subst T' rlj1.
  destruct (traced_linkAll cfg post
              (record_links (localName project) (rushDependencyNames pj) rljP) wQ)
    as (evs & Hl2 & _).
  rewrite Hpost in Hl2. cbn [snd] in Hl2.
  exists rljP, wP, pj, T, manifest, w1, evs.
  repeat split; try assumption.
  - rewrite Hfinal. now destruct (rushDependencyNames pj).
  - rewrite Hl2, Hl1. list_eq.
Qed.

(** ** Failures *)

Lemma linkAll_inl cfg l : forall rushLinkJson w e w1,
  linkAll cfg l rushLinkJson w = (inl e, w1) ->
  exists pre project post rushLinkJsonP wP,
    l = pre ++ project :: post
    /\ linkAll cfg pre rushLinkJson w = (inr rushLinkJsonP, wP)
    /\ linkOne cfg project rushLinkJsonP wP = (inl e, w1).
Proof.
  induction l as [|P l IH]; intros rlj w e w1; [discriminate|].
  rewrite linkAll_cons. intros H. apply bind_inl_inv in H as [H|(rlj1 & wQ & H1 & H)].
  - exists [], P, l, rlj, w. repeat split. exact H.
  - apply IH in H as (pre & Q & post & rljP & wP & -> & Hpre & HQ).
    exists (P :: pre), Q, post, rljP, wP. repeat split; [|exact HQ].
    cbn [app]. rewrite linkAll_cons. now rewrite (bind_inr _ _ _ _ _ H1).
Qed.

Lemma linkAll_reaches cfg pre project post rushLinkJson w rushLinkJsonP wP e w1 :
  linkAll cfg pre rushLinkJson w = (inr rushLinkJsonP, wP) ->
  linkOne cfg project rushLinkJsonP wP = (inl e, w1) ->
  linkAll cfg (pre ++ project :: post) rushLinkJson w = (inl e, w1).
Proof.
  intros Hpre HP. rewrite linkAll_app, (bind_inr _ _ _ _ _ Hpre), linkAll_cons.
  now rewrite (bind_inl _ _ _ _ _ HP).
Qed.

Lemma throws_only_ret {A : Type} Q (a : A) : throws_only Q (ret a).
Proof. intros w e w'. discriminate. Qed.

Lemma throws_only_bind {A B : Type} Q (m : M A) (k : A -> M B) :
  throws_only Q m -> (forall a, throws_only Q (k a)) -> throws_only Q (bind m k).
Proof.
  intros Hm Hk w e w' H. apply bind_inl_inv in H as [H|(a & w1 & _ & H)].
  - eapply Hm, H.
  - eapply Hk, H.
Qed.

Lemma throws_only_forM_ {A : Type} Q (f : A -> M unit) l :
  Forall (fun a => throws_only Q (f a)) l -> throws_only Q (forM_ f l).
Proof.
  induction 1 as [|a l Ha _ IH]; simpl.
  - apply throws_only_ret.
  - apply throws_only_bind; [exact Ha|intros _; exact IH].
Qed.

Lemma throws_only_createSymlink target linkPath kind :
  throws_only is_conflict (_createSymlink target linkPath kind).
Proof.
  intros w e w'. rewrite createSymlink_spec.
  destruct (fs w !! linkPath) as [[| |]|]; intros [= <- <-]; now eexists.
Qed.

Lemma throws_only_ensureFolder folder : throws_only is_conflict (ensureFolder folder).
Proof. intros w e w'. rewrite ensureFolder_spec. discriminate. Qed.

Lemma throws_only_createSymlinksForDependencies pkg :
  throws_only is_conflict (createSymlinksForDependencies pkg).
Proof.
  induction pkg as [n v f s l pj IH] using BasePackage_tree_ind.
  destruct s as [target|]; cbn [createSymlinksForDependencies symlinkTargetFolderPath
                                 folderPath children].
  - apply throws_only_createSymlink.
  - apply throws_only_bind; [apply throws_only_ensureFolder|intros _].
    apply throws_only_bind; [apply throws_only_ensureFolder|intros _].
    induction IH as [|c l Hc _ IHl].
    + apply throws_only_ret.
    + apply throws_only_bind; [exact Hc|intros _; exact IHl].
Qed.

(** Linking a project fails either before it touches the disk, or on a path
    that holds something that is not a symlink. *)
Lemma linkProject_inl cfg project rushLinkJson w e w' :
  _linkProject cfg project rushLinkJson w = (inl e, w') ->
  (fst (buildLocalPackage cfg project rushLinkJson w) = inl e
   /\ w' = logged w (EvReadJson (packageJsonFilename cfg project)))
  \/ is_conflict e.
Proof.
  unfold _linkProject. intros H. apply bind_inl_inv in H as [H|(st & w1 & _ & H)].
  - left. rewrite H. split; [reflexivity|].
    apply (f_equal snd) in H. rewrite buildLocalPackage_spec in H. now cbn in H.
  - right. revert H. generalize w1 e w'. fold (throws_only is_conflict
      ((if DEBUG then printTree (fst st) else ret tt);;
       _createSymlinksForTopLevelProject (fst st);;
       found <- fsx_existsSync (Path.join [commonTempFolder cfg; "node_modules"; ".bin"]);;
       (if found
        then _createSymlink (Path.join [commonTempFolder cfg; "node_modules"; ".bin"])
               (Path.join [folderPath (fst st); "node_modules"; ".bin"]) SymlinkDirectory
        else ret tt);;
       ret (snd st))).
    apply throws_only_bind; [unfold DEBUG; apply throws_only_ret|intros _].
    apply throws_only_bind; [|intros _].
    + apply throws_only_bind; [apply throws_only_ensureFolder|intros _].
      apply throws_only_forM_, Forall_forall. intros c _.
      apply throws_only_createSymlinksForDependencies.
    + apply throws_only_bind; [intros ? ? ?; discriminate|intros found].
      apply throws_only_bind; [|intros _; apply throws_only_ret].
      destruct found; [apply throws_only_createSymlink|apply throws_only_ret].
Qed.

Lemma linkOne_inl cfg project rushLinkJson w e w' :
  linkOne cfg project rushLinkJson w = (inl e, w') ->
  (fst (buildLocalPackage cfg project rushLinkJson (logged w (linking_message project)))
   = inl e
   /\ w' = logged (logged w (linking_message project))
                  (EvReadJson (packageJsonFilename cfg project)))
  \/ is_conflict e.
Proof.
  unfold linkOne. intros H. apply bind_inl_inv in H as [H|([] & w1 & H1 & H)].
  - discriminate.
  - rewrite console_log_spec in H1. inversion H1; subst w1.
    now apply linkProject_inl in H.
Qed.

(** A project whose staging manifest names an unknown internal dependency. *)
Lemma linkOne_unknown cfg project rushLinkJson w pj d :
  stagingManifest cfg project (fs w) = Some pj ->
  push_fails cfg rushLinkJson (localName project) (rushDependencyNames pj) = false ->
  List.find (fun d => negb (known cfg d)) (rushDependencyNames pj) = Some d ->
  linkOne cfg project rushLinkJson w
  = (inl (ConfigurationError d (packageName project)),
     logged (logged w (linking_message project))
            (EvReadJson (packageJsonFilename cfg project))).
Proof.
  intros Hs Hp Hf. unfold linkOne. erewrite bind_inr; [|apply console_log_spec].
  unfold _linkProject. erewrite bind_inl; [reflexivity|].
  rewrite buildLocalPackage_spec. cbn [fs logged]. rewrite Hs.
  unfold planProject. fold (localName project). now rewrite Hp, Hf.
Qed.

Lemma find_unknown_exists cfg keys d :
  d ∈ keys -> getProjectByName cfg d = None ->
  exists d0, List.find (fun d => negb (known cfg d)) keys = Some d0.
Proof.
  intros Hin Hd. destruct (List.find _ keys) as [d0|] eqn:Hf; [eauto|].
  apply find_unknown_None in Hf. rewrite Forall_forall in Hf.
  apply Hf, known_true in Hin as [q Hq]. congruence.
Qed.

(** ** The whole run and the disk *)

Lemma linkProjects_traced cfg w :
  exists evs,
    log (snd (_linkProjects cfg w)) = log w ++ evs
    /\ fs (snd (_linkProjects cfg w)) = replay evs (fs w).
Proof.
  rewrite linkProjects_spec.
  destruct (traced_linkAll cfg (projects cfg) (mkRushLinkJson ∅) w) as (evs & Hl & Hf & _).
  destruct (linkAll cfg (projects cfg) _ w) as [[e|manifest] w1]; cbn [snd] in *.
  - exists evs. auto.
  - exists (evs ++ [writing_message cfg; EvSaveJson (rushLinkJsonFilename cfg) manifest]).
    cbn [fs log]. rewrite Hl, replay_app, <- Hf. split; [list_eq|reflexivity].
Qed.

Lemma symlink_written evs target linkPath kind :
  EvSymlink target linkPath kind ∈ evs -> linkPath ∈ written_paths evs.
Proof.
  induction evs as [|ev evs IH]; intros Hin; [now apply elem_of_nil in Hin|].
  apply elem_of_cons in Hin as [<-|Hin].
  - cbn. now left.
  - specialize (IH Hin). destruct ev; cbn; try exact IH; now right.
Qed.

(** A path that the log writes once holds what was written. *)
Lemma replay_lookup_once evs : forall fs target linkPath kind,
  NoDup (written_paths evs) ->
  EvSymlink target linkPath kind ∈ evs ->
  replay evs fs !! linkPath = Some (FsSymlink target).
Proof.
  induction evs as [|ev evs IH]; intros fs t L k Hnd Hin; [now apply elem_of_nil in Hin|].
  cbn [replay fold_left]. fold (replay evs (replay1 fs ev)).
  apply elem_of_cons in Hin as [<-|Hin].
  - cbn in Hnd. apply NoDup_cons in Hnd as [Hnotin _].
    rewrite (replay_lookup_notin _ _ _ Hnotin). cbn. apply lookup_insert_eq.
  - apply (IH _ _ _ k); [|exact Hin].
    destruct ev; cbn in Hnd; try exact Hnd; now apply NoDup_cons in Hnd as [_ Hnd].
Qed.

Lemma written_paths_app evs1 evs2 :
  written_paths (evs1 ++ evs2) = written_paths evs1 ++ written_paths evs2.
Proof.
  induction evs1 as [|ev evs1 IH]; [reflexivity|].
  destruct ev; cbn; rewrite ?IH; reflexivity.
Qed.

(** The turn of one project within a successful loop, and its events. *)
Lemma linkAll_turn_events cfg pre project post rushLinkJson w rushLinkJson' w' :
  linkAll cfg (pre ++ project :: post) rushLinkJson w = (inr rushLinkJson', w') ->
  exists rushLinkJsonP wP pj localPackage rushLinkJson1 evsPre evsPost,
    linkAll cfg pre rushLinkJson w = (inr rushLinkJsonP, wP)
    /\ stagingManifest cfg project (fs wP) = Some pj
    /\ planProject cfg project rushLinkJsonP (fs wP) pj = inr (localPackage, rushLinkJson1)
    /\ log wP = log w ++ evsPre
    /\ fs wP = replay evsPre (fs w)
    /\ log w' = log wP ++ linking_message project
                       :: EvReadJson (packageJsonFilename cfg project)
                       :: project_events cfg project (fs wP) localPackage ++ evsPost.
Proof.
  rewrite linkAll_app. intros H. apply bind_inr_inv in H as (rljP & wP & Hpre & H).
  rewrite linkAll_cons in H. apply bind_inr_inv in H as (rlj1 & wQ & H1 & Hpost).
  apply linkOne_success in H1 as (pj & T & Hs & Hp & Hl1 & _).
  destruct (traced_linkAll cfg pre rushLinkJson w) as (evsPre & HlP & HfP & _).
  rewrite Hpre in HlP, HfP. cbn [snd] in HlP, HfP.
  destruct (traced_linkAll cfg post rlj1 wQ) as (evsPost & Hl2 & _).
  rewrite Hpost in Hl2. cbn [snd] in Hl2.
  exists rljP, wP, pj, T, rlj1, evsPre, evsPost. repeat split; try assumption.
  rewrite Hl2, Hl1. list_eq.
Qed.

(** ** What linking reads *)

Lemma stat_fuel_agree n : forall (fsA fsB : FileSystem) p,
  (forall q, q ∈ stat_chain n fsA p -> fsB !! q = fsA !! q) ->
  stat_fuel n fsB p = stat_fuel n fsA p.
Proof.
  induction n as [|n IH]; intros fsA fsB p Hag.
  - cbn in *. rewrite (Hag p) by (destruct (fsA !! p) as [[]|]; now left).
    reflexivity.
  - cbn [stat_fuel stat_chain] in *.
    rewrite (Hag p) by now left.
    destruct (fsA !! p) as [[c| |t]|] eqn:Hp; try reflexivity.
    apply IH. intros q Hq. apply Hag. now right.
Qed.

Lemma stat_chain_head n (fs : FileSystem) p : p ∈ stat_chain n fs p.
Proof. destruct n; cbn; now left. Qed.

Lemma statSync_agree (fsA fsB : FileSystem) p :
  (forall q, q ∈ stat_chain MAXSYMLINKS fsA p -> fsB !! q = fsA !! q) ->
  statSync fsB p = statSync fsA p.
Proof. apply stat_fuel_agree. Qed.

Lemma existsSync_agree (fsA fsB : FileSystem) p :
  (forall q, q ∈ stat_chain MAXSYMLINKS fsA p -> fsB !! q = fsA !! q) ->
  existsSync fsB p = existsSync fsA p.
Proof. intros H. unfold existsSync. now rewrite (statSync_agree _ _ _ H). Qed.

Lemma linkDependency_result_agree (fsA fsB : FileSystem) loc d localPackage :
  (forall q, q ∈ stat_chain MAXSYMLINKS fsA (Path.join [loc; d]) -> fsB !! q = fsA !! q) ->
  linkDependency_result fsB loc d localPackage = linkDependency_result fsA loc d localPackage.
Proof.
  intros H. unfold linkDependency_result, lstatSync.
  rewrite (existsSync_agree _ _ _ H), (H _ (stat_chain_head _ _ _)). reflexivity.
Qed.

Lemma foldE_ext {A S : Type} (f g : A -> S -> Error + S) l :
  (forall a s, a ∈ l -> f a s = g a s) -> forall s, foldE f l s = foldE g l s.
Proof.
  induction l as [|a l IH]; intros H s; [reflexivity|]. cbn.
  rewrite (H a s) by now left. destruct (g a s); [reflexivity|].
  apply IH. intros a' s' Ha. apply H. now right.
Qed.

(** Linking a project reads the same on two disks that hold the same along
    the paths that it reads. *)
Lemma project_inputs_agree cfg project (fs0 fsB : FileSystem) :
  (forall q, q ∈ project_inputs cfg project fs0 -> fsB !! q = fs0 !! q) ->
  stagingManifest cfg project fsB = stagingManifest cfg project fs0
  /\ (forall rushLinkJson pj,
         stagingManifest cfg project fs0 = Some pj ->
         planProject cfg project rushLinkJson fsB pj
         = planProject cfg project rushLinkJson fs0 pj)
  /\ existsSync fsB (commonBinFolder cfg) = existsSync fs0 (commonBinFolder cfg).
Proof.
  intros H. unfold project_inputs in H.
  assert (stagingManifest cfg project fsB = stagingManifest cfg project fs0) as Hs.
  { unfold stagingManifest. rewrite (statSync_agree fs0 fsB); [reflexivity|].
    intros q Hq. apply H. apply elem_of_app. now left. }
  split; [exact Hs|]. split.
  - intros rlj pj Hpj. rewrite Hpj in H. cbn [from_option] in H. unfold planProject.
    destruct (List.find _ _); [reflexivity|].
    erewrite foldE_ext; [reflexivity|]. intros d T Hd. cbn beta.
    apply linkDependency_result_agree. intros q Hq. apply H.
    apply elem_of_app. right. apply elem_of_app. left.
    apply list_elem_of_In, in_flat_map. exists d. split; now apply list_elem_of_In.
  - apply existsSync_agree. intros q Hq. apply H.
    apply elem_of_app. right. apply elem_of_app. now right.
Qed.

Lemma agree_outside_replay (W : string -> Prop) evs (fs0 fs1 : FileSystem) :
  agree_outside W fs0 fs1 ->
  (forall p, p ∈ written_paths evs -> W p) ->
  agree_outside W fs0 (replay evs fs1).
Proof.
  intros Hag Hw p Hp. rewrite replay_lookup_notin; [now apply Hag|].
  intros Hin. apply Hp, Hw, Hin.
Qed.

Lemma replay_written_is_Some evs : forall (fs : FileSystem) p,
  p ∈ written_paths evs -> is_Some (replay evs fs !! p).
Proof.
  induction evs as [|ev evs IH]; intros fs p Hp; [now apply elem_of_nil in Hp|].
  cbn [replay fold_left]. fold (replay evs (replay1 fs ev)).
  destruct ev; cbn in Hp; try (now apply IH);
    (apply elem_of_cons in Hp as [->|Hp]; [|now apply IH]);
    apply replay_lookup_is_Some; cbn; rewrite lookup_insert_eq; eauto.
Qed.

Lemma replay_is_Some_inv evs : forall (fs : FileSystem) p,
  is_Some (replay evs fs !! p) -> is_Some (fs !! p) \/ p ∈ written_paths evs.
Proof.
  induction evs as [|ev evs IH]; intros fs p Hp; [now left|].
  cbn [replay fold_left] in Hp. fold (replay evs (replay1 fs ev)) in Hp.
  apply IH in Hp as [Hp|Hp].
  - destruct ev; cbn in *; try (now left);
      (rewrite lookup_insert in Hp; case_decide; [subst; right; now left|now left]).
  - right. destruct ev; cbn; try exact Hp; now right.
Qed.

(** ** A second run over a disk that already holds the links *)

Lemma mkdir_written (fs : FileSystem) folder :
  fs !! folder = None -> folder ∈ written_paths (mkdir_events fs folder).
Proof. intros H. unfold mkdir_events. rewrite H. now left. Qed.

Lemma link_events_written l target linkPath :
  (target, linkPath) ∈ l -> EvSymlink target linkPath SymlinkDirectory ∈ map link_event l.
Proof.
  intros H. apply list_elem_of_In. apply (in_map link_event _ (target, linkPath)).
  now apply list_elem_of_In.
Qed.

Section SecondRun.

Variable cfg : RushConfiguration.
Variables fs0 F : FileSystem.
Variable W : string -> Prop.
Hypothesis F_agrees : agree_outside W fs0 F.

Lemma inputs_agree project (fsA : FileSystem) :
  agree_outside W fs0 fsA ->
  (forall q, q ∈ project_inputs cfg project fs0 -> ~ W q) ->
  forall q, q ∈ project_inputs cfg project fs0 -> fsA !! q = fs0 !! q.
Proof. intros Hag Hin q Hq. symmetry. apply Hag, Hin, Hq. Qed.

Lemma linkOne_in_place project rushLinkJson wA rushLinkJson1 wA1 evsP wB :
  linkOne cfg project rushLinkJson wA = (inr rushLinkJson1, wA1) ->
  log wA1 = log wA ++ evsP ->
  agree_outside W fs0 (fs wA) ->
  (forall p, is_Some (fs wA !! p) -> is_Some (F !! p)) ->
  (forall q, q ∈ project_inputs cfg project fs0 -> ~ W q) ->
  (forall p, p ∈ written_paths evsP -> W p /\ is_Some (F !! p)) ->
  (forall t L k, EvSymlink t L k ∈ evsP -> F !! L = Some (FsSymlink t)) ->
  fs wB = F ->
  (exists wB1, linkOne cfg project rushLinkJson wB = (inr rushLinkJson1, wB1)
               /\ fs wB1 = F)
  /\ agree_outside W fs0 (fs wA1)
  /\ (forall p, is_Some (fs wA1 !! p) -> is_Some (F !! p)).
Proof.
  intros H1 Hlog HagA Hdom Hin Hwr Hsym HB.
  apply linkOne_success in H1 as (pj & T & Hs & Hp & Hl1 & Hf1).
  rewrite Hl1 in Hlog. apply app_inv_head in Hlog. subst evsP.
  assert (forall p, p ∈ written_paths (project_events cfg project (fs wA) T) ->
                    W p /\ is_Some (F !! p)) as Hwr'.
  { intros p Hp'. apply Hwr. exact Hp'. }
  assert (forall t L k, EvSymlink t L k ∈ project_events cfg project (fs wA) T ->
                        F !! L = Some (FsSymlink t)) as Hsym'.
  { intros t L k Hev. apply (Hsym t L k). do 2 (apply elem_of_cons; right). exact Hev. }
  pose proof (inputs_agree project (fs wA) HagA Hin) as HinA.
  pose proof (inputs_agree project F F_agrees Hin) as HinF.
  destruct (project_inputs_agree _ _ _ _ HinA) as (HsA & HpA & _).
  destruct (project_inputs_agree _ _ _ _ HinF) as (HsF & HpF & HbF).
  rewrite Hs in HsA. symmetry in HsA.
  assert (agree_outside W fs0 (fs wA1)) as HagA1.
  { rewrite Hf1. apply agree_outside_replay; [exact HagA|]. intros p Hp'. now apply Hwr'. }
  split; [|split; [exact HagA1|]].
  - unfold linkOne. erewrite bind_inr; [|apply console_log_spec].
    destruct (linkProject_in_place cfg project rushLinkJson
                (logged wB (EvConsoleLog (EOL +:+ "LINKING: " +:+ packageName project)))
                pj T rushLinkJson1) as (wB1 & HB1 & HfB1); cbn [fs logged]; rewrite ?HB.
    + now rewrite HsF.
    + rewrite (HpF _ _ HsA), <- (HpA _ _ HsA). exact Hp.
    + destruct (fs wA !! nodeModulesFolder project) eqn:Hnm.
      * apply Hdom. rewrite Hnm. eauto.
      * apply Hwr'. unfold project_events, tree_events. rewrite !written_paths_app.
        do 2 (apply elem_of_app; left). now apply mkdir_written.
    + intros t L HL. apply (Hsym' t L SymlinkDirectory).
      unfold project_events, tree_events. apply elem_of_app. left. apply elem_of_app. right.
      now apply link_events_written.
    + intros Hbin. apply (Hsym' _ _ SymlinkDirectory).
      unfold project_events. apply elem_of_app. right. unfold bin_events.
      assert (existsSync (replay (tree_events project (fs wA) T) (fs wA)) (commonBinFolder cfg)
              = existsSync fs0 (commonBinFolder cfg)) as ->.
      { apply existsSync_agree. intros q Hq. symmetry.
        apply agree_outside_replay with (W := W); [exact HagA| |].
        - intros p Hp'. apply Hwr'. unfold project_events. rewrite written_paths_app.
          apply elem_of_app. now left.
        - apply Hin. unfold project_inputs. apply elem_of_app. right.
          apply elem_of_app. now right. }
      rewrite <- HbF, Hbin. now left.
    + exists wB1. split; [exact HB1|]. now rewrite HfB1.
  - intros p Hp'. rewrite Hf1 in Hp'. apply replay_is_Some_inv in Hp' as [Hp'|Hp'].
    + now apply Hdom.
    + now apply Hwr'.
Qed.

Lemma linkAll_in_place l : forall rushLinkJson wA rushLinkJson' wA' evsSeg wB,
  linkAll cfg l rushLinkJson wA = (inr rushLinkJson', wA') ->
  log wA' = log wA ++ evsSeg ->
  agree_outside W fs0 (fs wA) ->
  (forall p, is_Some (fs wA !! p) -> is_Some (F !! p)) ->
  (forall project, project ∈ l ->
                   forall q, q ∈ project_inputs cfg project fs0 -> ~ W q) ->
  (forall p, p ∈ written_paths evsSeg -> W p /\ is_Some (F !! p)) ->
  (forall t L k, EvSymlink t L k ∈ evsSeg -> F !! L = Some (FsSymlink t)) ->
  fs wB = F ->
  exists wB', linkAll cfg l rushLinkJson wB = (inr rushLinkJson', wB') /\ fs wB' = F.
Proof.
  induction l as [|P l IH]; intros rlj wA rlj' wA' evsSeg wB Hrun Hlog HagA Hdom Hin Hwr Hsym HB.
  - injection Hrun as <- <-. exists wB. split; [reflexivity|exact HB].
  - rewrite linkAll_cons in Hrun. apply bind_inr_inv in Hrun as (rlj1 & wA1 & H1 & Hrest).
    destruct (traced_linkOne cfg P rlj wA) as (evsP & HlP & _).
    rewrite H1 in HlP. cbn [snd] in HlP.
    destruct (traced_linkAll cfg l rlj1 wA1) as (evsRest & HlR & _).
    rewrite Hrest in HlR. cbn [snd] in HlR.
    assert (evsSeg = evsP ++ evsRest) as ->.
    { rewrite HlR, HlP, <- app_assoc in Hlog. now apply app_inv_head in Hlog. }
    destruct (linkOne_in_place P rlj wA rlj1 wA1 evsP wB H1 HlP HagA Hdom)
      as ((wB1 & HB1 & HfB1) & HagA1 & Hdom1); try assumption.
    + apply Hin. now left.
    + intros p Hp. apply Hwr. rewrite written_paths_app. apply elem_of_app. now left.
    + intros t L k Hev. apply (Hsym t L k). apply elem_of_app. now left.
    + destruct (IH rlj1 wA1 rlj' wA' evsRest wB1 Hrest HlR HagA1 Hdom1)
        as (wB' & HB' & HfB'); try assumption.
      * intros Q HQ. apply Hin. now right.
      * intros p Hp. apply Hwr. rewrite written_paths_app. apply elem_of_app. now right.
      * intros t L k Hev. apply (Hsym t L k). apply elem_of_app. now right.
      * exists wB'. split; [|exact HfB'].
        rewrite linkAll_cons. now rewrite (bind_inr _ _ _ _ _ HB1).
Qed.

End SecondRun.

(** ** Two runs on disks that differ in the contents of some files *)

Section Related.

Variable S : list string.

Lemma step_ok_refl w1 w2 : related S w1 w2 -> step_ok S w1 w2 w1 w2.
Proof. intros H. split; [exact H|auto]. Qed.

Lemma step_ok_trans w1 w2 w1' w2' w1'' w2'' :
  step_ok S w1 w2 w1' w2' -> step_ok S w1' w2' w1'' w2'' -> step_ok S w1 w2 w1'' w2''.
Proof. intros [_ H1] [H2 H3]. split; [exact H2|auto]. Qed.

Lemma respects_ret {A : Type} (a : A) : respects S (ret a).
Proof. intros w1 w2 H. split; [reflexivity|now apply step_ok_refl]. Qed.

Lemma respects_throw {A : Type} (e : Error) : respects S (@throw A e).
Proof. intros w1 w2 H. split; [reflexivity|now apply step_ok_refl]. Qed.

(** Two runs of [bind m k], where [m] and then [k] keep the worlds related;
    what [k] needs may depend on the worlds that [m] leaves. *)
Lemma bind_related {A B : Type} (m : M A) (k : A -> M B) w1 w2 :
  fst (m w1) = fst (m w2) ->
  step_ok S w1 w2 (snd (m w1)) (snd (m w2)) ->
  (forall a, fst (m w1) = inr a ->
             fst (k a (snd (m w1))) = fst (k a (snd (m w2)))
             /\ step_ok S (snd (m w1)) (snd (m w2))
                        (snd (k a (snd (m w1)))) (snd (k a (snd (m w2))))) ->
  fst (bind m k w1) = fst (bind m k w2)
  /\ step_ok S w1 w2 (snd (bind m k w1)) (snd (bind m k w2)).
Proof.
  unfold bind. intros Hr Hs Hk.
  destruct (m w1) as [[e1|a1] w1'], (m w2) as [[e2|a2] w2']; cbn [fst snd] in *;
    try discriminate.
  - injection Hr as <-. split; [reflexivity|exact Hs].
  - injection Hr as <-. destruct (Hk a1 eq_refl) as [Hk1 Hk2].
    split; [exact Hk1|]. eapply step_ok_trans; eassumption.
Qed.

Lemma respects_bind {A B : Type} (m : M A) (k : A -> M B) :
  respects S m -> (forall a, respects S (k a)) -> respects S (bind m k).
Proof.
  intros Hm Hk w1 w2 H. destruct (Hm w1 w2 H) as [Hr Hs].
  apply bind_related; [exact Hr|exact Hs|]. intros a _. apply Hk. apply Hs.
Qed.

Lemma respects_foldM {A St : Type} (f : A -> St -> M St) l :
  (forall a s, a ∈ l -> respects S (f a s)) -> forall s, respects S (foldM f l s).
Proof.
  induction l as [|a l IH]; intros Hf s; cbn [foldM].
  - apply respects_ret.
  - apply respects_bind; [apply Hf; now left|]. intros s'. apply IH.
    intros a' s'' Ha. apply Hf. now right.
Qed.

(** *** What the two disks agree on *)

Lemma related_stats w1 w2 p :
  related S w1 w2 -> stats_of <$> (fs w1 !! p) = stats_of <$> (fs w2 !! p).
Proof.
  intros (_ & Hrel & _). destruct (Hrel p) as [->|(_ & [c1 ->] & [c2 ->])]; reflexivity.
Qed.

Lemma related_outside w1 w2 p : related S w1 w2 -> p ∉ S -> fs w1 !! p = fs w2 !! p.
Proof. intros (_ & Hrel & _) Hp. destruct (Hrel p) as [H|[H _]]; [exact H|contradiction]. Qed.

Lemma related_symlink w1 w2 p target :
  related S w1 w2 -> fs w1 !! p = Some (FsSymlink target) -> fs w1 !! p = fs w2 !! p.
Proof.
  intros (_ & Hrel & _) Hp. destruct (Hrel p) as [H|(_ & [c1 Hc] & _)]; [exact H|].
  congruence.
Qed.

Lemma related_stat_is_Some w1 w2 n : forall p,
  related S w1 w2 ->
  is_Some (stat_fuel n (fs w1) p) <-> is_Some (stat_fuel n (fs w2) p).
Proof.
  induction n as [|n IH]; intros p H; pose proof H as (_ & Hrel & _);
    cbn [stat_fuel]; destruct (Hrel p) as [->|(_ & [c1 ->] & [c2 ->])];
    try (split; eauto; fail); try reflexivity.
  destruct (fs w2 !! p) as [[c| |t]|]; try reflexivity. now apply IH.
Qed.

Lemma related_existsSync w1 w2 p :
  related S w1 w2 -> existsSync (fs w1) p = existsSync (fs w2) p.
Proof.
  intros H. unfold existsSync, statSync. apply bool_decide_ext.
  now apply related_stat_is_Some.
Qed.

Lemma related_stat_eq w1 w2 n : forall p,
  related S w1 w2 -> fs w1 !! p = fs w2 !! p ->
  stat_fuel n (fs w1) p = stat_fuel n (fs w2) p.
Proof.
  induction n as [|n IH]; intros p H Hp; pose proof H as (_ & _ & Hun);
    cbn [stat_fuel]; rewrite <- Hp; [reflexivity|].
  destruct (fs w1 !! p) as [[c| |t]|] eqn:Hl; try reflexivity.
  apply IH; [exact H|]. eapply Hun, Hl.
Qed.

Lemma related_stagingManifest cfg project w1 w2 :
  related S w1 w2 -> packageJsonFilename cfg project ∉ S ->
  stagingManifest cfg project (fs w1) = stagingManifest cfg project (fs w2).
Proof.
  intros H Hp. unfold stagingManifest, statSync.
  rewrite (related_stat_eq w1 w2); [reflexivity|exact H|].
  now apply related_outside.
Qed.

Lemma related_linkDependency_result w1 w2 loc d localPackage :
  related S w1 w2 ->
  linkDependency_result (fs w1) loc d localPackage
  = linkDependency_result (fs w2) loc d localPackage.
Proof.
  intros H. unfold linkDependency_result, lstatSync.
  rewrite (related_existsSync w1 w2 _ H).
  pose proof (related_stats w1 w2 (Path.join [loc; d]) H) as Hst.
  destruct (fs w1 !! Path.join [loc; d]) as [e1|], (fs w2 !! Path.join [loc; d]) as [e2|];
    cbn in Hst; try discriminate; [|reflexivity].
  injection Hst as ->. reflexivity.
Qed.

Lemma related_planProject cfg project rushLinkJson w1 w2 pj :
  related S w1 w2 ->
  planProject cfg project rushLinkJson (fs w1) pj
  = planProject cfg project rushLinkJson (fs w2) pj.
Proof.
  intros H. unfold planProject. destruct (List.find _ _); [reflexivity|].
  erewrite foldE_ext; [reflexivity|]. intros d T _.
  now apply related_linkDependency_result.
Qed.

(** *** Events that do not touch the disk *)

Lemma related_logged w1 w2 ev : related S w1 w2 -> step_ok S w1 w2 (logged w1 ev) (logged w2 ev).
Proof.
  intros (Hl & Hrel & Hun). split; [|auto]. split; [|split]; cbn [logged fs log];
    [now rewrite Hl|exact Hrel|exact Hun].
Qed.

Lemma respects_console_log text : respects S (console_log text).
Proof. intros w1 w2 H. split; [reflexivity|]. now apply related_logged. Qed.

Lemma respects_existsSync p : respects S (fsx_existsSync p).
Proof.
  intros w1 w2 H. rewrite !existsSync_spec. cbn [fst snd].
  split; [now rewrite (related_existsSync w1 w2)|now apply step_ok_refl].
Qed.

(** *** Writes *)

(** The same entry written at the same path of both disks. *)
Lemma related_insert w1 w2 q e ev :
  related S w1 w2 ->
  (forall target, e = FsSymlink target ->
                  target = q \/ fs w1 !! target = fs w2 !! target) ->
  step_ok S w1 w2 (mkWorld (<[q := e]> (fs w1)) (log w1 ++ [ev]))
                  (mkWorld (<[q := e]> (fs w2)) (log w2 ++ [ev])).
Proof.
  intros (Hl & Hrel & Hun) He.
  assert (forall p, fs w1 !! p = fs w2 !! p ->
                    <[q := e]> (fs w1) !! p = <[q := e]> (fs w2) !! p) as Hkeep.
  { intros p Hp. rewrite !lookup_insert. case_decide; [reflexivity|exact Hp]. }
  split; [|exact Hkeep]. split; [|split]; cbn [fs log].
  - now rewrite Hl.
  - intros p. rewrite !lookup_insert. case_decide; [now left|apply Hrel].
  - intros p t. rewrite lookup_insert. case_decide as Hq.
    + intros [= ->]. destruct (He t eq_refl) as [->|Ht].
      * now rewrite !lookup_insert_eq.
      * now apply Hkeep.
    + intros Hp. apply Hkeep. eapply Hun, Hp.
Qed.

Lemma respects_ensureFolder folder : respects S (ensureFolder folder).
Proof.
  intros w1 w2 H. rewrite !ensureFolder_spec. cbn [fst snd]. split; [reflexivity|].
  unfold mkdir_events. pose proof (related_stats w1 w2 folder H) as Hst.
  destruct (fs w1 !! folder) as [e1|], (fs w2 !! folder) as [e2|];
    cbn in Hst; try discriminate; cbn [replay fold_left replay1].
  - rewrite !app_nil_r. destruct w1, w2. now apply step_ok_refl.
  - apply related_insert; [exact H|]. discriminate.
Qed.

Lemma respects_JsonFile_save jsonObject jsonFilename :
  respects S (JsonFile_save jsonObject jsonFilename).
Proof.
  intros w1 w2 H. rewrite !JsonFile_save_spec. cbn [fst snd]. split; [reflexivity|].
  apply related_insert; [exact H|]. discriminate.
Qed.

Lemma related_createSymlink target linkPath kind w1 w2 :
  related S w1 w2 ->
  fs w1 !! target = fs w2 !! target ->
  fst (_createSymlink target linkPath kind w1) = fst (_createSymlink target linkPath kind w2)
  /\ step_ok S w1 w2 (snd (_createSymlink target linkPath kind w1))
                     (snd (_createSymlink target linkPath kind w2)).
Proof.
  intros H Ht. rewrite !createSymlink_spec.
  pose proof H as (_ & Hrel & _).
  destruct (Hrel linkPath) as [<-|(_ & [c1 ->] & [c2 ->])].
  - destruct (fs w1 !! linkPath) as [[c| |t]|]; cbn [fst snd];
      (split; [reflexivity|]); try (now apply step_ok_refl);
      (apply related_insert; [exact H|]; intros t' [= <-]; now right).
  - cbn [fst snd]. split; [reflexivity|now apply step_ok_refl].
Qed.

(** The walk over the children of a tree of leaves. *)
Lemma related_walk_leaves l : Forall leaf_link l -> forall w1 w2,
  related S w1 w2 ->
  (forall target linkPath, (target, linkPath) ∈ child_links l ->
                           fs w1 !! target = fs w2 !! target) ->
  fst (forM_ createSymlinksForDependencies l w1)
  = fst (forM_ createSymlinksForDependencies l w2)
  /\ step_ok S w1 w2 (snd (forM_ createSymlinksForDependencies l w1))
                     (snd (forM_ createSymlinksForDependencies l w2)).
Proof.
  induction 1 as [|c l [[target Ht] _] _ IH]; intros w1 w2 H Hlinks.
  - cbn. split; [reflexivity|now apply step_ok_refl].
  - cbn [forM_]. rewrite (child_links_cons _ _ _ Ht) in Hlinks.
    rewrite (createSymlinksForDependencies_leaf _ _ Ht).
    destruct (related_createSymlink target (folderPath c) SymlinkDirectory w1 w2 H)
      as [Hr Hs]; [apply (Hlinks target (folderPath c)); now left|].
    apply bind_related; [exact Hr|exact Hs|]. intros [] _. apply IH; [apply Hs|].
    intros t L HL. apply Hs. apply (Hlinks t L). now right.
Qed.

End Related.

(** ** Two runs of the link manager on related disks *)

Section RelatedRun.

Variable S : list string.
Variable cfg : RushConfiguration.
Hypothesis consulted_outside : forall p, p ∈ consulted cfg -> p ∉ S.

Lemma staging_outside project :
  project ∈ projects cfg -> packageJsonFilename cfg project ∉ S.
Proof.
  intros H. apply consulted_outside. unfold consulted. apply elem_of_cons. right.
  apply list_elem_of_In, in_flat_map. exists project.
  split; [now apply list_elem_of_In|now left].
Qed.

Lemma folder_outside project : project ∈ projects cfg -> projectFolder project ∉ S.
Proof.
  intros H. apply consulted_outside. unfold consulted. apply elem_of_cons. right.
  apply list_elem_of_In, in_flat_map. exists project.
  split; [now apply list_elem_of_In|right; now left].
Qed.

Lemma related_buildLocalPackage project rushLinkJson w1 w2 :
  project ∈ projects cfg -> related S w1 w2 ->
  fst (buildLocalPackage cfg project rushLinkJson w1)
  = fst (buildLocalPackage cfg project rushLinkJson w2)
  /\ step_ok S w1 w2 (snd (buildLocalPackage cfg project rushLinkJson w1))
                     (snd (buildLocalPackage cfg project rushLinkJson w2)).
Proof.
  intros HP H. rewrite !buildLocalPackage_spec. cbn [fst snd].
  rewrite (related_stagingManifest S cfg project w1 w2 H (staging_outside _ HP)).
  split; [|now apply related_logged].
  destruct (stagingManifest cfg project (fs w2)); [|reflexivity].
  now apply related_planProject with (S := S).
Qed.

(** The targets of the planned links hold the same on both disks. *)
Lemma planned_links_agree project rushLinkJson w1 w2 pj localPackage rushLinkJson' :
  related S w1 w2 ->
  planProject cfg project rushLinkJson (fs w1) pj = inr (localPackage, rushLinkJson') ->
  forall target linkPath, (target, linkPath) ∈ links_of localPackage ->
                          fs w1 !! target = fs w2 !! target.
Proof.
  intros H Hp target linkPath Hin.
  apply planProject_inr in Hp as (_ & -> & _ & Hall & _).
  unfold links_of, child_links in Hin. cbn [children] in Hin.
  apply list_elem_of_omap in Hin as (c & Hc & Hl).
  apply elem_of_app in Hc as [Hc|Hc].
  - apply list_elem_of_In, in_flat_map in Hc as (d & _ & Hc).
    destruct (getProjectByName cfg d) as [matched|] eqn:Hm; [|destruct Hc].
    destruct Hc as [<-|[]]. cbn in Hl. injection Hl as <- _.
    apply getProjectByName_Some in Hm as [Hm _].
    apply (related_outside S); [exact H|]. now apply folder_outside, list_elem_of_In.
  - apply list_elem_of_In, in_map_iff in Hc as (d & <- & Hd). cbn in Hl.
    injection Hl as <- _. rewrite Forall_forall in Hall.
    apply list_elem_of_In, Hall, installed_as_symlink_true in Hd as [_ [t Ht]].
    eapply related_symlink; eassumption.
Qed.

Lemma related_linkProject project rushLinkJson w1 w2 :
  project ∈ projects cfg -> related S w1 w2 ->
  fst (_linkProject cfg project rushLinkJson w1)
  = fst (_linkProject cfg project rushLinkJson w2)
  /\ step_ok S w1 w2 (snd (_linkProject cfg project rushLinkJson w1))
                     (snd (_linkProject cfg project rushLinkJson w2)).
Proof.
  intros HP H. unfold _linkProject.
  destruct (related_buildLocalPackage project rushLinkJson w1 w2 HP H) as [Hr Hs].
  apply bind_related; [exact Hr|exact Hs|]. intros [T rlj] Hb. cbn [fst snd].
  rewrite buildLocalPackage_spec in Hb. cbn [fst] in Hb.
  destruct (stagingManifest cfg project (fs w1)) as [pj|]; [|discriminate].
  pose proof (planned_links_agree _ _ _ _ _ _ _ H Hb) as Hlinks.
  destruct (planProject_leaves _ _ _ _ _ _ _ Hb) as (Hleaves & _ & _).
  set (v1 := snd (buildLocalPackage cfg project rushLinkJson w1)) in *.
  set (v2 := snd (buildLocalPackage cfg project rushLinkJson w2)) in *.
  clearbody v1 v2. unfold DEBUG.
  apply bind_related; [reflexivity|apply step_ok_refl, Hs|]. intros [] _. cbn [snd ret].
  assert (fst (_createSymlinksForTopLevelProject T v1)
          = fst (_createSymlinksForTopLevelProject T v2)
          /\ step_ok S v1 v2 (snd (_createSymlinksForTopLevelProject T v1))
                             (snd (_createSymlinksForTopLevelProject T v2))) as [Hr3 Hs3].
  { unfold _createSymlinksForTopLevelProject.
    destruct (respects_ensureFolder S (Path.join [folderPath T; "node_modules"]) v1 v2)
      as [Hr1 Hs1]; [apply Hs|].
    apply bind_related; [exact Hr1|exact Hs1|]. intros [] _.
    apply related_walk_leaves; [exact Hleaves|apply Hs1|].
    intros t L HL. apply Hs1, Hs. eapply Hlinks, HL. }
  apply bind_related; [exact Hr3|exact Hs3|]. intros [] _.
  destruct (respects_existsSync S (Path.join [commonTempFolder cfg; "node_modules"; ".bin"])
              _ _ (proj1 Hs3)) as [Hr4 Hs4].
  apply bind_related; [exact Hr4|exact Hs4|]. intros found _.
  rewrite !existsSync_spec. cbn [snd].
  apply bind_related; [| |intros [] _; apply respects_ret].
  - destruct found; [|reflexivity]. apply related_createSymlink with (S := S); [apply Hs3|].
    apply (related_outside S); [apply Hs3|]. apply consulted_outside. now left.
  - destruct found; [|apply step_ok_refl, Hs3].
    apply related_createSymlink with (S := S); [apply Hs3|].
    apply (related_outside S); [apply Hs3|]. apply consulted_outside. now left.
  - destruct found.
    + apply related_createSymlink with (S := S); [apply Hs3|].
      apply (related_outside S); [apply Hs3|]. apply consulted_outside. now left.
    + apply step_ok_refl, Hs3.
Qed.

Lemma related_linkOne project rushLinkJson w1 w2 :
  project ∈ projects cfg -> related S w1 w2 ->
  fst (linkOne cfg project rushLinkJson w1) = fst (linkOne cfg project rushLinkJson w2)
  /\ step_ok S w1 w2 (snd (linkOne cfg project rushLinkJson w1))
                     (snd (linkOne cfg project rushLinkJson w2)).
Proof.
  intros HP H. unfold linkOne.
  destruct (respects_console_log S (EOL +:+ "LINKING: " +:+ packageName project) w1 w2 H)
    as [Hr Hs].
  apply bind_related; [exact Hr|exact Hs|]. intros [] _.
  apply related_linkProject; [exact HP|apply Hs].
Qed.

Lemma related_linkAll l : (forall project, project ∈ l -> project ∈ projects cfg) ->
  forall rushLinkJson w1 w2, related S w1 w2 ->
  fst (linkAll cfg l rushLinkJson w1) = fst (linkAll cfg l rushLinkJson w2)
  /\ step_ok S w1 w2 (snd (linkAll cfg l rushLinkJson w1))
                     (snd (linkAll cfg l rushLinkJson w2)).
Proof.
  unfold linkAll. induction l as [|P l IH]; intros Hl rlj w1 w2 H; cbn [foldM].
  - split; [reflexivity|now apply step_ok_refl].
  - destruct (related_linkOne P rlj w1 w2) as [Hr Hs]; [apply Hl; now left|exact H|].
    apply bind_related; [exact Hr|exact Hs|]. intros rlj' _.
    apply IH; [|apply Hs]. intros Q HQ. apply Hl. now right.
Qed.

Lemma related_linkProjects w1 w2 :
  related S w1 w2 ->
  fst (_linkProjects cfg w1) = fst (_linkProjects cfg w2)
  /\ step_ok S w1 w2 (snd (_linkProjects cfg w1)) (snd (_linkProjects cfg w2)).
Proof.
  intros H. rewrite !linkProjects_spec.
  destruct (related_linkAll (projects cfg) (fun _ HP => HP) (mkRushLinkJson ∅) w1 w2 H)
    as [Hr Hs].
  destruct (linkAll cfg (projects cfg) _ w1) as [[e1|m1] v1],
           (linkAll cfg (projects cfg) _ w2) as [[e2|m2] v2];
    cbn [fst snd] in *; try discriminate; injection Hr as <-.
  - split; [reflexivity|exact Hs].
  - split; [reflexivity|]. eapply step_ok_trans; [exact Hs|].
    destruct (respects_console_log S
                ("Writing " +:+ dquote +:+ rushLinkJsonFilename cfg +:+ dquote) v1 v2)
      as [_ Hs1]; [apply Hs|].
    rewrite !console_log_spec in Hs1. cbn [snd] in Hs1.
    eapply step_ok_trans; [exact Hs1|].
    destruct (respects_JsonFile_save S m1 (rushLinkJsonFilename cfg) _ _ (proj1 Hs1))
      as [_ Hs2].
    rewrite !JsonFile_save_spec in Hs2. cbn [snd fs log logged] in Hs2.
    unfold writing_message. rewrite <- !app_assoc in Hs2. exact Hs2.
Qed.

End RelatedRun.

(** Two editions of one file, on a disk where no symlink leads to it. *)
Lemma related_editions S fs0 log0 p c1 c2 :
  p ∈ S ->
  map_Forall (fun _ e => leads_to p e = false) fs0 ->
  related S (mkWorld (<[p := FsFile c1]> fs0) log0) (mkWorld (<[p := FsFile c2]> fs0) log0).
Proof.
  intros Hp Hno. split; [reflexivity|]. cbn [fs]. split.
  - intros q. rewrite !lookup_insert. case_decide; [|now left].
    right. split; [now subst|]. split; eexists; reflexivity.
  - intros q t. rewrite !lookup_insert. case_decide; [discriminate|]. intros Hq.
    apply Hno in Hq. cbn in Hq. case_decide; [|reflexivity].
    subst t. now rewrite String.eqb_refl in Hq.
Qed.

Lemma reads_app evs1 evs2 : reads (evs1 ++ evs2) = reads evs1 ++ reads evs2.
Proof.
  induction evs1 as [|ev evs1 IH]; [reflexivity|].
  destruct ev; cbn; now rewrite IH.
Qed.

Lemma reads_link_events cfg l evs p :
  Forall (link_event_of cfg l) evs -> p ∈ reads evs ->
  exists project, project ∈ l /\ p = packageJsonFilename cfg project.
Proof.
  induction 1 as [|ev evs Hev _ IH]; cbn.
  - intros H. now apply elem_of_nil in H.
  - destruct ev; try exact IH. intros [->|H]%elem_of_cons; [exact Hev|now apply IH].
Qed.

(** The node of a regular dependency in the tree of a project. *)
Lemma planProject_dependency cfg project rushLinkJson fs pj localPackage rushLinkJson' d :
  planProject cfg project rushLinkJson fs pj = inr (localPackage, rushLinkJson') ->
  d ∈ dependencyNames pj ->
  depChild (projectFolder project) (pathToLocalInstallation cfg project) d
    ∈ children localPackage.
Proof.
  intros Hp Hd. apply planProject_inr in Hp as (_ & -> & _). cbn [children].
  apply elem_of_app. right. apply list_elem_of_In, in_map. now apply list_elem_of_In.
Qed.

(** ** Strings, [split] and [join] *)

Lemma append_String a s t : String a s +:+ t = String a (s +:+ t).
Proof. reflexivity. Qed.

Lemma append_nil_l t : "" +:+ t = t.
Proof. reflexivity. Qed.

Lemma append_nil_r s : s +:+ "" = s.
Proof. induction s as [|a s IH]; [reflexivity|]. now rewrite append_String, IH. Qed.

Lemma append_assoc s1 s2 s3 : (s1 +:+ s2) +:+ s3 = s1 +:+ (s2 +:+ s3).
Proof. induction s1 as [|a s1 IH]; [reflexivity|]. now rewrite !append_String, IH. Qed.

Lemma append_inv_head s s1 s2 : s +:+ s1 = s +:+ s2 -> s1 = s2.
Proof. induction s as [|a s IH]; [auto|]. rewrite !append_String. intros [= H]. auto. Qed.

Lemma append_length s1 s2 :
  String.length (s1 +:+ s2) = String.length s1 + String.length s2.
Proof.
  induction s1 as [|a s1 IH]; [reflexivity|]. rewrite append_String. cbn [String.length].
  now rewrite IH.
Qed.

Lemma append_inv_tail s : forall s1 s2, s1 +:+ s = s2 +:+ s -> s1 = s2.
Proof.
  induction s1 as [|a s1 IH]; intros [|b s2] H;
    rewrite ?append_String, ?append_nil_l in H.
  - reflexivity.
  - apply (f_equal String.length) in H. cbn [String.length] in H.
    rewrite append_length in H. lia.
  - apply (f_equal String.length) in H. cbn [String.length] in H.
    rewrite append_length in H. lia.
  - injection H as -> H. f_equal. now apply IH.
Qed.

Lemma join_with_cons d x y l :
  Path.join_with d (x :: y :: l) = x +:+ d +:+ Path.join_with d (y :: l).
Proof. reflexivity. Qed.

Lemma join_with_app d l1 l2 :
  l1 <> [] -> l2 <> [] ->
  Path.join_with d (l1 ++ l2) = Path.join_with d l1 +:+ d +:+ Path.join_with d l2.
Proof.
  intros H1 H2. induction l1 as [|x l1 IH]; [contradiction|].
  destruct l1 as [|y l1].
  - destruct l2; [contradiction|]. reflexivity.
  - change ((x :: y :: l1) ++ l2) with (x :: (y :: l1) ++ l2).
    cbn [app]. rewrite !join_with_cons.
    change (y :: l1 ++ l2) with ((y :: l1) ++ l2). rewrite IH by discriminate.
    now rewrite !append_assoc.
Qed.

Lemma split_go_nonempty c s : forall cur, Path.split_go c s cur <> [].
Proof.
  induction s as [|a s IH]; intros cur; cbn; [discriminate|].
  destruct (Ascii.eqb a c); [discriminate|apply IH].
Qed.

Lemma join_split_go c s : forall cur,
  Path.join_with (String c "") (Path.split_go c s cur) = cur +:+ s.
Proof.
  induction s as [|a s IH]; intros cur; cbn [Path.split_go].
  - cbn [Path.join_with]. now rewrite append_nil_r.
  - destruct (Ascii.eqb_spec a c) as [->|Hne].
    + destruct (Path.split_go c s "") as [|y l] eqn:Hs; [now apply split_go_nonempty in Hs|].
      rewrite join_with_cons, <- Hs, IH. reflexivity.
    + rewrite IH, append_assoc. reflexivity.
Qed.

Lemma split_go_app c a b : forall cur,
  Path.split_go c (a +:+ String c b) cur = Path.split_go c a cur ++ Path.split_go c b "".
Proof.
  induction a as [|x a IH]; intros cur;
    rewrite ?append_String, ?append_nil_l; cbn [Path.split_go].
  - now rewrite Ascii.eqb_refl.
  - destruct (Ascii.eqb x c); [cbn [app]; f_equal|]; apply IH.
Qed.

Lemma split_go_sep_free s : forall cur,
  sep_free s = true -> Path.split_go Path.sep s cur = [cur +:+ s].
Proof.
  induction s as [|a s IH]; intros cur; cbn [sep_free Path.split_go].
  - now rewrite append_nil_r.
  - intros [Ha Hs]%andb_true_iff. apply negb_true_iff in Ha. rewrite Ha.
    rewrite IH by exact Hs. now rewrite append_assoc.
Qed.

Lemma split_sep_free s : sep_free s = true -> Path.split Path.sep s = [s].
Proof. apply split_go_sep_free. Qed.

(** *** Plain segments *)

Lemma plain_segment_spec s :
  plain_segment s = true ->
  sep_free s = true /\ String.eqb s "" = false /\ String.eqb s "." = false
  /\ String.eqb s ".." = false.
Proof.
  unfold plain_segment. rewrite !andb_true_iff, !negb_true_iff. tauto.
Qed.

Lemma split_join_plain ps :
  ps <> [] -> Forall (fun p => plain_segment p = true) ps ->
  Path.split Path.sep (Path.join_with "/" ps) = ps.
Proof.
  intros Hne H. induction H as [|p ps Hp Hps IH]; [contradiction|].
  apply plain_segment_spec in Hp as (Hp & _).
  destruct ps as [|q ps]; [now apply split_sep_free|].
  rewrite join_with_cons. unfold Path.split in *.
  change ("/" +:+ Path.join_with "/" (q :: ps)) with (String Path.sep (Path.join_with "/" (q :: ps))).
  rewrite split_go_app, (split_go_sep_free _ _ Hp), IH by discriminate. reflexivity.
Qed.

Lemma normalize_segments_plain b ps : forall acc,
  Forall (fun p => plain_segment p = true) ps ->
  Path.normalize_segments b ps acc = rev acc ++ ps.
Proof.
  induction ps as [|p ps IH]; intros acc H; cbn [Path.normalize_segments].
  - now rewrite app_nil_r.
  - apply Forall_cons in H as [Hp Hps].
    apply plain_segment_spec in Hp as (_ & -> & -> & ->). cbn [orb].
    rewrite IH by exact Hps. cbn [rev]. now rewrite <- app_assoc.
Qed.

Lemma normalize_segments_app_plain b ps l : forall acc,
  Forall (fun p => plain_segment p = true) ps ->
  Path.normalize_segments b (l ++ ps) acc = Path.normalize_segments b l acc ++ ps.
Proof.
  induction l as [|x l IH]; intros acc H.
  - cbn [app Path.normalize_segments]. now apply normalize_segments_plain.
  - cbn [app Path.normalize_segments].
    destruct (String.eqb x "" || String.eqb x "."); [now apply IH|].
    destruct (String.eqb x ".."); [|now apply IH].
    destruct acc as [|y acc]; [destruct b; now apply IH|].
    destruct (String.eqb y ".."); now apply IH.
Qed.

(** ** [path.join] on plain segments *)

Lemma append_eq_nil s t : s +:+ t = "" -> s = "" /\ t = "".
Proof.
  destruct s as [|a s]; [now rewrite append_nil_l|]. rewrite append_String. discriminate.
Qed.

Lemma plain_segment_nonempty p : plain_segment p = true -> p <> "".
Proof. intros (_ & H & _)%plain_segment_spec ->. discriminate H. Qed.

Lemma starts_with_sep_app c x :
  c <> "" -> Path.starts_with_sep (c +:+ x) = Path.starts_with_sep c.
Proof. destruct c as [|a c]; [contradiction|]. reflexivity. Qed.

Lemma sep_free_starts s : sep_free s = true -> Path.starts_with_sep s = false.
Proof.
  destruct s as [|a s]; [reflexivity|]. cbn [sep_free Path.starts_with_sep].
  intros [H _]%andb_true_iff. now apply negb_true_iff in H.
Qed.

Lemma ends_with_sep_app x s :
  s <> "" -> Path.ends_with_sep (x +:+ s) = Path.ends_with_sep s.
Proof.
  intros Hs. induction x as [|a x IH]; [reflexivity|].
  rewrite append_String. cbn [Path.ends_with_sep].
  destruct (x +:+ s) as [|b y] eqn:Hxs; [|exact IH].
  apply append_eq_nil in Hxs as [_ ->]. contradiction.
Qed.

Lemma sep_free_ends s : sep_free s = true -> Path.ends_with_sep s = false.
Proof.
  induction s as [|a s IH]; [reflexivity|]. cbn [sep_free Path.ends_with_sep].
  intros [Ha Hs]%andb_true_iff. destruct s; [now apply negb_true_iff in Ha|auto].
Qed.

Lemma join_plain_nonempty l ps :
  ps <> [] -> Forall (fun p => plain_segment p = true) ps ->
  Path.join_with "/" (l ++ ps) <> "".
Proof.
  intros Hne Hps H. destruct l as [|x l].
  - cbn [app] in H. destruct Hps as [|p ps Hp _]; [contradiction|].
    apply plain_segment_nonempty in Hp. destruct ps; [contradiction|].
    rewrite join_with_cons in H. now apply append_eq_nil in H as [? _].
  - rewrite join_with_app in H by (discriminate || exact Hne).
    apply append_eq_nil in H as [_ H]. discriminate H.
Qed.

Lemma join_plain_ends ps :
  ps <> [] -> Forall (fun p => plain_segment p = true) ps ->
  Path.ends_with_sep (Path.join_with "/" ps) = false.
Proof.
  intros Hne H. induction H as [|p ps Hp Hps IH]; [contradiction|].
  destruct ps as [|q ps].
  - apply sep_free_ends. now apply plain_segment_spec in Hp as (? & _).
  - rewrite join_with_cons, ends_with_sep_app.
    + rewrite ends_with_sep_app; [apply IH; discriminate|].
      apply (join_plain_nonempty [] (q :: ps)); [discriminate|exact Hps].
    + intros H. apply append_eq_nil in H as [H _]. discriminate H.
Qed.

(** Plain segments alone: [join] keeps them as they are. *)
Lemma normalize_plain ps :
  ps <> [] -> Forall (fun p => plain_segment p = true) ps ->
  Path.normalize (Path.join_with "/" ps) = Path.join_with "/" ps.
Proof.
  intros Hne Hps. unfold Path.normalize.
  pose proof (join_plain_nonempty [] ps Hne Hps) as Hbody. cbn [app] in Hbody.
  apply String.eqb_neq in Hbody. rewrite Hbody.
  rewrite (join_plain_ends ps Hne Hps), (split_join_plain ps Hne Hps).
  rewrite (normalize_segments_plain _ ps [] Hps). cbn [rev app]. rewrite Hbody.
  destruct ps as [|p ps]; [contradiction|]. apply Forall_cons in Hps as [Hp _].
  pose proof (plain_segment_nonempty p Hp) as Hp0.
  apply plain_segment_spec in Hp as (Hp & _).
  assert (Path.starts_with_sep (Path.join_with "/" (p :: ps)) = false) as ->; [|reflexivity].
  destruct ps; [now apply sep_free_starts|].
  rewrite join_with_cons, starts_with_sep_app by exact Hp0. now apply sep_free_starts.
Qed.

(** A first argument of any shape, followed by plain segments. *)
Lemma normalize_plain_tail c ps :
  c <> "" -> ps <> [] -> Forall (fun p => plain_segment p = true) ps ->
  Path.normalize (Path.join_with "/" (c :: ps))
  = (if Path.starts_with_sep c then "/" else "")
    +:+ Path.join_with "/"
          (Path.normalize_segments (negb (Path.starts_with_sep c)) (Path.split Path.sep c) []
           ++ ps).
Proof.
  intros Hc Hne Hps. unfold Path.normalize.
  destruct ps as [|q ps]; [contradiction|]. rewrite join_with_cons.
  assert (String.eqb (c +:+ "/" +:+ Path.join_with "/" (q :: ps)) "" = false) as ->.
  { apply String.eqb_neq. intros H. now apply append_eq_nil in H as [? _]. }
  rewrite (starts_with_sep_app c _ Hc).
  assert (Path.ends_with_sep (c +:+ "/" +:+ Path.join_with "/" (q :: ps)) = false) as ->.
  { rewrite ends_with_sep_app.
    - rewrite ends_with_sep_app; [now apply join_plain_ends|].
      apply (join_plain_nonempty [] (q :: ps)); [discriminate|exact Hps].
    - intros H. apply append_eq_nil in H as [H _]. discriminate H. }
  assert (Path.split Path.sep (c +:+ "/" +:+ Path.join_with "/" (q :: ps))
          = Path.split Path.sep c ++ q :: ps) as ->.
  { unfold Path.split.
    change ("/" +:+ Path.join_with "/" (q :: ps))
      with (String Path.sep (Path.join_with "/" (q :: ps))).
    rewrite split_go_app. f_equal. now apply split_join_plain. }
  rewrite (normalize_segments_app_plain _ (q :: ps) _ [] Hps).
  set (st := Path.normalize_segments _ (Path.split Path.sep c) []).
  pose proof (join_plain_nonempty st (q :: ps) Hne Hps) as Hbody.
  apply String.eqb_neq in Hbody. rewrite Hbody.
  destruct (Path.starts_with_sep c); reflexivity.
Qed.

(** Whatever the first argument, the plain segments that follow it are at
    the end of the path, as they stand. *)
Lemma join_plain_tail c :
  exists pre, forall ps,
    ps <> [] -> Forall (fun p => plain_segment p = true) ps ->
    Path.join (c :: ps) = pre +:+ Path.join_with "/" ps.
Proof.
  destruct (decide (c = "")) as [->|Hc].
  - exists "". intros ps Hne Hps. unfold Path.join.
    rewrite filter_cons_False by (intros H; now apply H).
    assert (filter (fun a : string => a ≠ "") ps = ps) as ->.
    { clear Hne. induction Hps as [|p ps Hp _ IH]; [reflexivity|].
      rewrite filter_cons_True by now apply plain_segment_nonempty. now rewrite IH. }
    destruct ps as [|p ps]; [contradiction|].
    rewrite normalize_plain by assumption. reflexivity.
  - set (st := Path.normalize_segments (negb (Path.starts_with_sep c))
                                       (Path.split Path.sep c) []).
    exists ((if Path.starts_with_sep c then "/" else "")
            +:+ match st with [] => "" | _ => Path.join_with "/" st +:+ "/" end).
    intros ps Hne Hps. unfold Path.join.
    rewrite filter_cons_True by exact Hc.
    assert (filter (fun a : string => a ≠ "") ps = ps) as ->.
    { clear Hne. induction Hps as [|p ps Hp _ IH]; [reflexivity|].
      rewrite filter_cons_True by now apply plain_segment_nonempty. now rewrite IH. }
    rewrite normalize_plain_tail by assumption. fold st.
    rewrite append_assoc. f_equal. destruct st as [|x st]; [reflexivity|].
    rewrite join_with_app by (discriminate || exact Hne). now rewrite !append_assoc.
Qed.

(** ** [strict-uri-encode] *)

Lemma uriEncode_app s1 s2 :
  UriEncode.uriEncode (s1 +:+ s2) = UriEncode.uriEncode s1 +:+ UriEncode.uriEncode s2.
Proof.
  induction s1 as [|a s1 IH]; [reflexivity|].
  rewrite append_String. cbn [UriEncode.uriEncode]. now rewrite IH, append_assoc.
Qed.

Lemma hex_digit_code n :
  n < 16 -> nat_of_ascii (UriEncode.hex_digit n) = if Nat.ltb n 10 then 48 + n else 55 + n.
Proof.
  intros H. unfold UriEncode.hex_digit.
  destruct (Nat.ltb n 10); apply nat_ascii_embedding; lia.
Qed.

Lemma hex_digit_inj n m :
  n < 16 -> m < 16 -> UriEncode.hex_digit n = UriEncode.hex_digit m -> n = m.
Proof.
  intros Hn Hm H. apply (f_equal nat_of_ascii) in H.
  rewrite !hex_digit_code in H by assumption.
  destruct (Nat.ltb_spec n 10), (Nat.ltb_spec m 10); lia.
Qed.

Lemma hex_digit_unreserved n : n < 16 -> UriEncode.is_unreserved (UriEncode.hex_digit n) = true.
Proof.
  intros H. unfold UriEncode.is_unreserved. rewrite hex_digit_code by exact H.
  destruct (Nat.ltb_spec n 10).
  - assert (Nat.leb 48 (48 + n) = true) as -> by (apply Nat.leb_le; lia).
    assert (Nat.leb (48 + n) 57 = true) as -> by (apply Nat.leb_le; lia). reflexivity.
  - assert (Nat.leb 65 (55 + n) = true) as -> by (apply Nat.leb_le; lia).
    assert (Nat.leb (55 + n) 90 = true) as -> by (apply Nat.leb_le; lia).
    now rewrite orb_true_r.
Qed.

Lemma unreserved_not_sep a : UriEncode.is_unreserved a = true -> Ascii.eqb a Path.sep = false.
Proof.
  intros H. apply Ascii.eqb_neq. intros ->. discriminate H.
Qed.

Lemma ascii_code_inj a b : nat_of_ascii a = nat_of_ascii b -> a = b.
Proof.
  intros H. rewrite <- (ascii_nat_embedding a), <- (ascii_nat_embedding b). now rewrite H.
Qed.

Lemma percent_app_inj a b x y :
  UriEncode.percent a +:+ x = UriEncode.percent b +:+ y -> a = b /\ x = y.
Proof.
  unfold UriEncode.percent.
  pose proof (nat_ascii_bounded a) as Ha. pose proof (nat_ascii_bounded b) as Hb.
  remember (nat_of_ascii a / 16) as qa eqn:Hqa.
  remember (nat_of_ascii a mod 16) as ra eqn:Hra.
  remember (nat_of_ascii b / 16) as qb eqn:Hqb.
  remember (nat_of_ascii b mod 16) as rb eqn:Hrb.
  rewrite !append_String, !append_nil_l. intros H. injection H as H1 H2 H.
  assert (qa < 16) by (subst qa; apply Nat.Div0.div_lt_upper_bound; lia).
  assert (qb < 16) by (subst qb; apply Nat.Div0.div_lt_upper_bound; lia).
  assert (ra < 16) by (subst ra; apply Nat.mod_upper_bound; lia).
  assert (rb < 16) by (subst rb; apply Nat.mod_upper_bound; lia).
  apply hex_digit_inj in H1; [|assumption..].
  apply hex_digit_inj in H2; [|assumption..].
  split; [|exact H]. apply ascii_code_inj.
  rewrite (Nat.div_mod_eq (nat_of_ascii a) 16), (Nat.div_mod_eq (nat_of_ascii b) 16).
  rewrite <- Hqa, <- Hra, <- Hqb, <- Hrb. now rewrite H1, H2.
Qed.

Lemma percent_head a x : exists t, UriEncode.percent a +:+ x = String "%" t.
Proof. eexists. unfold UriEncode.percent. rewrite append_String. reflexivity. Qed.

Lemma uriEncode_cons a s :
  UriEncode.uriEncode (String a s)
  = if UriEncode.is_unreserved a then String a (UriEncode.uriEncode s)
    else UriEncode.percent a +:+ UriEncode.uriEncode s.
Proof. cbn [UriEncode.uriEncode]. destruct (UriEncode.is_unreserved a); reflexivity. Qed.

Lemma uriEncode_inj : forall s1 s2,
  UriEncode.uriEncode s1 = UriEncode.uriEncode s2 -> s1 = s2.
Proof.
  induction s1 as [|a s1 IH]; intros [|b s2]; rewrite ?uriEncode_cons.
  - reflexivity.
  - destruct (UriEncode.is_unreserved b); [discriminate|].
    destruct (percent_head b (UriEncode.uriEncode s2)) as [t ->]. discriminate.
  - destruct (UriEncode.is_unreserved a); [discriminate|].
    destruct (percent_head a (UriEncode.uriEncode s1)) as [t ->]. discriminate.
  - destruct (UriEncode.is_unreserved a) eqn:Ha, (UriEncode.is_unreserved b) eqn:Hb.
    + intros [= -> H]. f_equal. now apply IH.
    + destruct (percent_head b (UriEncode.uriEncode s2)) as [t ->].
      intros [= -> _]. discriminate Ha.
    + destruct (percent_head a (UriEncode.uriEncode s1)) as [t ->].
      intros [= <- _]. discriminate Hb.
    + intros [-> H]%percent_app_inj. f_equal. now apply IH.
Qed.

Lemma percent_sep_free a x : sep_free (UriEncode.percent a +:+ x) = sep_free x.
Proof.
  unfold UriEncode.percent. pose proof (nat_ascii_bounded a) as Ha.
  rewrite !append_String, append_nil_l. cbn [sep_free].
  change (Ascii.eqb "%" Path.sep) with false.
  rewrite (unreserved_not_sep (UriEncode.hex_digit (nat_of_ascii a / 16))),
          (unreserved_not_sep (UriEncode.hex_digit (nat_of_ascii a mod 16)));
    [reflexivity|apply hex_digit_unreserved..].
  - apply Nat.mod_upper_bound; lia.
  - apply Nat.Div0.div_lt_upper_bound; lia.
Qed.

Lemma uriEncode_sep_free s : sep_free (UriEncode.uriEncode s) = true.
Proof.
  induction s as [|a s IH]; [reflexivity|]. rewrite uriEncode_cons.
  destruct (UriEncode.is_unreserved a) eqn:Hu.
  - cbn [sep_free]. now rewrite IH, (unreserved_not_sep a Hu).
  - now rewrite percent_sep_free.
Qed.

Lemma uriEncode_length s : String.length s <= String.length (UriEncode.uriEncode s).
Proof.
  induction s as [|a s IH]; [reflexivity|]. rewrite uriEncode_cons.
  destruct (UriEncode.is_unreserved a); [cbn [String.length]; lia|].
  rewrite append_length. unfold UriEncode.percent. cbn [String.length]. lia.
Qed.

(** ** The folders of a project under the common temporary folder *)

Lemma sep_free_app s t : sep_free (s +:+ t) = sep_free s && sep_free t.
Proof.
  induction s as [|a s IH]; [reflexivity|]. rewrite append_String. cbn [sep_free].
  now rewrite IH, andb_assoc.
Qed.

Lemma long_segment_plain s :
  3 <= String.length s -> sep_free s = true -> plain_segment s = true.
Proof.
  intros Hlen Hs. unfold plain_segment. rewrite Hs.
  assert (forall t, String.length t < 3 -> String.eqb s t = false) as Hne.
  { intros t Ht. apply String.eqb_neq. intros ->. lia. }
  rewrite !Hne by (cbn; lia). reflexivity.
Qed.

Lemma tarball_name_plain n : sep_free n = true -> plain_segment (n +:+ ".tgz") = true.
Proof.
  intros Hn. apply long_segment_plain.
  - rewrite append_length. cbn. lia.
  - now rewrite sep_free_app, Hn.
Qed.

Lemma join_split s : Path.join_with "/" (Path.split Path.sep s) = s.
Proof. unfold Path.split. apply (join_split_go Path.sep). Qed.

(** The shape of the local installation folder: what comes before the
    name of the project depends on the common temporary folder alone. *)
Lemma pathToLocalInstallation_shape cfg :
  exists pre, forall project,
    sep_free (unscopedTempProjectName project) = true ->
    pathToLocalInstallation cfg project
    = pre +:+ "node_modules/.local/"
          +:+ UriEncode.uriEncode (pre +:+ "projects/"
                                       +:+ unscopedTempProjectName project +:+ ".tgz")
          +:+ "/node_modules".
Proof.
  destruct (join_plain_tail (commonTempFolder cfg)) as [pre Hpre]. exists pre.
  intros project Hn. unfold pathToLocalInstallation. cbv zeta. rewrite join_split.
  pose proof (tarball_name_plain _ Hn) as Ht.
  rewrite (Hpre ["projects"; unscopedTempProjectName project +:+ ".tgz"]);
    [|discriminate|repeat constructor; exact Ht].
  cbn [Path.join_with].
  set (tgz := pre +:+ "projects" +:+ "/" +:+ unscopedTempProjectName project +:+ ".tgz").
  assert (plain_segment (UriEncode.uriEncode tgz) = true) as He.
  { apply long_segment_plain; [|apply uriEncode_sep_free].
    etransitivity; [|apply uriEncode_length]. unfold tgz.
    rewrite !append_length. cbn. lia. }
  rewrite (Hpre [RushConstants.nodeModulesFolderName; ".local"; UriEncode.uriEncode tgz;
                 RushConstants.nodeModulesFolderName]);
    [|discriminate|repeat constructor; exact He].
  cbn [Path.join_with]. unfold RushConstants.nodeModulesFolderName, tgz.
  repeat (rewrite append_String || rewrite append_nil_l). reflexivity.
Qed.

Lemma all_unreserved_fixed s : all_unreserved s = true <-> UriEncode.uriEncode s = s.
Proof.
  induction s as [|a s IH]; [easy|]. rewrite uriEncode_cons. cbn [all_unreserved].
  destruct (UriEncode.is_unreserved a) eqn:Ha; cbn [andb].
  - rewrite IH. split; [now intros ->|now intros [= ->]].
  - split; [discriminate|]. intros H. apply (f_equal String.length) in H.
    rewrite append_length in H. unfold UriEncode.percent in H. cbn [String.length] in H.
    pose proof (uriEncode_length s). lia.
Qed.

Lemma uriEncode_alphabet s :
  Forall (fun a => UriEncode.is_unreserved a = true \/ a = "%"%char)
         (list_ascii_of_string (UriEncode.uriEncode s)).
Proof.
  induction s as [|a s IH]; [constructor|]. rewrite uriEncode_cons.
  pose proof (nat_ascii_bounded a) as Hb.
  destruct (UriEncode.is_unreserved a) eqn:Ha.
  - cbn [list_ascii_of_string]. constructor; [now left|exact IH].
  - unfold UriEncode.percent. rewrite !append_String, append_nil_l.
    cbn [list_ascii_of_string]. constructor; [now right|].
    constructor; [left; apply hex_digit_unreserved, Nat.Div0.div_lt_upper_bound; lia|].
    constructor; [left; apply hex_digit_unreserved, Nat.mod_upper_bound; lia|exact IH].
Qed.


(** ** When the tree of a project can be built *)

Lemma dep_loop_ok fs loc deps : forall localPackage,
  Forall (fun d => installed_as_symlink fs (Path.join [loc; d]) = true) deps ->
  NoDup deps ->
  (forall d, d ∈ deps -> d ∉ child_names localPackage) ->
  foldE (linkDependency_result fs loc) deps localPackage
  = inr (with_children localPackage
           (children localPackage ++ map (depChild (folderPath localPackage) loc) deps)).
Proof.
  induction deps as [|d deps IH]; intros T Hall Hnd Hnot; cbn [foldE map].
  - rewrite app_nil_r. now destruct T.
  - apply Forall_cons in Hall as [Hd Hall]. apply NoDup_cons in Hnd as [Hd' Hnd].
    rewrite (linkDependency_result_ok _ _ _ _ Hd).
    rewrite bool_decide_eq_false_2 by (apply Hnot; now left).
    rewrite IH; [| exact Hall | exact Hnd |].
    + unfold with_children, children_push. cbn. now rewrite <- app_assoc.
    + intros d0 Hd0. unfold child_names, children_push. cbn [children].
      rewrite map_app. cbn [map depChild name]. intros [H|H]%elem_of_app.
      * apply (Hnot d0); [now right|exact H].
      * apply list_elem_of_singleton in H. subst d0. contradiction.
Qed.

Lemma planProject_ok cfg project rushLinkJson fs pj :
  push_fails cfg rushLinkJson (localName project) (rushDependencyNames pj) = false ->
  Forall (fun d => known cfg d = true) (rushDependencyNames pj) ->
  Forall (fun d => installed_as_symlink fs
                     (Path.join [pathToLocalInstallation cfg project; d]) = true)
         (dependencyNames pj) ->
  (forall d, d ∈ dependencyNames pj -> d ∉ rushDependencyNames pj) ->
  exists localPackage,
    planProject cfg project rushLinkJson fs pj
    = inr (localPackage,
           record_links (localName project) (rushDependencyNames pj) rushLinkJson).
Proof.
  intros Hp Hk Hi Hd. unfold planProject. fold (localName project). rewrite Hp.
  rewrite (proj2 (find_unknown_None cfg _) Hk).
  rewrite dep_loop_ok; [eexists; reflexivity|exact Hi|apply Object_keys_NoDup|].
  unfold child_names, with_children. cbn [children].
  now rewrite (rushChildren_names _ _ _ Hk).
Qed.

Lemma foldE_inl {A S : Type} (f : A -> S -> Error + S) l : forall s e,
  foldE f l s = inl e -> exists a s', a ∈ l /\ f a s' = inl e.
Proof.
  induction l as [|a l IH]; intros s e; cbn [foldE]; [discriminate|].
  destruct (f a s) as [e'|s'] eqn:Hf.
  - intros [= <-]. exists a, s. split; [now left|exact Hf].
  - intros H. apply IH in H as (a' & s'' & Ha & H). exists a', s''. split; [now right|exact H].
Qed.

Lemma linkDependency_result_error fs loc d localPackage e :
  linkDependency_result fs loc d localPackage = inl e -> validation_error e.
Proof.
  destruct (installed_as_symlink fs (Path.join [loc; d])) eqn:Hi.
  - rewrite (linkDependency_result_ok _ _ _ _ Hi). case_bool_decide; [|discriminate].
    now intros [= <-].
  - destruct (linkDependency_result_bad _ _ _ localPackage Hi) as (why & -> & _).
    now intros [= <-].
Qed.

Lemma planProject_error cfg project rushLinkJson fs pj e :
  planProject cfg project rushLinkJson fs pj = inl e -> validation_error e.
Proof.
  unfold planProject. destruct (push_fails _ _ _ _); [now intros [= <-]|].
  destruct (List.find _ _); [now intros [= <-]|].
  destruct (foldE _ _ _) as [e'|T] eqn:Hf; [|discriminate]. intros [= <-].
  apply foldE_inl in Hf as (d & T & _ & Hf). eapply linkDependency_result_error, Hf.
Qed.

(** ** The events of a project, whatever the outcome *)

Lemma is_link_write_quiet evs :
  Forall is_link_write evs -> console_texts evs = [] /\ reads evs = [] /\ saves evs = [].
Proof.
  induction 1 as [|ev evs Hev _ IH]; [auto|]. destruct ev; cbn in *; tauto.
Qed.

Lemma linkProject_log cfg project rushLinkJson w :
  exists evs,
    log (snd (_linkProject cfg project rushLinkJson w))
    = log w ++ EvReadJson (packageJsonFilename cfg project) :: evs
    /\ Forall is_link_write evs.
Proof.
  unfold _linkProject, bind at 1. rewrite buildLocalPackage_spec.
  match goal with
  | |- context [match ?r with Some _ => _ | None => _ end] => destruct r as [pj|]
  end.
  2:{ exists []. split; [reflexivity|constructor]. }
  destruct (planProject cfg project rushLinkJson (fs w) pj) as [e|[T rlj]].
  { exists []. split; [reflexivity|constructor]. }
  cbn [fst snd]. unfold DEBUG.
  match goal with
  | |- context [snd (?c ?v)] =>
      assert (traced is_link_write c) as Ht
  end.
  { apply traced_bind; [apply traced_ret|]. intros _.
    apply traced_bind;
      [apply traced_createSymlinksForTopLevelProject; intros; exact I|]. intros _.
    apply traced_bind; [apply traced_existsSync|]. intros found.
    apply traced_bind; [|intros _; apply traced_ret].
    destruct found; [apply traced_createSymlink; intros; exact I|apply traced_ret]. }
  match goal with
  | |- context [snd (?c ?v)] => destruct (Ht v) as (evs & Hl & _ & Hq)
  end.
  exists evs. split; [|exact Hq]. rewrite Hl. cbn [log]. list_eq.
Qed.

Lemma console_texts_app evs1 evs2 :
  console_texts (evs1 ++ evs2) = console_texts evs1 ++ console_texts evs2.
Proof.
  induction evs1 as [|ev evs1 IH]; [reflexivity|].
  destruct ev; cbn; rewrite ?IH; reflexivity.
Qed.

(** The loop announces and reads the projects one by one, up to the one
    that fails. *)
Lemma linkAll_log cfg l : forall rushLinkJson w,
  exists evs attempted,
    log (snd (linkAll cfg l rushLinkJson w)) = log w ++ evs
    /\ reads evs = map (packageJsonFilename cfg) attempted
    /\ console_texts evs = map linking_text attempted
    /\ saves evs = []
    /\ match fst (linkAll cfg l rushLinkJson w) with
       | inr _ => attempted = l
       | inl _ => exists project post, l = attempted ++ post
                                       /\ last attempted = Some project
       end.
Proof.
  induction l as [|P l IH]; intros rlj w.
  - exists [], []. cbn. rewrite app_nil_r. auto.
  - rewrite linkAll_cons. unfold linkOne, bind. rewrite console_log_spec.
    destruct (linkProject_log cfg P rlj (logged w (EvConsoleLog (EOL +:+ "LINKING: "
                                                               +:+ packageName P))))
      as (evsP & HlP & HqP).
    destruct (is_link_write_quiet _ HqP) as (Hc & Hr & Hs).
    destruct (_linkProject cfg P rlj _) as [[e|rlj1] w1]; cbn [fst snd log logged] in *.
    + exists (EvConsoleLog (linking_text P) :: EvReadJson (packageJsonFilename cfg P) :: evsP),
        [P].
      split; [rewrite HlP; unfold linking_text; list_eq|].
      cbn [reads console_texts saves map]. rewrite Hc, Hr, Hs.
      split_all; try reflexivity. exists P, l. split; reflexivity.
    + destruct (IH rlj1 w1) as (evs & att & Hl & Hrd & Hct & Hsv & Hm).
      exists (EvConsoleLog (linking_text P) :: EvReadJson (packageJsonFilename cfg P)
                :: evsP ++ evs), (P :: att).
      split; [rewrite Hl, HlP; unfold linking_text; list_eq|].
      cbn [reads console_texts saves map].
      rewrite reads_app, console_texts_app, saves_app, Hc, Hr, Hs, Hrd, Hct, Hsv.
      split_all; try reflexivity.
      destruct (fst (linkAll cfg l rlj1 w1)); [|now subst].
      destruct Hm as (Q & post & -> & Hlast). exists Q, post. split; [reflexivity|].
      destruct att; [discriminate Hlast|exact Hlast].
Qed.

(** ** The link manifest names projects of the configuration only *)

Lemma record_links_ok cfg project keys rushLinkJson :
  project ∈ projects cfg ->
  Forall (fun d => known cfg d = true) keys ->
  manifest_ok cfg rushLinkJson ->
  manifest_ok cfg (record_links (localName project) keys rushLinkJson).
Proof.
  intros HP Hk Hok. destruct keys as [|k keys]; [exact Hok|].
  intros n l. cbn [record_links localLinks]. rewrite lookup_insert. case_decide as Hn.
  - intros [= <-]. subst n. split; [|split].
    + destruct (default [] _); discriminate.
    + now exists project.
    + apply Forall_app. split.
      * destruct (localLinks rushLinkJson !! localName project) as [l0|] eqn:Hl0;
          [apply (Hok _ _ Hl0)|constructor].
      * eapply Forall_impl; [exact Hk|]. intros d. apply known_true.
  - apply Hok.
Qed.

Lemma linkAll_manifest_ok cfg l : forall rushLinkJson w rushLinkJson' w',
  (forall project, project ∈ l -> project ∈ projects cfg) ->
  manifest_ok cfg rushLinkJson ->
  linkAll cfg l rushLinkJson w = (inr rushLinkJson', w') ->
  manifest_ok cfg rushLinkJson'.
Proof.
  induction l as [|P l IH]; intros rlj w rlj' w' Hl Hok.
  - now intros [= <- _].
  - rewrite linkAll_cons. intros H. apply bind_inr_inv in H as (rlj1 & w1 & H1 & H).
    apply linkOne_inr in H1 as (pj & T & _ & Hp).
    apply planProject_inr in Hp as (Hk & _ & -> & _).
    eapply IH; [|apply record_links_ok|exact H]; auto.
    + intros Q HQ. apply Hl. now right.
    + apply Hl. now left.
Qed.

(** ** Lines of the console *)

Lemma prefix_append p x : String.prefix p (p +:+ x) = true.
Proof.
  induction p as [|a p IH]; [now destruct x|]. rewrite append_String. cbn [String.prefix].
  destruct (ascii_dec a a); [exact IH|contradiction].
Qed.

Lemma linking_text_line project : linking_line (linking_text project) = true.
Proof.
  unfold linking_line, linking_text. rewrite <- append_assoc. apply prefix_append.
Qed.

Lemma linking_lines_all l :
  filter (fun text => linking_line text = true) (map linking_text l) = map linking_text l.
Proof.
  induction l as [|P l IH]; [reflexivity|]. cbn [map].
  rewrite filter_cons_True by apply linking_text_line. now rewrite IH.
Qed.

Lemma writing_text_not_linking cfg l : writing_text cfg ∉ map linking_text l.
Proof.
  intros H. apply list_elem_of_In, in_map_iff in H as (P & H & _).
  unfold linking_text, writing_text, EOL in H.
  rewrite !append_String in H. discriminate H.
Qed.

(** ** When line 96 cannot throw *)

Lemma push_cannot_fail cfg rushLinkJson n keys :
  keys = [] \/ is_Some (localLinks rushLinkJson !! n) \/ n ∉ Object_prototype_names ->
  push_fails cfg rushLinkJson n keys = false.
Proof.
  intros H. destruct keys as [|d keys]; [reflexivity|]. cbn [push_fails].
  destruct H as [Hnil|[[l Hl]|Hn]]; [discriminate Hnil| |].
  - rewrite Hl, (bool_decide_eq_false_2 (Some l = None)) by discriminate.
    now rewrite andb_false_r.
  - rewrite (bool_decide_eq_false_2 _ Hn). now rewrite andb_false_r.
Qed.

Lemma push_guarded cfg rushLinkJson n keys :
  (forall d1 rest, keys = d1 :: rest ->
                   is_Some (getProjectByName cfg d1) ->
                   is_Some (localLinks rushLinkJson !! n) \/ n ∉ Object_prototype_names) ->
  push_fails cfg rushLinkJson n keys = false.
Proof.
  intros H. destruct keys as [|d keys]; [reflexivity|].
  destruct (known cfg d) eqn:Hk; [|cbn [push_fails]; now rewrite Hk].
  apply push_cannot_fail. right. apply (H d keys eq_refl). now apply known_true.
Qed.

(** ** [normalize] returns a normal path *)

Lemma sep_free_snoc cur a :
  sep_free cur = true -> Ascii.eqb a Path.sep = false ->
  sep_free (cur +:+ String a "") = true.
Proof. intros H1 H2. rewrite sep_free_app, H1. cbn [sep_free]. now rewrite H2. Qed.

Lemma split_go_sep_free_elems s : forall cur,
  sep_free cur = true -> Forall (fun x => sep_free x = true) (Path.split_go Path.sep s cur).
Proof.
  induction s as [|a s IH]; intros cur Hc; cbn [Path.split_go].
  - now constructor.
  - destruct (Ascii.eqb a Path.sep) eqn:Ha.
    + constructor; [exact Hc|now apply IH].
    + now apply IH, sep_free_snoc.
Qed.

Lemma split_sep_free_elems s : Forall (fun x => sep_free x = true) (Path.split Path.sep s).
Proof. now apply split_go_sep_free_elems. Qed.

Lemma split_join_sep_free st :
  st <> [] -> Forall (fun x => sep_free x = true) st ->
  Path.split Path.sep (Path.join_with "/" st) = st.
Proof.
  intros Hne H. induction H as [|p ps Hp Hps IH]; [contradiction|].
  destruct ps as [|q ps]; [now apply split_sep_free|].
  rewrite join_with_cons. unfold Path.split in *.
  change ("/" +:+ Path.join_with "/" (q :: ps))
    with (String Path.sep (Path.join_with "/" (q :: ps))).
  rewrite split_go_app, (split_go_sep_free _ _ Hp), IH by discriminate. reflexivity.
Qed.

Lemma split_leading x : Path.split Path.sep ("/" +:+ x) = "" :: Path.split Path.sep x.
Proof. reflexivity. Qed.

Lemma split_trailing x : Path.split Path.sep (x +:+ "/") = Path.split Path.sep x ++ [""].
Proof.
  unfold Path.split. change "/" with (String Path.sep ""). now rewrite split_go_app.
Qed.

Lemma split_slash a b :
  Path.split Path.sep (a +:+ "/" +:+ b) = Path.split Path.sep a ++ Path.split Path.sep b.
Proof.
  unfold Path.split. change ("/" +:+ b) with (String Path.sep b). apply split_go_app.
Qed.

(** [normalizeString] is a fold over the segments. *)
Lemma normalize_segments_app b l1 l2 : forall acc,
  Path.normalize_segments b (l1 ++ l2) acc
  = Path.normalize_segments b l2 (rev (Path.normalize_segments b l1 acc)).
Proof.
  induction l1 as [|x l1 IH]; intros acc; cbn [app Path.normalize_segments].
  - now rewrite rev_involutive.
  - destruct (String.eqb x "" || String.eqb x "."); [apply IH|].
    destruct (String.eqb x ".."); [|apply IH].
    destruct acc as [|y acc]; [destruct b; apply IH|].
    destruct (String.eqb y ".."); apply IH.
Qed.

Lemma normalize_segments_empty_tail b l acc :
  Path.normalize_segments b (l ++ [""]) acc = Path.normalize_segments b l acc.
Proof. rewrite normalize_segments_app. cbn. apply rev_involutive. Qed.

(** The stack holds plain segments on top of [..] segments, and the latter
    only for a relative path. *)
Lemma normalize_segments_shape b l : forall ps ds,
  Forall (fun p => plain_segment p = true) ps ->
  Forall (fun d => d = "..") ds ->
  (b = false -> ds = []) ->
  Forall (fun x => sep_free x = true) l ->
  exists dots plains,
    Path.normalize_segments b l (ps ++ ds) = dots ++ plains
    /\ Forall (fun d => d = "..") dots
    /\ Forall (fun p => plain_segment p = true) plains
    /\ (b = false -> dots = []).
Proof.
  induction l as [|x l IH]; intros ps ds Hps Hds Hb Hl.
  - exists (rev ds), (rev ps). cbn [Path.normalize_segments]. rewrite rev_app_distr.
    split_all; [reflexivity|now apply Forall_rev|now apply Forall_rev|].
    intros H. now rewrite (Hb H).
  - apply Forall_cons in Hl as [Hx Hl]. cbn [Path.normalize_segments].
    destruct (String.eqb x "" || String.eqb x ".") eqn:H1; [now apply IH|].
    destruct (String.eqb x "..") eqn:H2.
    + destruct ps as [|p ps].
      * cbn [app]. destruct ds as [|d ds].
        -- destruct b.
           ++ apply (IH [] [".."]); auto. discriminate.
           ++ apply (IH [] []); auto.
        -- pose proof Hds as Hds'. apply Forall_cons in Hds' as [-> _].
           cbn [String.eqb Ascii.eqb Bool.eqb]. change (String.eqb ".." "..") with true.
           cbv iota. apply (IH [] (".." :: ".." :: ds)); auto.
           intros H. now specialize (Hb H).
      * cbn [app]. apply Forall_cons in Hps as [Hp Hps].
        apply plain_segment_spec in Hp as (_ & _ & _ & ->). now apply IH.
    + apply orb_false_iff in H1 as [H0 H1].
      change (x :: ps ++ ds) with ((x :: ps) ++ ds). apply IH; auto.
      constructor; [|exact Hps]. unfold plain_segment. now rewrite Hx, H0, H1, H2.
Qed.

Lemma normalize_segments_dots b dots rest : forall acc,
  Forall (fun d => d = "..") dots -> Forall (fun d => d = "..") acc ->
  (b = false -> dots = []) ->
  Path.normalize_segments b (dots ++ rest) acc
  = Path.normalize_segments b rest (rev dots ++ acc).
Proof.
  induction dots as [|d dots IH]; intros acc Hd Ha Hb; [reflexivity|].
  apply Forall_cons in Hd as [-> Hd]. cbn [app Path.normalize_segments].
  change (String.eqb ".." "" || String.eqb ".." ".") with false.
  change (String.eqb ".." "..") with true. cbv iota.
  assert (b = true) as -> by (destruct b; [reflexivity|now specialize (Hb eq_refl)]).
  destruct acc as [|a acc].
  - rewrite IH; [|exact Hd|now constructor|discriminate].
    cbn [rev]. now rewrite <- app_assoc.
  - pose proof Ha as Ha'. apply Forall_cons in Ha' as [-> _].
    change (String.eqb ".." "..") with true. cbv iota.
    rewrite IH; [|exact Hd|now constructor|discriminate].
    cbn [rev]. now rewrite <- app_assoc.
Qed.

(** A normal list of segments is left as it is. *)
Lemma normalize_segments_fixed b dots plains :
  Forall (fun d => d = "..") dots ->
  Forall (fun p => plain_segment p = true) plains ->
  (b = false -> dots = []) ->
  Path.normalize_segments b (dots ++ plains) [] = dots ++ plains.
Proof.
  intros Hd Hp Hb. rewrite normalize_segments_dots by (auto || constructor).
  rewrite normalize_segments_plain by exact Hp.
  now rewrite app_nil_r, rev_involutive.
Qed.

(** *** Segments that are not empty and hold no separator *)

Lemma normal_segments_ok dots plains :
  Forall (fun d => d = "..") dots ->
  Forall (fun p => plain_segment p = true) plains ->
  Forall (fun x => sep_free x = true /\ x <> "") (dots ++ plains).
Proof.
  intros Hd Hp. apply Forall_app. split.
  - eapply Forall_impl; [exact Hd|]. intros d ->. split; [reflexivity|discriminate].
  - eapply Forall_impl; [exact Hp|]. intros p H. split.
    + now apply plain_segment_spec in H as (? & _).
    + now apply plain_segment_nonempty.
Qed.

Lemma join_segments_nonempty st :
  st <> [] -> Forall (fun x => sep_free x = true /\ x <> "") st ->
  Path.join_with "/" st <> "".
Proof.
  intros Hne H Hj. destruct H as [|x st [_ Hx] _]; [contradiction|].
  destruct st; [contradiction|]. rewrite join_with_cons in Hj.
  now apply append_eq_nil in Hj as [? _].
Qed.

Lemma join_segments_starts st :
  st <> [] -> Forall (fun x => sep_free x = true /\ x <> "") st ->
  Path.starts_with_sep (Path.join_with "/" st) = false.
Proof.
  intros Hne H. destruct H as [|x st [Hs Hx] _]; [contradiction|].
  destruct st; [now apply sep_free_starts|].
  rewrite join_with_cons, starts_with_sep_app by exact Hx. now apply sep_free_starts.
Qed.

Lemma join_segments_ends st :
  st <> [] -> Forall (fun x => sep_free x = true /\ x <> "") st ->
  Path.ends_with_sep (Path.join_with "/" st) = false.
Proof.
  intros Hne H. induction H as [|x st [Hs Hx] Hst IH]; [contradiction|].
  destruct st as [|y st]; [now apply sep_free_ends|].
  rewrite join_with_cons, ends_with_sep_app.
  - rewrite ends_with_sep_app; [apply IH; discriminate|].
    apply join_segments_nonempty; [discriminate|exact Hst].
  - intros H. apply append_eq_nil in H as [H _]. discriminate H.
Qed.

(** The string that [normalize] builds from a normal list of segments, and
    what [normalize] makes of it. *)
Lemma normalize_normal (abs trailing : bool) (dots plains : list string) :
  dots ++ plains <> [] ->
  Forall (fun d => d = "..") dots ->
  Forall (fun p => plain_segment p = true) plains ->
  (negb abs = false -> dots = []) ->
  let out := (if abs then "/" else "") +:+ Path.join_with "/" (dots ++ plains)
             +:+ (if trailing then "/" else "") in
  Path.starts_with_sep out = abs
  /\ Path.ends_with_sep out = trailing
  /\ String.eqb out "" = false
  /\ Path.normalize_segments (negb abs) (Path.split Path.sep out) [] = dots ++ plains.
Proof.
  intros Hne Hd Hp Hb out.
  pose proof (normal_segments_ok _ _ Hd Hp) as Hok.
  pose proof (join_segments_nonempty _ Hne Hok) as Hbody.
  pose proof (join_segments_starts _ Hne Hok) as Hstart.
  pose proof (join_segments_ends _ Hne Hok) as Hend.
  assert (Forall (fun x => sep_free x = true) (dots ++ plains)) as Hsf
      by (eapply Forall_impl; [exact Hok|]; now intros x [? _]).
  pose proof (split_join_sep_free _ Hne Hsf) as Hsplit.
  pose proof (normalize_segments_fixed (negb abs) dots plains Hd Hp Hb) as Hfix.
  set (body := Path.join_with "/" (dots ++ plains)) in *.
  assert (body +:+ "/" <> "") as Hb1
      by (intros H; now apply append_eq_nil in H as [? _]).
  subst out. destruct abs, trailing; rewrite ?append_nil_l, ?append_nil_r.
  - split_all.
    + reflexivity.
    + rewrite ends_with_sep_app by exact Hb1.
      rewrite ends_with_sep_app by discriminate. reflexivity.
    + reflexivity.
    + rewrite split_leading, split_trailing, Hsplit.
      cbn [Path.normalize_segments String.eqb orb]. rewrite normalize_segments_empty_tail.
      exact Hfix.
  - split_all.
    + reflexivity.
    + rewrite ends_with_sep_app by exact Hbody. exact Hend.
    + reflexivity.
    + rewrite split_leading, Hsplit. cbn [Path.normalize_segments String.eqb orb].
      exact Hfix.
  - split_all.
    + rewrite starts_with_sep_app by exact Hbody. exact Hstart.
    + rewrite ends_with_sep_app by discriminate. reflexivity.
    + apply String.eqb_neq. exact Hb1.
    + rewrite split_trailing, Hsplit, normalize_segments_empty_tail. exact Hfix.
  - split_all.
    + exact Hstart.
    + exact Hend.
    + now apply String.eqb_neq.
    + rewrite Hsplit. exact Hfix.
Qed.

(** What [normalize] returns, in terms of the segments that it keeps. *)
Lemma normalize_out p :
  p <> "" ->
  exists dots plains,
    Path.normalize_segments (negb (Path.starts_with_sep p)) (Path.split Path.sep p) []
    = dots ++ plains
    /\ Forall (fun d => d = "..") dots
    /\ Forall (fun p => plain_segment p = true) plains
    /\ (negb (Path.starts_with_sep p) = false -> dots = [])
    /\ Path.normalize p
       = match dots ++ plains with
         | [] => if Path.starts_with_sep p then "/"
                 else if Path.ends_with_sep p then "./" else "."
         | _ => (if Path.starts_with_sep p then "/" else "")
                +:+ Path.join_with "/" (dots ++ plains)
                +:+ (if Path.ends_with_sep p then "/" else "")
         end.
Proof.
  intros Hp.
  destruct (normalize_segments_shape (negb (Path.starts_with_sep p)) (Path.split Path.sep p)
              [] []) as (dots & plains & Hst & Hd & Hpl & Hb);
    [constructor|constructor|reflexivity|apply split_sep_free_elems|].
  cbn [app] in Hst. exists dots, plains. split_all; try assumption.
  unfold Path.normalize. apply String.eqb_neq in Hp. rewrite Hp, Hst.
  destruct (dots ++ plains) as [|x st] eqn:Hdp; [reflexivity|].
  assert (Path.join_with "/" (x :: st) <> "") as Hbody.
  { apply join_segments_nonempty; [discriminate|]. rewrite <- Hdp.
    now apply normal_segments_ok. }
  apply String.eqb_neq in Hbody. rewrite Hbody.
  destruct (Path.starts_with_sep p), (Path.ends_with_sep p);
    rewrite ?append_nil_l, ?append_nil_r; reflexivity.
Qed.

Lemma normalize_idempotent p : Path.normalize (Path.normalize p) = Path.normalize p.
Proof.
  destruct (decide (p = "")) as [->|Hp]; [reflexivity|].
  destruct (normalize_out p Hp) as (dots & plains & _ & Hd & Hpl & Hb & Hout).
  destruct (dots ++ plains) as [|x st] eqn:Hdp.
  - rewrite Hout. destruct (Path.starts_with_sep p), (Path.ends_with_sep p); reflexivity.
  - assert (dots ++ plains <> []) as Hne by (rewrite Hdp; discriminate).
    destruct (normalize_normal (Path.starts_with_sep p) (Path.ends_with_sep p)
                dots plains Hne Hd Hpl Hb) as (H1 & H2 & H3 & H4).
    rewrite Hdp in H1, H2, H3, H4. rewrite Hout.
    set (out := (if Path.starts_with_sep p then "/" else "")
                +:+ Path.join_with "/" (x :: st)
                +:+ (if Path.ends_with_sep p then "/" else "")) in *.
    unfold Path.normalize at 1. rewrite H3, H1, H2, H4.
    assert (Path.join_with "/" (x :: st) <> "") as Hbody.
    { apply join_segments_nonempty; [discriminate|]. rewrite <- Hdp.
      now apply normal_segments_ok. }
    apply String.eqb_neq in Hbody. rewrite Hbody. subst out.
    destruct (Path.starts_with_sep p), (Path.ends_with_sep p);
      rewrite ?append_nil_l, ?append_nil_r; reflexivity.
Qed.

(** ** Nested calls of [path.join] *)

Lemma normalize_nonempty p : Path.normalize p <> "".
Proof.
  destruct (decide (p = "")) as [->|Hp]; [discriminate|].
  destruct (normalize_out p Hp) as (dots & plains & _ & Hd & Hpl & _ & ->).
  destruct (dots ++ plains) as [|x st] eqn:Hdp.
  - destruct (Path.starts_with_sep p), (Path.ends_with_sep p); discriminate.
  - intros H. apply append_eq_nil in H as [_ H]. apply append_eq_nil in H as [H _].
    revert H. apply join_segments_nonempty; [discriminate|]. rewrite <- Hdp.
    now apply normal_segments_ok.
Qed.

Lemma normalize_starts p : p <> "" ->
  Path.starts_with_sep (Path.normalize p) = Path.starts_with_sep p.
Proof.
  intros Hp. destruct (normalize_out p Hp) as (dots & plains & _ & Hd & Hpl & Hb & ->).
  destruct (dots ++ plains) as [|x st] eqn:Hdp.
  - destruct (Path.starts_with_sep p), (Path.ends_with_sep p); reflexivity.
  - assert (dots ++ plains <> []) as Hne by (rewrite Hdp; discriminate).
    destruct (normalize_normal (Path.starts_with_sep p) (Path.ends_with_sep p)
                dots plains Hne Hd Hpl Hb) as (H1 & _).
    rewrite Hdp in H1. exact H1.
Qed.

Lemma normalize_keeps_segments p : p <> "" ->
  Path.normalize_segments (negb (Path.starts_with_sep p))
                          (Path.split Path.sep (Path.normalize p)) []
  = Path.normalize_segments (negb (Path.starts_with_sep p)) (Path.split Path.sep p) [].
Proof.
  intros Hp. destruct (normalize_out p Hp) as (dots & plains & Hst & Hd & Hpl & Hb & ->).
  rewrite Hst. destruct (dots ++ plains) as [|x st] eqn:Hdp.
  - destruct (Path.starts_with_sep p), (Path.ends_with_sep p); reflexivity.
  - assert (dots ++ plains <> []) as Hne by (rewrite Hdp; discriminate).
    destruct (normalize_normal (Path.starts_with_sep p) (Path.ends_with_sep p)
                dots plains Hne Hd Hpl Hb) as (_ & _ & _ & H4).
    rewrite Hdp in H4. exact H4.
Qed.

(** What is joined after a path does not see whether the path was
    normalized first. *)
Lemma normalize_absorbs A R :
  A <> "" ->
  Path.normalize (Path.normalize A +:+ "/" +:+ R) = Path.normalize (A +:+ "/" +:+ R).
Proof.
  intros HA. pose proof (normalize_nonempty A) as HX.
  assert (forall Y, Y <> "" -> String.eqb (Y +:+ "/" +:+ R) "" = false) as Hne.
  { intros Y HY. apply String.eqb_neq. intros H. now apply append_eq_nil in H as [? _]. }
  assert ("/" +:+ R <> "") as HR by discriminate.
  unfold Path.normalize at 1 3. rewrite (Hne _ HA), (Hne _ HX).
  rewrite !starts_with_sep_app by assumption. rewrite (normalize_starts A HA).
  rewrite (ends_with_sep_app A _ HR), (ends_with_sep_app (Path.normalize A) _ HR).
  rewrite !split_slash, !normalize_segments_app, (normalize_keeps_segments A HA).
  reflexivity.
Qed.

Lemma filter_nonempty_app (l1 l2 : list string) :
  filter (fun a : string => a ≠ "") (l1 ++ l2)
  = filter (fun a : string => a ≠ "") l1 ++ filter (fun a : string => a ≠ "") l2.
Proof. apply filter_app. Qed.

Lemma join_with_head_nonempty x l : x <> "" -> Path.join_with "/" (x :: l) <> "".
Proof.
  intros Hx H. destruct l; [contradiction|]. rewrite join_with_cons in H.
  now apply append_eq_nil in H as [? _].
Qed.

Lemma filter_nonempty_head (l : list string) :
  match filter (fun a : string => a ≠ "") l with
  | [] => True
  | x :: _ => x <> ""
  end.
Proof.
  induction l as [|a l IH]; [exact I|].
  destruct (decide (a = "")) as [->|Ha].
  - rewrite filter_cons_False by (intros H; now apply H). exact IH.
  - rewrite filter_cons_True by exact Ha. exact Ha.
Qed.

Lemma join_nonempty args : Path.join args <> "".
Proof.
  unfold Path.join. destruct (filter _ args); [discriminate|apply normalize_nonempty].
Qed.

(** [path.join(path.join(...args), ...rest)] is [path.join(...args, ...rest)],
    unless every one of [args] is empty. *)
Lemma join_flatten args rest :
  (exists a, a ∈ args /\ a <> "") ->
  Path.join (Path.join args :: rest) = Path.join (args ++ rest).
Proof.
  intros (a & Ha & Hne).
  assert (a ∈ filter (fun a : string => a ≠ "") args) as Hin
      by (apply list_elem_of_filter; auto).
  pose proof (filter_nonempty_head args) as Hhead.
  pose proof (filter_nonempty_head rest) as Hrest.
  pose proof (join_nonempty args) as HX.
  unfold Path.join at 1 3. rewrite filter_cons_True by exact HX.
  rewrite filter_nonempty_app. unfold Path.join.
  destruct (filter (fun a : string => a ≠ "") args) as [|x fa] eqn:Hfa;
    [now apply elem_of_nil in Hin|].
  destruct (filter (fun a : string => a ≠ "") rest) as [|y fr] eqn:Hfr.
  - rewrite app_nil_r. cbn [Path.join_with]. apply normalize_idempotent.
  - change ((x :: fa) ++ y :: fr) with (x :: fa ++ y :: fr). cbv iota.
    change (x :: fa ++ y :: fr) with ((x :: fa) ++ y :: fr).
    rewrite join_with_cons, join_with_app by discriminate.
    apply normalize_absorbs. pose proof Hhead as Hx. cbv iota in Hx.
    now apply join_with_head_nonempty.
Qed.

(** A name made of plain segments, such as a scoped package name, as one
    argument or segment by segment. *)
Lemma join_with_segments l ps :
  ps <> [] -> Forall (fun p => plain_segment p = true) ps ->
  Path.join (l ++ [Path.join_with "/" ps]) = Path.join (l ++ ps).
Proof.
  intros Hne Hps. unfold Path.join. rewrite !filter_nonempty_app.
  assert (Path.join_with "/" ps <> "") as Hd
      by (apply (join_plain_nonempty [] ps); assumption).
  rewrite filter_cons_True by exact Hd. rewrite filter_nil.
  assert (filter (fun a : string => a ≠ "") ps = ps) as ->.
  { clear Hne Hd. induction Hps as [|p ps Hp _ IH]; [reflexivity|].
    rewrite filter_cons_True by now apply plain_segment_nonempty. now rewrite IH. }
  destruct (filter (fun a : string => a ≠ "") l) as [|x fl].
  - cbn [app]. destruct ps; [contradiction|]. reflexivity.
  - change ((x :: fl) ++ [Path.join_with "/" ps]) with (x :: fl ++ [Path.join_with "/" ps]).
    change ((x :: fl) ++ ps) with (x :: fl ++ ps).
    destruct (fl ++ [Path.join_with "/" ps]) as [|u v] eqn:H1;
      [now destruct fl|]. rewrite <- H1.
    destruct (fl ++ ps) as [|u' v'] eqn:H2; [destruct fl, ps; discriminate || contradiction|].
    rewrite <- H2. f_equal.
    change (x :: fl ++ [Path.join_with "/" ps]) with ((x :: fl) ++ [Path.join_with "/" ps]).
    change (x :: fl ++ ps) with ((x :: fl) ++ ps).
    rewrite !join_with_app by (discriminate || exact Hne). reflexivity.
Qed.

(** A path followed by plain segments: the segments are appended. *)
Lemma join_plain_append c ps1 ps2 :
  ps1 <> [] -> ps2 <> [] ->
  Forall (fun p => plain_segment p = true) ps1 ->
  Forall (fun p => plain_segment p = true) ps2 ->
  Path.join (c :: ps1 ++ ps2) = Path.join (c :: ps1) +:+ "/" +:+ Path.join_with "/" ps2.
Proof.
  intros H1 H2 Hp1 Hp2. destruct (join_plain_tail c) as [pre Hpre].
  rewrite (Hpre (ps1 ++ ps2)), (Hpre ps1); try assumption.
  - rewrite join_with_app by assumption. now rewrite !append_assoc.
  - now destruct ps1.
  - now apply Forall_app.
Qed.

(** ** The encoded path of the tarball is a plain segment *)

Lemma split_go_snoc t : sep_free t = true -> forall s cur,
  exists l x,
    Path.split_go Path.sep s cur = l ++ [x]
    /\ Path.split_go Path.sep (s +:+ t) cur = l ++ [x +:+ t].
Proof.
  intros Ht. induction s as [|a s IH]; intros cur.
  - exists [], cur. rewrite append_nil_l. split; [reflexivity|now apply split_go_sep_free].
  - rewrite append_String. cbn [Path.split_go]. destruct (Ascii.eqb a Path.sep).
    + destruct (IH "") as (l & x & H1 & H2). exists (cur :: l), x.
      rewrite H1, H2. split; reflexivity.
    + apply IH.
Qed.

Lemma join_with_length_last d l x :
  String.length x <= String.length (Path.join_with d (l ++ [x])).
Proof.
  destruct l as [|y l]; [reflexivity|].
  rewrite join_with_app by discriminate. rewrite !append_length. cbn [Path.join_with]. lia.
Qed.

Lemma normalize_long p t :
  sep_free t = true -> 3 <= String.length t ->
  String.length t <= String.length (Path.normalize (p +:+ t)).
Proof.
  intros Ht Hlen. unfold Path.normalize.
  assert (p +:+ t <> "") as Hne.
  { intros H. apply append_eq_nil in H as [_ ->]. cbn in Hlen. lia. }
  apply String.eqb_neq in Hne. rewrite Hne.
  destruct (split_go_snoc t Ht p "") as (l & x & H1 & H2).
  unfold Path.split. rewrite H2.
  assert (sep_free x = true) as Hx.
  { pose proof (split_go_sep_free_elems p "" eq_refl) as H. rewrite H1 in H.
    apply Forall_app in H as [_ H]. now apply Forall_cons in H as [? _]. }
  assert (plain_segment (x +:+ t) = true) as Hplain.
  { apply long_segment_plain; [rewrite append_length; lia|].
    now rewrite sep_free_app, Hx, Ht. }
  rewrite (normalize_segments_app_plain _ [x +:+ t]) by (constructor; [exact Hplain|constructor]).
  set (st := Path.normalize_segments _ l []).
  pose proof (join_with_length_last "/" st (x +:+ t)) as Hlast.
  rewrite append_length in Hlast.
  destruct (String.eqb (Path.join_with "/" (st ++ [x +:+ t])) "") eqn:Hbody.
  - apply String.eqb_eq in Hbody. rewrite Hbody in Hlast. cbn in Hlast. lia.
  - destruct (Path.starts_with_sep (p +:+ t)), (Path.ends_with_sep (p +:+ t));
      rewrite ?append_length; cbn [String.length]; lia.
Qed.

Lemma join_with_last_app d l x t :
  Path.join_with d (l ++ [x +:+ t]) = Path.join_with d (l ++ [x]) +:+ t.
Proof.
  destruct l as [|y l]; [reflexivity|].
  rewrite !join_with_app by discriminate. cbn [Path.join_with]. now rewrite !append_assoc.
Qed.

Lemma tarball_path_long c n :
  4 <= String.length (Path.join [c; "projects"; n +:+ ".tgz"]).
Proof.
  unfold Path.join.
  change [c; "projects"; n +:+ ".tgz"] with ([c; "projects"] ++ [n +:+ ".tgz"]).
  rewrite filter_nonempty_app.
  assert (n +:+ ".tgz" <> "") as Hn
      by (intros H; apply append_eq_nil in H as [_ H]; discriminate H).
  rewrite (filter_cons_True _ (n +:+ ".tgz")) by exact Hn. rewrite filter_nil.
  destruct (filter _ [c; "projects"] ++ [n +:+ ".tgz"]) as [|u v] eqn:Hl;
    [now destruct (filter _ [c; "projects"])|].
  rewrite <- Hl, join_with_last_app.
  apply (normalize_long _ ".tgz"); [reflexivity|cbn; lia].
Qed.

Lemma escaped_path_plain c n :
  plain_segment (UriEncode.uriEncode (Path.join [c; "projects"; n +:+ ".tgz"])) = true.
Proof.
  apply long_segment_plain; [|apply uriEncode_sep_free].
  pose proof (tarball_path_long c n). pose proof (uriEncode_length
    (Path.join [c; "projects"; n +:+ ".tgz"])). lia.
Qed.

(** ** The entries of the link manifest only grow *)

Lemma record_links_grows n keys rushLinkJson m l0 :
  localLinks rushLinkJson !! m = Some l0 ->
  exists more, localLinks (record_links n keys rushLinkJson) !! m = Some (l0 ++ more).
Proof.
  intros H. destruct keys as [|k keys].
  - exists []. now rewrite app_nil_r.
  - cbn [record_links localLinks]. rewrite lookup_insert. case_decide as Hn.
    + subst m. rewrite H. exists (k :: keys). reflexivity.
    + exists []. now rewrite app_nil_r.
Qed.

(** ** The specification, statement by statement *)

(** C1 (as the code has it).  In a run that succeeds, on a configuration
    whose projects have distinct names: when the turn of a project P comes,
    every internal dependency name D of its staging manifest matches a local
    project, the tree of P has a child node named D at P's [node_modules/D]
    whose symlink target is the folder of that project, and the symlink is
    made on the disk; the link manifest that is saved maps P to exactly the
    internal dependency names of P, in the order in which [Object.keys]
    gives them (the names that are array indices first, by value, then the
    others as the staging manifest declares them), and has no entry for P
    when there are none; every one of them is the name of a local
    project. *)
Theorem internal_dependencies_linked_and_recorded cfg w w' pre project post :
  _linkProjects cfg w = (Resolved, w') ->
  NoDup (map localName (projects cfg)) ->
  projects cfg = pre ++ project :: post ->
  exists rushLinkJsonP wP pj localPackage manifest,
    linkAll cfg pre (mkRushLinkJson ∅) w = (inr rushLinkJsonP, wP)
    /\ stagingManifest cfg project (fs wP) = Some pj
    /\ fst (buildLocalPackage cfg project rushLinkJsonP (logged wP (linking_message project)))
       = inr (localPackage,
              record_links (localName project) (rushDependencyNames pj) rushLinkJsonP)
    /\ (forall d, d ∈ rushDependencyNames pj ->
        exists matched child,
          getProjectByName cfg d = Some matched
          /\ child ∈ children localPackage
          /\ name child = d
          /\ folderPath child = Path.join [projectFolder project; "node_modules"; d]
          /\ symlinkTargetFolderPath child = Some (projectFolder matched)
          /\ EvSymlink (projectFolder matched) (folderPath child) SymlinkDirectory ∈ log w')
    /\ saves (log w') = saves (log w) ++ [(rushLinkJsonFilename cfg, manifest)]
    /\ localLinks manifest !! localName project
       = match rushDependencyNames pj with [] => None | keys => Some keys end.
Proof.
  intros Hrun Hnd Hsplit.
  destruct (run_turn _ _ _ _ _ _ Hrun Hnd Hsplit)
    as (rljP & wP & pj & T & manifest & w1 & evs
        & Hpre & Hs & Hp & _ & _ & Hentry & -> & Hsaves & Hlog).
  exists rljP, wP, pj, T, manifest. repeat split; try assumption.
  - rewrite buildLocalPackage_spec. cbn [fst fs logged]. now rewrite Hs.
  - intros d Hd.
    destruct (planProject_inr _ _ _ _ _ _ _ Hp) as (Hknown & HT & _).
    rewrite Forall_forall in Hknown. pose proof (Hknown d Hd) as Hm.
    apply known_true in Hm as [matched Hm]. exists matched, (rushChild (projectFolder project) d matched).
    assert (rushChild (projectFolder project) d matched
              ∈ rushChildren cfg (projectFolder project) (rushDependencyNames pj)) as Hin.
    { unfold rushChildren. apply list_elem_of_In, in_flat_map. exists d.
      split; [now apply list_elem_of_In|]. rewrite Hm. now left. }
    repeat split; try assumption.
    + rewrite HT. cbn. apply elem_of_app. now left.
    + cbn [log]. rewrite Hlog. apply elem_of_app. left. apply elem_of_app. right.
      do 2 (apply elem_of_cons; right). unfold project_events, tree_events.
      do 2 (apply elem_of_app; left). apply elem_of_app. right.
      apply list_elem_of_In.
      apply (in_map link_event _ (projectFolder matched, _)). apply list_elem_of_In.
      unfold links_of, child_links. apply list_elem_of_omap.
      exists (rushChild (projectFolder project) d matched). split; [|reflexivity].
      rewrite HT. cbn. apply elem_of_app. now left.
  - cbn [log]. now rewrite saves_app, Hsaves.
Qed.

Lemma internal_dependencies_linked_and_recorded_witness :
  _linkProjects Scenario.cfg Scenario.world = (Resolved, Scenario.world_after)
  /\ NoDup (map localName (projects Scenario.cfg))
  /\ projects Scenario.cfg = [] ++ Scenario.projectA :: [Scenario.projectB]
  /\ exists manifest,
       saves (log Scenario.world_after) = [("/repo/common/temp/rush-link.json", manifest)]
       /\ localLinks manifest !! "a" = Some ["b"]
       /\ EvSymlink "/repo/tools/b" "/repo/tools/a/node_modules/b" SymlinkDirectory
            ∈ log Scenario.world_after.
Proof.
  assert (_linkProjects Scenario.cfg Scenario.world = (Resolved, Scenario.world_after)) as H1
      by fst_by_evaluation.
  assert (NoDup (map localName (projects Scenario.cfg))) as H2
      by (apply (bool_decide_unpack _); vm_compute; exact I).
  assert (projects Scenario.cfg = [] ++ Scenario.projectA :: [Scenario.projectB]) as H3
      by reflexivity.
  repeat (split; [assumption|]).
  destruct (internal_dependencies_linked_and_recorded _ _ _ _ _ _ H1 H2 H3)
    as (rljP & wP & pj & T & manifest & Hpre & Hs & _ & Hnodes & Hsaves & Hentry).
  inversion Hpre; subst rljP wP.
  assert (stagingManifest Scenario.cfg Scenario.projectA (fs Scenario.world)
          = Some Scenario.stagingA) as Hs' by by_evaluation.
  rewrite Hs' in Hs. inversion Hs; subst pj.
  exists manifest. split; [exact Hsaves|]. split; [exact Hentry|].
  destruct (Hnodes "b") as (matched & child & Hm & _ & _ & Hf & _ & Hev).
  { apply list_elem_of_In. now left. }
  assert (getProjectByName Scenario.cfg "b" = Some Scenario.projectB) as Hm'
      by reflexivity.
  rewrite Hm' in Hm. inversion Hm; subst matched. rewrite Hf in Hev. exact Hev.
Defined.

(** C1, as stated, fails on the order: the staging manifest of [a] declares
    the internal dependencies [b] and then [7], both of them projects; the
    run succeeds, and the entry of [a] in the link manifest that is saved
    lists [7] before [b]. *)
Lemma internal_dependencies_linked_and_recorded_counterexample :
  stagingManifest Scenario.cfgNumbered Scenario.projectA (fs Scenario.worldNumbered)
  = Some Scenario.stagingNumbered
  /\ map fst (or_empty (rushDependencies Scenario.stagingNumbered)) = ["b"; "7"]
  /\ fst (_linkProjects Scenario.cfgNumbered Scenario.worldNumbered) = Resolved
  /\ map (fun saved => (fst saved, localLinks (snd saved) !! "a"))
         (saves (log (snd (_linkProjects Scenario.cfgNumbered Scenario.worldNumbered))))
     = [("/repo/common/temp/rush-link.json", Some ["7"; "b"])].
Proof. split_all; by_evaluation. Qed.

(** C10.  In a run that succeeds, on a configuration whose projects have
    distinct names: before the turn of a project the link manifest has no
    entry for it; if its staging manifest declares no internal dependency,
    the link manifest that is saved has no entry for it either (the name is
    not a key); otherwise the entry appears when the first internal
    dependency is recorded, and holds that name alone at that moment. *)
Theorem no_entry_without_internal_dependencies cfg w w' pre project post :
  _linkProjects cfg w = (Resolved, w') ->
  NoDup (map localName (projects cfg)) ->
  projects cfg = pre ++ project :: post ->
  exists rushLinkJsonP wP pj manifest,
    linkAll cfg pre (mkRushLinkJson ∅) w = (inr rushLinkJsonP, wP)
    /\ stagingManifest cfg project (fs wP) = Some pj
    /\ saves (log w') = saves (log w) ++ [(rushLinkJsonFilename cfg, manifest)]
    /\ fs w' !! rushLinkJsonFilename cfg = Some (FsFile (RushLinkJsonFile manifest))
    /\ localLinks rushLinkJsonP !! localName project = None
    /\ (rushDependencyNames pj = [] -> localLinks manifest !! localName project = None)
    /\ (forall d rest, rushDependencyNames pj = d :: rest ->
        (exists localPackage1 rushLinkJson1,
            linkRushDependency cfg project d (projectRoot project pj, rushLinkJsonP) wP
            = (inr (localPackage1, rushLinkJson1), wP)
            /\ localLinks rushLinkJson1 !! localName project = Some [d])
        /\ localLinks manifest !! localName project = Some (d :: rest)).
Proof.
  intros Hrun Hnd Hsplit.
  destruct (run_turn _ _ _ _ _ _ Hrun Hnd Hsplit)
    as (rljP & wP & pj & T & manifest & w1 & evs
        & Hpre & Hs & Hp & HeP & _ & Hentry & -> & Hsaves & Hlog).
  exists rljP, wP, pj, manifest. repeat split; try assumption.
  - cbn [log]. now rewrite saves_app, Hsaves.
  - cbn [fs]. apply lookup_insert_eq.
  - intros Hnil. now rewrite Hnil in Hentry.
  - destruct (planProject_inr _ _ _ _ _ _ _ Hp) as (Hknown & _).
    pose proof (planProject_inr_push _ _ _ _ _ _ Hp) as Hpush.
    rewrite H in Hknown, Hpush. apply Forall_cons in Hknown as [Hd _].
    pose proof (push_fails_false _ _ _ _ _ Hpush Hd) as Hget.
    apply known_true in Hd as [matched Hm].
    eexists _, _. split; [apply linkRushDependency_known; [exact Hm|exact Hget]|].
    unfold record_links. cbn. now rewrite lookup_insert_eq, HeP.
  - now rewrite H in Hentry.
Qed.

Lemma no_entry_without_internal_dependencies_witness :
  _linkProjects Scenario.cfg Scenario.world = (Resolved, Scenario.world_after)
  /\ NoDup (map localName (projects Scenario.cfg))
  /\ projects Scenario.cfg = [Scenario.projectA] ++ Scenario.projectB :: []
  /\ exists manifest,
       fs Scenario.world_after !! "/repo/common/temp/rush-link.json"
         = Some (FsFile (RushLinkJsonFile manifest))
       /\ localLinks manifest !! "b" = None.
Proof.
  assert (_linkProjects Scenario.cfg Scenario.world = (Resolved, Scenario.world_after)) as H1
      by fst_by_evaluation.
  assert (NoDup (map localName (projects Scenario.cfg))) as H2
      by (apply (bool_decide_unpack _); vm_compute; exact I).
  assert (projects Scenario.cfg = [Scenario.projectA] ++ Scenario.projectB :: []) as H3
      by reflexivity.
  repeat (split; [assumption|]).
  destruct (no_entry_without_internal_dependencies _ _ _ _ _ _ H1 H2 H3)
    as (rljP & wP & pj & manifest & Hpre & Hs & _ & Hfile & _ & Hnone & _).
  exists manifest. split; [exact Hfile|]. apply Hnone.
  apply (f_equal snd) in Hpre. cbn [snd] in Hpre. subst wP.
  assert (stagingManifest Scenario.cfg Scenario.projectB
            (fs (snd (linkAll Scenario.cfg [Scenario.projectA] (mkRushLinkJson ∅)
                              Scenario.world)))
          = Some Scenario.stagingB) as Hs' by by_evaluation.
  rewrite Hs' in Hs. inversion Hs; subst pj. reflexivity.
Defined.

(** C2 (as the code has it).  In a run that succeeds, for every project P and
    every regular dependency D of its staging manifest, linking makes a
    symlink at P's [node_modules/D] that points at the location of D in the
    local installation folder of P.  That location is itself a symlink,
    made by the backend: one hop from P's [node_modules/D] lands on it, and
    the place where the backend keeps D is reached by a second hop, through
    the symlink of the backend.  (The disk shows the two hops at the end of
    the run when no path is written twice, and the location is not
    written.) *)
Theorem regular_dependency_links_through_backend cfg w w' pre project post :
  _linkProjects cfg w = (Resolved, w') ->
  projects cfg = pre ++ project :: post ->
  exists rushLinkJsonP wP pj evs,
    linkAll cfg pre (mkRushLinkJson ∅) w = (inr rushLinkJsonP, wP)
    /\ stagingManifest cfg project (fs wP) = Some pj
    /\ log w' = log w ++ evs
    /\ forall d, d ∈ dependencyNames pj ->
       let location := Path.join [pathToLocalInstallation cfg project; d] in
       let linkPath := Path.join [projectFolder project; "node_modules"; d] in
       EvSymlink location linkPath SymlinkDirectory ∈ evs
       /\ exists physical,
           readlink (fs wP) location = Some physical
           /\ (NoDup (written_paths evs) -> readlink (fs w') linkPath = Some location)
           /\ (location ∉ written_paths evs -> readlink (fs w') location = Some physical).
Proof.
  intros Hrun Hsplit.
  destruct (linkProjects_traced cfg w) as (evs & Hl & Hf). rewrite Hrun in Hl, Hf.
  cbn [snd] in Hl, Hf.
  rewrite linkProjects_spec in Hrun.
  destruct (linkAll cfg (projects cfg) _ w) as [[e|manifest] w1] eqn:Hall; [discriminate|].
  inversion Hrun; subst w'; clear Hrun. cbn [log fs] in Hl, Hf.
  rewrite Hsplit in Hall.
  destruct (linkAll_turn_events _ _ _ _ _ _ _ _ Hall)
    as (rljP & wP & pj & T & rlj1 & evsPre & evsPost & Hpre & Hs & Hp & HlP & HfP & Hl1).
  exists rljP, wP, pj, evs. split; [exact Hpre|]. split; [exact Hs|].
  split; [exact Hl|]. intros d Hd location linkPath.
  destruct (planProject_inr _ _ _ _ _ _ _ Hp) as (_ & HT & _ & Hinst & _).
  rewrite Forall_forall in Hinst. specialize (Hinst d Hd). fold location in Hinst.
  apply installed_as_symlink_true in Hinst as [_ [physical Hphys]].
  assert (EvSymlink location linkPath SymlinkDirectory ∈ evs) as Hev.
  { rewrite Hl1, HlP in Hl. rewrite <- !app_assoc in Hl. apply app_inv_head in Hl.
    rewrite <- Hl. apply elem_of_app. right. apply elem_of_app. left.
    do 2 (apply elem_of_cons; right). apply elem_of_app. left.
    unfold project_events, tree_events. apply elem_of_app. left. apply elem_of_app. right.
    apply list_elem_of_In. apply (in_map link_event _ (location, linkPath)).
    apply list_elem_of_In. unfold links_of, child_links. apply list_elem_of_omap.
    exists (depChild (projectFolder project) (pathToLocalInstallation cfg project) d).
    split; [|reflexivity]. rewrite HT. cbn [children]. apply elem_of_app. right.
    apply list_elem_of_In, in_map. now apply list_elem_of_In. }
  split; [exact Hev|]. exists physical. unfold readlink. split; [now rewrite Hphys|].
  split.
  - intros Hnd. cbn [fs]. rewrite Hf. now rewrite (replay_lookup_once _ _ _ _ _ Hnd Hev).
  - intros Hnot. cbn [fs]. rewrite Hf, (replay_lookup_notin _ _ _ Hnot).
    assert (location ∉ written_paths evsPre) as Hnot'.
    { intros Hin. apply Hnot. rewrite Hl1, HlP in Hl. rewrite <- !app_assoc in Hl.
      apply app_inv_head in Hl. rewrite <- Hl, written_paths_app.
      apply elem_of_app. now left. }
    rewrite HfP, (replay_lookup_notin _ _ _ Hnot') in Hphys. now rewrite Hphys.
Qed.

Lemma regular_dependency_links_through_backend_witness :
  _linkProjects Scenario.cfg Scenario.world = (Resolved, Scenario.world_after)
  /\ projects Scenario.cfg = [Scenario.projectA] ++ Scenario.projectB :: []
  /\ exists evs,
       log Scenario.world_after = log Scenario.world ++ evs
       /\ EvSymlink Scenario.lodashOfB "/repo/tools/b/node_modules/lodash" SymlinkDirectory
            ∈ evs.
Proof.
  assert (_linkProjects Scenario.cfg Scenario.world = (Resolved, Scenario.world_after)) as H1
      by fst_by_evaluation.
  assert (projects Scenario.cfg = [Scenario.projectA] ++ Scenario.projectB :: []) as H2
      by reflexivity.
  split; [exact H1|]. split; [exact H2|].
  destruct (regular_dependency_links_through_backend _ _ _ _ _ _ H1 H2)
    as (rljP & wP & pj & evs & Hpre & Hs & Hl & Hdeps).
  exists evs. split; [exact Hl|].
  apply (f_equal snd) in Hpre. cbn [snd] in Hpre. subst wP.
  assert (stagingManifest Scenario.cfg Scenario.projectB
            (fs (snd (linkAll Scenario.cfg [Scenario.projectA] (mkRushLinkJson ∅)
                              Scenario.world)))
          = Some Scenario.stagingB) as Hs' by by_evaluation.
  rewrite Hs' in Hs. inversion Hs; subst pj.
  destruct (Hdeps "lodash") as [Hev _]; [apply list_elem_of_In; now left|].
  exact Hev.
Defined.

(** C2, as stated, fails: [a] and [b] both depend on [lodash], which the
    backend keeps in one place.  After a run that succeeds, one hop from the
    [node_modules/lodash] of [a] and one hop from that of [b] lead to two
    different paths, one for each project, and neither is the place where
    [lodash] is kept: each is a symlink of the backend, and it is the second
    hop that reaches the one place. *)
Lemma regular_dependency_links_through_backend_counterexample :
  _linkProjects Scenario.cfg Scenario.world = (Resolved, Scenario.world_after)
  /\ readlink (fs Scenario.world_after) "/repo/tools/a/node_modules/lodash"
     = Some Scenario.lodashOfA
  /\ readlink (fs Scenario.world_after) "/repo/tools/b/node_modules/lodash"
     = Some Scenario.lodashOfB
  /\ Scenario.lodashOfA <> Scenario.lodashOfB
  /\ readlink (fs Scenario.world_after) Scenario.lodashOfA = Some Scenario.store
  /\ readlink (fs Scenario.world_after) Scenario.lodashOfB = Some Scenario.store
  /\ readlink (fs Scenario.world_after) Scenario.store = None.
Proof.
  split; [fst_by_evaluation|].
  split_all; try by_evaluation.
  intros H. assert (String.eqb Scenario.lodashOfA Scenario.lodashOfB = false) as Hne
      by by_evaluation.
  rewrite H, String.eqb_refl in Hne. discriminate Hne.
Qed.

(** C3.  A run accounts in its log for all it does to the disk.  When every
    project is linked without an error, the promise is resolved; the link
    manifest is saved once, it holds what the projects recorded, and the
    save is the last event, after the events of all the projects.  When
    the linking of a project throws, the promise is rejected with that
    error; the run stops where the error was thrown, there is no save, so
    that the file of the link manifest is as it was (unless a folder or a
    symlink was made at that very path); nothing is undone: whatever was
    on the disk when the turn of the failing project came is still there,
    and the disk is exactly as it was then unless the error is a conflict
    found while the symlinks of that project were being made. *)
Theorem manifest_saved_once_after_all_projects cfg w :
  exists evs,
    log (snd (_linkProjects cfg w)) = log w ++ evs
    /\ fs (snd (_linkProjects cfg w)) = replay evs (fs w)
    /\ (forall manifest w1,
           linkAll cfg (projects cfg) (mkRushLinkJson ∅) w = (inr manifest, w1) ->
           fst (_linkProjects cfg w) = Resolved
           /\ saves evs = [(rushLinkJsonFilename cfg, manifest)]
           /\ (exists evs1,
                  log w1 = log w ++ evs1
                  /\ saves evs1 = []
                  /\ evs = evs1 ++ [writing_message cfg;
                                    EvSaveJson (rushLinkJsonFilename cfg) manifest])
           /\ fs (snd (_linkProjects cfg w)) !! rushLinkJsonFilename cfg
              = Some (FsFile (RushLinkJsonFile manifest)))
    /\ (forall error w1,
           linkAll cfg (projects cfg) (mkRushLinkJson ∅) w = (inl error, w1) ->
           _linkProjects cfg w = (Rejected error, w1)
           /\ saves evs = []
           /\ (rushLinkJsonFilename cfg ∉ written_paths evs ->
               fs w1 !! rushLinkJsonFilename cfg = fs w !! rushLinkJsonFilename cfg)
           /\ exists pre project post rushLinkJsonP wP,
               projects cfg = pre ++ project :: post
               /\ linkAll cfg pre (mkRushLinkJson ∅) w = (inr rushLinkJsonP, wP)
               /\ linkOne cfg project rushLinkJsonP wP = (inl error, w1)
               /\ (~ is_conflict error -> fs w1 = fs wP)
               /\ (forall p, is_Some (fs wP !! p) -> is_Some (fs w1 !! p))).
Proof.
  destruct (traced_linkAll cfg (projects cfg) (mkRushLinkJson ∅) w)
    as (evs1 & Hl1 & Hf1 & Hq1).
  pose proof (linkProjects_spec cfg w) as Hspec.
  destruct (linkAll cfg (projects cfg) (mkRushLinkJson ∅) w) as [[e|manifest] w1] eqn:Hall;
    cbn [snd] in Hl1, Hf1.
  - exists evs1. rewrite Hspec. cbn [fst snd]. repeat split; try assumption.
    + discriminate.
    + discriminate.
    + discriminate.
    + discriminate.
    + inversion H; subst. reflexivity.
    + now apply saves_no_save.
    + inversion H; subst. intros Hnot. rewrite Hf1. now apply replay_lookup_notin.
    + inversion H; subst error w0.
      destruct (linkAll_inl _ _ _ _ _ _ Hall) as (pre & P & post & rljP & wP & Hsplit & Hpre & HP).
      exists pre, P, post, rljP, wP. repeat split; try assumption.
      * intros Hnc. apply linkOne_inl in HP as [[_ ->]|Hc]; [reflexivity|contradiction].
      * intros p Hp. destruct (traced_linkOne cfg P rljP wP) as (evsP & _ & HfP & _).
        rewrite HP in HfP. cbn [snd] in HfP. rewrite HfP.
        now apply replay_lookup_is_Some.
  - exists (evs1 ++ [writing_message cfg; EvSaveJson (rushLinkJsonFilename cfg) manifest]).
    rewrite Hspec. cbn [fst snd fs log]. rewrite Hl1, replay_app, <- Hf1.
    split; [list_eq|]. split; [reflexivity|]. split.
    + intros m w2 [= <- <-]. split; [reflexivity|]. split; [|split].
      * now rewrite saves_app, (saves_no_save _ Hq1).
      * exists evs1. split; [exact Hl1|]. split; [now apply saves_no_save|reflexivity].
      * apply lookup_insert_eq.
    + discriminate.
Qed.

Lemma manifest_saved_once_after_all_projects_witness :
  (exists manifest,
      fst (_linkProjects Scenario.cfg Scenario.world) = Resolved
      /\ saves (log Scenario.world_after) = [("/repo/common/temp/rush-link.json", manifest)])
  /\ fst (_linkProjects Scenario.staleCfg Scenario.world) = Rejected (ConfigurationError "b" "a")
  /\ saves (log (snd (_linkProjects Scenario.staleCfg Scenario.world))) = []
  /\ fs (snd (_linkProjects Scenario.staleCfg Scenario.world)) = Scenario.disk.
Proof.
  assert (linkAll Scenario.cfg (projects Scenario.cfg) (mkRushLinkJson ∅) Scenario.world
          = (inr (record_links "a" ["b"] (mkRushLinkJson ∅)),
             snd (linkAll Scenario.cfg (projects Scenario.cfg) (mkRushLinkJson ∅)
                          Scenario.world))) as Hall by fst_by_evaluation.
  assert (linkAll Scenario.staleCfg (projects Scenario.staleCfg) (mkRushLinkJson ∅)
                  Scenario.world
          = (inl (ConfigurationError "b" "a"),
             snd (linkAll Scenario.staleCfg (projects Scenario.staleCfg) (mkRushLinkJson ∅)
                          Scenario.world)))
    as Hstale by fst_by_evaluation.
  split.
  - destruct (manifest_saved_once_after_all_projects Scenario.cfg Scenario.world)
      as (evs & Hl & _ & Hok & _).
    destruct (Hok _ _ Hall) as (Hres & Hsaves & _).
    eexists. split; [exact Hres|]. rewrite Hl.
    rewrite saves_app. exact Hsaves.
  - destruct (manifest_saved_once_after_all_projects Scenario.staleCfg Scenario.world)
      as (evs & Hl & _ & _ & Hfail).
    destruct (Hfail _ _ Hstale)
      as (Hrej & Hsaves & _ & pre & P & post & rljP & wP & Hsplit & Hpre & HP & Hsame & _).
    rewrite Hrej. cbn [fst snd]. rewrite Hrej in Hl. cbn [snd] in Hl.
    split; [reflexivity|]. split; [rewrite Hl, saves_app, Hsaves; reflexivity|].
    destruct pre as [|Q pre]; [|destruct pre; discriminate Hsplit].
    inversion Hpre; subst wP. apply Hsame. intros [l Hl']. discriminate Hl'.
Defined.



(** C5 (the code at an input where it fails).  The project [constructor]
    declares the internal dependencies [b], a project of the configuration,
    and [zzz], which matches none.  The run is rejected, but with the
    [TypeError] that line 96 throws at the turn of [b], not with the
    configuration error for [zzz]: the link manifest is the plain object of
    line 29, and what line 91 finds in it under the name [constructor] is
    the member that every object inherits.  With the project renamed to
    [builder], the same staging manifest on the same disk is rejected with
    the configuration error for [zzz]. *)
Theorem inherited_name_hides_the_configuration_error :
  rushDependencyNames Scenario.stagingConstructor = ["b"; "zzz"]
  /\ getProjectByName Scenario.cfgInherited "b" = Some Scenario.projectB
  /\ getProjectByName Scenario.cfgInherited "zzz" = None
  /\ stagingManifest Scenario.cfgInherited Scenario.projectConstructor
                     (fs Scenario.worldInherited)
     = Some Scenario.stagingConstructor
  /\ fst (_linkProjects Scenario.cfgInherited Scenario.worldInherited)
     = Rejected (TypeError "localLinks.push is not a function")
  /\ fst (_linkProjects Scenario.cfgRenamed Scenario.worldInherited)
     = Rejected (ConfigurationError "zzz" "builder").
Proof. split_all; by_evaluation. Qed.

(** C6.  A run that succeeds, followed by a second run on the disk that the
    first one left: when the first run wrote no path twice (the paths of
    the projects are disjoint) and wrote none of the paths that linking
    reads (the staging manifests, the locations of the regular dependencies
    and the common [.bin] folder, with the paths that their symlinks lead
    through), the second run succeeds as well, leaves the disk exactly as
    the first run left it, and saves the same link manifest, which is the
    one that the disk holds. *)
Theorem linking_twice_changes_nothing cfg w0 w1 evs :
  _linkProjects cfg w0 = (Resolved, w1) ->
  log w1 = log w0 ++ evs ->
  NoDup (written_paths evs) ->
  (forall p, p ∈ inputs cfg (fs w0) -> p ∉ written_paths evs) ->
  exists w2 evs2 manifest,
    _linkProjects cfg w1 = (Resolved, w2)
    /\ fs w2 = fs w1
    /\ log w2 = log w1 ++ evs2
    /\ saves evs = [(rushLinkJsonFilename cfg, manifest)]
    /\ saves evs2 = [(rushLinkJsonFilename cfg, manifest)]
    /\ fs w1 !! rushLinkJsonFilename cfg = Some (FsFile (RushLinkJsonFile manifest)).
Proof.
  intros Hrun Hlog Hnd Hin.
  rewrite linkProjects_spec in Hrun.
  destruct (linkAll cfg (projects cfg) (mkRushLinkJson ∅) w0) as [[e|manifest] wL] eqn:Hall;
    [discriminate|].
  injection Hrun as <-. cbn [log fs] in *.
  destruct (traced_linkAll cfg (projects cfg) (mkRushLinkJson ∅) w0) as (evsL & HlL & HfL & HqL).
  rewrite Hall in HlL, HfL. cbn [snd] in HlL, HfL.
  assert (evs = evsL ++ [writing_message cfg; EvSaveJson (rushLinkJsonFilename cfg) manifest])
    as Hevs.
  { rewrite HlL, <- app_assoc in Hlog. now apply app_inv_head in Hlog. }
  set (F := <[rushLinkJsonFilename cfg := FsFile (RushLinkJsonFile manifest)]> (fs wL)).
  assert (F = replay evs (fs w0)) as HF.
  { rewrite Hevs, replay_app, <- HfL. reflexivity. }
  assert (F !! rushLinkJsonFilename cfg = Some (FsFile (RushLinkJsonFile manifest))) as Hfile
      by apply lookup_insert_eq.
  destruct (linkAll_in_place cfg (fs w0) F (fun p => p ∈ written_paths evs))
    with (l := projects cfg) (rushLinkJson := mkRushLinkJson ∅) (wA := w0)
         (rushLinkJson' := manifest) (wA' := wL) (evsSeg := evsL)
         (wB := mkWorld F (log wL ++ [writing_message cfg;
                                      EvSaveJson (rushLinkJsonFilename cfg) manifest]))
    as (wB' & HB' & HfB'); try assumption; try reflexivity.
  - intros p Hp. rewrite HF. symmetry. now apply replay_lookup_notin.
  - intros p Hp. reflexivity.
  - intros p Hp. rewrite HF. now apply replay_lookup_is_Some.
  - intros P HP q Hq. apply Hin. unfold inputs. apply list_elem_of_In, in_flat_map.
    exists P. split; now apply list_elem_of_In.
  - intros p Hp.
    assert (p ∈ written_paths evs) as Hp'
        by (rewrite Hevs, written_paths_app; apply elem_of_app; now left).
    split; [exact Hp'|]. rewrite HF. now apply replay_written_is_Some.
  - intros t L k Hev. rewrite HF. apply (replay_lookup_once _ _ _ _ k Hnd).
    rewrite Hevs. apply elem_of_app. now left.
  - destruct (traced_linkAll cfg (projects cfg) (mkRushLinkJson ∅)
                (mkWorld F (log wL ++ [writing_message cfg;
                                       EvSaveJson (rushLinkJsonFilename cfg) manifest])))
      as (evsB & HlB & _ & HqB).
    rewrite HB' in HlB. cbn [snd log] in HlB.
    eexists _, (evsB ++ [writing_message cfg; EvSaveJson (rushLinkJsonFilename cfg) manifest]),
      manifest.
    split; [rewrite linkProjects_spec, HB'; reflexivity|]. cbn [fs log].
    split; [rewrite HfB'; now apply insert_id|].
    split; [rewrite HlB; list_eq|].
    split; [rewrite Hevs, saves_app, (saves_no_save _ HqL); reflexivity|].
    split; [rewrite saves_app, (saves_no_save _ HqB); reflexivity|exact Hfile].
Qed.

Lemma linking_twice_changes_nothing_witness :
  _linkProjects Scenario.cfg Scenario.world = (Resolved, Scenario.world_after)
  /\ log Scenario.world_after = log Scenario.world ++ log Scenario.world_after
  /\ NoDup (written_paths (log Scenario.world_after))
  /\ (forall p, p ∈ inputs Scenario.cfg (fs Scenario.world) ->
                p ∉ written_paths (log Scenario.world_after))
  /\ fst (_linkProjects Scenario.cfg Scenario.world_after) = Resolved
  /\ fs Scenario.world_after_twice = fs Scenario.world_after.
Proof.
  assert (_linkProjects Scenario.cfg Scenario.world = (Resolved, Scenario.world_after)) as H1
      by fst_by_evaluation.
  assert (log Scenario.world_after = log Scenario.world ++ log Scenario.world_after) as H2
      by reflexivity.
  assert (NoDup (written_paths (log Scenario.world_after))) as H3
      by (apply (bool_decide_unpack _); vm_compute; exact I).
  assert (forall p, p ∈ inputs Scenario.cfg (fs Scenario.world) ->
                    p ∉ written_paths (log Scenario.world_after)) as H4
      by (apply Forall_forall; apply (bool_decide_unpack _); vm_compute; exact I).
  split; [exact H1|]. split; [exact H2|]. split; [exact H3|]. split; [exact H4|].
  destruct (linking_twice_changes_nothing _ _ _ _ H1 H2 H3 H4)
    as (w2 & evs2 & manifest & Hrun2 & Hfs & _).
  rewrite Hrun2. split; [reflexivity|exact Hfs].
Defined.

(** C7.  [addChild] (modelled from the specification) throws, for a child
    whose name is among the names of the children of the parent, an error
    that carries the name of the parent and the duplicate name, and appends
    the child otherwise.  In the linking of a project every regular
    dependency is added with [addChild].  An internal dependency is appended
    directly, and when its turn comes its name is never among the children:
    the names come from the keys of one object and the root starts without
    children.  So whenever linking would add a child under a name that is
    taken, it fails with that error, and a tree that linking returns has no
    two children of one name. *)
Theorem duplicate_child_fails_fast cfg project rushLinkJson w pj :
  stagingManifest cfg project (fs w) = Some pj ->
  (forall pkg child w1,
      name child ∈ child_names pkg ->
      addChild pkg child w1 = (inl (DuplicateChildError (name pkg) (name child)), w1))
  /\ (forall pkg child w1,
         name child ∉ child_names pkg ->
         addChild pkg child w1 = (inr (children_push pkg child), w1))
  /\ (forall before d after localPackage rushLinkJson1 w1,
         rushDependencyNames pj = before ++ d :: after ->
         foldM (linkRushDependency cfg project) before
               (projectRoot project pj, rushLinkJson) w
         = (inr (localPackage, rushLinkJson1), w1) ->
         d ∉ child_names localPackage)
  /\ (forall d localPackage w1,
         installed_as_symlink (fs w1) (Path.join [pathToLocalInstallation cfg project; d])
         = true ->
         linkDependency (pathToLocalInstallation cfg project) d localPackage w1
         = addChild localPackage
                    (depChild (folderPath localPackage)
                              (pathToLocalInstallation cfg project) d) w1)
  /\ (forall localPackage rushLinkJson' w',
         buildLocalPackage cfg project rushLinkJson w
         = (inr (localPackage, rushLinkJson'), w') ->
         NoDup (child_names localPackage)).
Proof.
  intros Hs. split; [|split; [|split; [|split]]].
  - intros pkg child w1 Hin. unfold addChild. now rewrite bool_decide_eq_true_2.
  - intros pkg child w1 Hin. unfold addChild. now rewrite bool_decide_eq_false_2.
  - intros before d after T rlj1 w1 Hkeys Hloop. rewrite rush_loop in Hloop.
    destruct (push_fails _ _ _ before); [discriminate|].
    destruct (List.find _ before) eqn:Hf; [discriminate|].
    apply find_unknown_None in Hf. inversion Hloop; subst.
    unfold child_names. cbn. rewrite (rushChildren_names _ _ _ Hf).
    pose proof (Object_keys_NoDup (or_empty (rushDependencies pj))) as Hnd.
    fold (rushDependencyNames pj) in Hnd. rewrite Hkeys in Hnd.
    apply NoDup_app in Hnd as (_ & Hdisj & _). intros Hin.
    apply (Hdisj _ Hin). now left.
  - intros d T w1 Hi. rewrite linkDependency_spec, (linkDependency_result_ok _ _ _ _ Hi).
    unfold addChild. cbn [name depChild]. case_bool_decide; reflexivity.
  - intros T rlj' w' Hb. rewrite buildLocalPackage_spec, Hs in Hb.
    inversion Hb as [[Hp Hw]].
    destruct (planProject_inr _ _ _ _ _ _ _ Hp) as (Hknown & -> & _ & _ & Hnd).
    unfold child_names. cbn [children]. rewrite map_app, (rushChildren_names _ _ _ Hknown).
    rewrite map_map. cbn. now rewrite map_id.
Qed.

Lemma duplicate_child_fails_fast_witness :
  stagingManifest Scenario.cfg Scenario.projectA Scenario.diskTwice
  = Some Scenario.stagingTwice
  /\ addChild (with_children (projectRoot Scenario.projectA Scenario.stagingTwice)
                             [rushChild "/repo/tools/a" "b" Scenario.projectB])
              (depChild "/repo/tools/a"
                        (pathToLocalInstallation Scenario.cfg Scenario.projectA) "b")
              (mkWorld Scenario.diskTwice [])
     = (inl (DuplicateChildError "a" "b"), mkWorld Scenario.diskTwice []).
Proof.
  assert (stagingManifest Scenario.cfg Scenario.projectA
            (fs (mkWorld Scenario.diskTwice []))
          = Some Scenario.stagingTwice) as Hs by by_evaluation.
  split; [exact Hs|].
  destruct (duplicate_child_fails_fast Scenario.cfg Scenario.projectA (mkRushLinkJson ∅)
              (mkWorld Scenario.diskTwice []) Scenario.stagingTwice Hs) as (Hdup & _).
  apply (Hdup (with_children (projectRoot Scenario.projectA Scenario.stagingTwice)
                             [rushChild "/repo/tools/a" "b" Scenario.projectB])
              (depChild "/repo/tools/a"
                        (pathToLocalInstallation Scenario.cfg Scenario.projectA) "b")).
  apply list_elem_of_In. now left.
Defined.

(** C8.  The tree that linking builds for a project: the root is the project
    folder and has no symlink target; its children are the internal
    dependencies followed by the regular dependencies of the staging
    manifest, one node each; every child has a symlink target and no
    children, so the tree has depth one at most.  The walk (modelled from
    the specification) turns a node with a symlink target into one symlink
    and does not look at its children, whatever they are; for this tree it
    makes one symlink per child and nothing else below the project's
    [node_modules] folder. *)
Theorem flattened_tree_has_depth_one
        cfg project rushLinkJson w localPackage rushLinkJson' w' :
  buildLocalPackage cfg project rushLinkJson w = (inr (localPackage, rushLinkJson'), w') ->
  exists pj,
    stagingManifest cfg project (fs w) = Some pj
    /\ folderPath localPackage = projectFolder project
    /\ symlinkTargetFolderPath localPackage = None
    /\ map name (children localPackage) = rushDependencyNames pj ++ dependencyNames pj
    /\ Forall (fun c => is_Some (symlinkTargetFolderPath c) /\ children c = [])
              (children localPackage)
    /\ depth localPackage <= 1
    /\ (forall c target,
           symlinkTargetFolderPath c = Some target ->
           createSymlinksForDependencies c
           = _createSymlink target (folderPath c) SymlinkDirectory)
    /\ length (links_of localPackage) = length (children localPackage)
    /\ (forall u w'',
           _createSymlinksForTopLevelProject localPackage w' = (inr u, w'') ->
           log w'' = log w' ++ mkdir_events (fs w') (nodeModulesFolder project)
                           ++ map link_event (links_of localPackage)).
Proof.
  intros H. pose proof H as Hb. rewrite buildLocalPackage_spec in H.
  destruct (stagingManifest cfg project (fs w)) as [pj|]; [|discriminate].
  inversion H as [[Hp Hw]]. exists pj. split; [reflexivity|].
  destruct (planProject_leaves _ _ _ _ _ _ _ Hp) as (Hleaves & Hfolder & Htarget).
  destruct (planProject_inr _ _ _ _ _ _ _ Hp) as (Hknown & HT & _).
  assert (length (links_of localPackage) = length (children localPackage)) as Hlen.
  { unfold links_of. clear -Hleaves. induction Hleaves as [|c l [[t Ht] _] _ IH];
      [reflexivity|]. rewrite (child_links_cons _ _ _ Ht). cbn. now rewrite IH. }
  repeat split; try assumption.
  - rewrite HT. cbn [children]. rewrite map_app, (rushChildren_names _ _ _ Hknown).
    f_equal. rewrite map_map. cbn. apply map_id.
  - destruct localPackage as [n v f s l p]. cbn [children] in Hleaves. cbn. clear -Hleaves.
    induction Hleaves as [|c l [_ Hc] _ IH]; [lia|].
    destruct c as [cn cv cf cs cl cp]. cbn in Hc. subst cl. cbn. lia.
  - intros c target. apply createSymlinksForDependencies_leaf.
  - intros u w'' Hwalk. unfold _createSymlinksForTopLevelProject in Hwalk.
    apply bind_inr_inv in Hwalk as ([] & w1 & H1 & H2).
    rewrite ensureFolder_spec, Hfolder in H1. inversion H1; subst w1.
    apply (walk_leaves _ Hleaves) in H2 as [-> _]. cbn [log fs].
    unfold links_of, nodeModulesFolder. now rewrite app_assoc.
Qed.

Lemma flattened_tree_has_depth_one_witness :
  buildLocalPackage Scenario.cfg Scenario.projectA (mkRushLinkJson ∅) Scenario.world
  = (inr (Scenario.treeOfA, record_links "a" ["b"] (mkRushLinkJson ∅)),
     logged Scenario.world
            (EvReadJson (packageJsonFilename Scenario.cfg Scenario.projectA)))
  /\ map name (children Scenario.treeOfA) = ["b"; "lodash"]
  /\ depth Scenario.treeOfA <= 1.
Proof.
  assert (buildLocalPackage Scenario.cfg Scenario.projectA (mkRushLinkJson ∅) Scenario.world
          = (inr (Scenario.treeOfA, record_links "a" ["b"] (mkRushLinkJson ∅)),
             logged Scenario.world
                    (EvReadJson (packageJsonFilename Scenario.cfg Scenario.projectA))))
    as H.
  { rewrite buildLocalPackage_spec.
    assert (stagingManifest Scenario.cfg Scenario.projectA (fs Scenario.world)
            = Some Scenario.stagingA) as -> by by_evaluation.
    assert (planProject Scenario.cfg Scenario.projectA (mkRushLinkJson ∅)
                        (fs Scenario.world) Scenario.stagingA
            = inr (Scenario.treeOfA, record_links "a" ["b"] (mkRushLinkJson ∅)))
      as -> by by_evaluation.
    reflexivity. }
  split; [exact H|].
  destruct (flattened_tree_has_depth_one _ _ _ _ _ _ _ H)
    as (pj & _ & _ & _ & _ & _ & Hdepth & _).
  split; [reflexivity|exact Hdepth].
Defined.

(** C9.  The diagnostic flag is off.  Take two worlds with the same log
    whose disks differ at most in the contents of the regular dependencies'
    own manifests (the [package.json] of every regular dependency where the
    backend has installed it for a project), where no symlink leads to a
    path at which the disks differ and none of these manifests is at a path
    that a run consults anyway (a staging manifest, a project folder, the
    common [.bin] folder).  Then the two runs end alike: the same promise
    result, the same log (the same folders and symlinks made with the same
    targets, the same link manifest saved), and disks that still differ at
    most in those contents.  The only files that a run reads are staging
    manifests of the projects, none of them a dependency's own manifest; the
    tree of every project is the same on both disks, and the node of a
    regular dependency has no version and the backend's location of the
    dependency as its target. *)
Theorem dependency_manifests_do_not_matter cfg w1 w2 :
  related (own_manifests cfg (fs w1)) w1 w2 ->
  (forall p, p ∈ consulted cfg -> p ∉ own_manifests cfg (fs w1)) ->
  DEBUG = false
  /\ fst (_linkProjects cfg w1) = fst (_linkProjects cfg w2)
  /\ log (snd (_linkProjects cfg w1)) = log (snd (_linkProjects cfg w2))
  /\ same_but_contents (own_manifests cfg (fs w1))
                       (fs (snd (_linkProjects cfg w1))) (fs (snd (_linkProjects cfg w2)))
  /\ (exists evs,
         log (snd (_linkProjects cfg w1)) = log w1 ++ evs
         /\ forall p, p ∈ reads evs ->
                      (p ∉ own_manifests cfg (fs w1))
                      /\ exists project, project ∈ projects cfg
                                         /\ p = packageJsonFilename cfg project)
  /\ (forall project rushLinkJson,
         project ∈ projects cfg ->
         fst (buildLocalPackage cfg project rushLinkJson w1)
         = fst (buildLocalPackage cfg project rushLinkJson w2))
  /\ (forall project rushLinkJson localPackage rushLinkJson' w' pj d,
         buildLocalPackage cfg project rushLinkJson w1
         = (inr (localPackage, rushLinkJson'), w') ->
         stagingManifest cfg project (fs w1) = Some pj ->
         d ∈ dependencyNames pj ->
         exists c, c ∈ children localPackage
                   /\ name c = d
                   /\ version c = None
                   /\ symlinkTargetFolderPath c
                      = Some (Path.join [pathToLocalInstallation cfg project; d])).
Proof.
  intros Hrel Hout.
  destruct (related_linkProjects _ cfg Hout w1 w2 Hrel) as (Hr & (Hl & Hs & _) & _).
  split; [reflexivity|]. split; [exact Hr|]. split; [exact Hl|]. split; [exact Hs|].
  split; [|split].
  - assert (exists evs, log (snd (_linkProjects cfg w1)) = log w1 ++ evs
                        /\ forall p, p ∈ reads evs ->
                                     exists project, project ∈ projects cfg
                                                     /\ p = packageJsonFilename cfg project)
      as (evs & Hlog & Hreads).
    { rewrite linkProjects_spec.
      destruct (linkAll_events cfg (projects cfg) (mkRushLinkJson ∅) w1)
        as (evsL & HlL & _ & HqL).
      destruct (linkAll cfg (projects cfg) _ w1) as [[e|manifest] wL]; cbn [snd log] in *.
      - exists evsL. split; [exact HlL|]. intros p. now apply reads_link_events.
      - exists (evsL ++ [writing_message cfg; EvSaveJson (rushLinkJsonFilename cfg) manifest]).
        split; [rewrite HlL; list_eq|]. intros p. rewrite reads_app. cbn [reads writing_message].
        rewrite app_nil_r. now apply reads_link_events. }
    exists evs. split; [exact Hlog|]. intros p Hp.
    destruct (Hreads p Hp) as (project & HP & ->).
    split; [|now exists project]. now apply (staging_outside _ cfg Hout).
  - intros project rushLinkJson HP.
    now apply (related_buildLocalPackage _ cfg Hout).
  - intros project rushLinkJson localPackage rushLinkJson' w' pj d Hb Hs' Hd.
    rewrite buildLocalPackage_spec, Hs' in Hb. injection Hb as Hp _.
    eexists. split; [eapply planProject_dependency; eassumption|].
    split_all; reflexivity.
Qed.

Lemma dependency_manifests_do_not_matter_witness :
  related (own_manifests Scenario.cfg (fs (Scenario.worldWith "1.0.0")))
          (Scenario.worldWith "1.0.0") (Scenario.worldWith "9.9.9")
  /\ (forall p, p ∈ consulted Scenario.cfg ->
                p ∉ own_manifests Scenario.cfg (fs (Scenario.worldWith "1.0.0")))
  /\ fs (Scenario.worldWith "1.0.0") !! Scenario.lodashManifestOfA
     <> fs (Scenario.worldWith "9.9.9") !! Scenario.lodashManifestOfA
  /\ fst (_linkProjects Scenario.cfg (Scenario.worldWith "1.0.0")) = Resolved
  /\ fst (_linkProjects Scenario.cfg (Scenario.worldWith "9.9.9")) = Resolved
  /\ log (snd (_linkProjects Scenario.cfg (Scenario.worldWith "1.0.0")))
     = log (snd (_linkProjects Scenario.cfg (Scenario.worldWith "9.9.9"))).
Proof.
  assert (own_manifests Scenario.cfg (fs (Scenario.worldWith "1.0.0"))
          = [Scenario.lodashManifestOfA;
             Path.join [Scenario.lodashOfB; RushConstants.packageJsonFilename]]) as HS
      by by_evaluation.
  assert (related (own_manifests Scenario.cfg (fs (Scenario.worldWith "1.0.0")))
                  (Scenario.worldWith "1.0.0") (Scenario.worldWith "9.9.9")) as H1.
  { rewrite HS. apply related_editions; [now left|].
    apply (bool_decide_eq_true_1 _). by_evaluation. }
  assert (forall p, p ∈ consulted Scenario.cfg ->
                    p ∉ own_manifests Scenario.cfg (fs (Scenario.worldWith "1.0.0"))) as H2.
  { rewrite HS. apply Forall_forall. apply (bool_decide_eq_true_1 _). by_evaluation. }
  destruct (dependency_manifests_do_not_matter _ _ _ H1 H2) as (_ & Hr & Hl & _).
  split; [exact H1|]. split; [exact H2|]. split.
  - unfold Scenario.worldWith. cbn [fs]. rewrite !lookup_insert_eq. intros [=].
  - split; [by_evaluation|]. split; [rewrite <- Hr; by_evaluation|exact Hl].
Defined.

(** ** Further properties of the code *)

(** X1.  Line 138 of [_linkProject] splits the path of the tarball at
    [path.sep] and joins the pieces with [/].  With the POSIX separator
    this gives the path back, whatever it is, so what is encoded for the
    folder of the backend is the path of the tarball as [path.join]
    returns it. *)
Theorem split_then_join_gives_the_path_back :
  (forall s, Path.join_with "/" (Path.split Path.sep s) = s)
  /\ forall cfg project,
       pathToLocalInstallation cfg project
       = Path.join [commonTempFolder cfg; RushConstants.nodeModulesFolderName; ".local";
                    UriEncode.uriEncode
                      (Path.join [commonTempFolder cfg; "projects";
                                  unscopedTempProjectName project +:+ ".tgz"]);
                    RushConstants.nodeModulesFolderName].
Proof.
  split; [exact join_split|]. intros cfg project.
  unfold pathToLocalInstallation. cbv zeta. now rewrite join_split.
Qed.

(** X2.  What [uriEncode] returns is made of unreserved characters
    (letters, digits, [-], [_], [.], [~]) and [%] alone.  It holds no path
    separator, so the encoded path of the tarball is one segment of the
    path of the local installation folder; and it is the string encoded
    exactly when every character of that string is unreserved. *)
Theorem encoded_path_is_one_segment s :
  Forall (fun a => UriEncode.is_unreserved a = true \/ a = "%"%char)
         (list_ascii_of_string (UriEncode.uriEncode s))
  /\ sep_free (UriEncode.uriEncode s) = true
  /\ Path.split Path.sep (UriEncode.uriEncode s) = [UriEncode.uriEncode s]
  /\ (all_unreserved s = true <-> UriEncode.uriEncode s = s).
Proof.
  split; [apply uriEncode_alphabet|]. split; [apply uriEncode_sep_free|].
  split; [apply split_sep_free, uriEncode_sep_free|].
  apply all_unreserved_fixed.
Qed.

(** X3.  [uriEncode] loses nothing: two different strings are encoded
    differently. *)
Theorem different_paths_are_encoded_differently s1 s2 :
  s1 <> s2 -> UriEncode.uriEncode s1 <> UriEncode.uriEncode s2.
Proof. intros Hne H. now apply Hne, uriEncode_inj. Qed.

Lemma different_paths_are_encoded_differently_witness :
  "a/b" <> "a%2Fb"
  /\ UriEncode.uriEncode "a/b" = "a%2Fb"
  /\ UriEncode.uriEncode "a/b" <> UriEncode.uriEncode "a%2Fb".
Proof.
  assert ("a/b" <> "a%2Fb") as H by discriminate.
  split; [exact H|]. split; [reflexivity|].
  exact (different_paths_are_encoded_differently "a/b" "a%2Fb" H).
Defined.

(** X4.  Two projects whose unscoped temporary names differ and hold no
    path separator have different local installation folders (lines
    132-147), whatever the common temporary folder: the locations where the
    regular dependencies of one project are looked up are not under the
    folder of the other. *)
Theorem local_installation_folders_differ cfg project1 project2 :
  sep_free (unscopedTempProjectName project1) = true ->
  sep_free (unscopedTempProjectName project2) = true ->
  unscopedTempProjectName project1 <> unscopedTempProjectName project2 ->
  pathToLocalInstallation cfg project1 <> pathToLocalInstallation cfg project2.
Proof.
  intros H1 H2 Hne H. apply Hne.
  destruct (pathToLocalInstallation_shape cfg) as [pre Hpre].
  rewrite (Hpre _ H1), (Hpre _ H2) in H.
  apply append_inv_head, append_inv_head, append_inv_tail, uriEncode_inj in H.
  apply append_inv_head, append_inv_head in H.
  now apply append_inv_tail in H.
Qed.

Lemma local_installation_folders_differ_witness :
  sep_free (unscopedTempProjectName Scenario.projectA) = true
  /\ sep_free (unscopedTempProjectName Scenario.projectB) = true
  /\ unscopedTempProjectName Scenario.projectA <> unscopedTempProjectName Scenario.projectB
  /\ pathToLocalInstallation Scenario.cfg Scenario.projectA
     <> pathToLocalInstallation Scenario.cfg Scenario.projectB.
Proof.
  assert (sep_free (unscopedTempProjectName Scenario.projectA) = true) as H1 by reflexivity.
  assert (sep_free (unscopedTempProjectName Scenario.projectB) = true) as H2 by reflexivity.
  assert (unscopedTempProjectName Scenario.projectA
          <> unscopedTempProjectName Scenario.projectB) as H3 by discriminate.
  split_all; try assumption.
  exact (local_installation_folders_differ Scenario.cfg _ _ H1 H2 H3).
Defined.

(** X5.  Lines 54-190 build the tree of a project only if the staging
    manifest loads, every rush dependency names a project of the
    configuration and the location of every regular dependency exists and
    is a symlink.  They do build it when, besides, no regular dependency
    has the name of a rush dependency and line 96 cannot throw: there is no
    rush dependency, or the link manifest has an entry for the project, or
    the name of the project is none that objects inherit.  When they
    throw, the error is never a conflict at a link path nor a missing path
    under [lstat]; the disk is left as it was in every case. *)
Theorem tree_is_built_when_valid cfg project rushLinkJson w :
  (forall st,
      fst (buildLocalPackage cfg project rushLinkJson w) = inr st ->
      exists pj,
        stagingManifest cfg project (fs w) = Some pj
        /\ Forall (fun d => is_Some (getProjectByName cfg d)) (rushDependencyNames pj)
        /\ Forall (fun d => installed_as_symlink
                              (fs w) (Path.join [pathToLocalInstallation cfg project; d])
                            = true)
                  (dependencyNames pj))
  /\ (forall pj,
         stagingManifest cfg project (fs w) = Some pj ->
         Forall (fun d => is_Some (getProjectByName cfg d)) (rushDependencyNames pj) ->
         Forall (fun d => installed_as_symlink
                            (fs w) (Path.join [pathToLocalInstallation cfg project; d])
                          = true)
                (dependencyNames pj) ->
         (forall d, d ∈ dependencyNames pj -> d ∉ rushDependencyNames pj) ->
         (rushDependencyNames pj = []
          \/ is_Some (localLinks rushLinkJson !! localName project)
          \/ localName project ∉ Object_prototype_names) ->
         exists st, fst (buildLocalPackage cfg project rushLinkJson w) = inr st)
  /\ (forall e, fst (buildLocalPackage cfg project rushLinkJson w) = inl e ->
                validation_error e)
  /\ fs (snd (buildLocalPackage cfg project rushLinkJson w)) = fs w.
Proof.
  rewrite buildLocalPackage_spec. cbn [fst snd fs]. split_all; [| | |reflexivity].
  - intros [T rlj] H.
    destruct (stagingManifest cfg project (fs w)) as [pj|]; [|discriminate].
    exists pj. split; [reflexivity|].
    apply planProject_inr in H as (Hk & _ & _ & Hi & _).
    split; [eapply Forall_impl; [exact Hk|]; intros d; apply known_true|exact Hi].
  - intros pj -> Hk Hi Hd Hpush.
    destruct (planProject_ok cfg project rushLinkJson (fs w) pj) as [T ->];
      [| |exact Hi|exact Hd|eauto].
    + destruct (rushDependencyNames pj) as [|d keys]; [reflexivity|].
      cbn [push_fails]. destruct Hpush as [Hnil|[[l Hl]|Hn]]; [discriminate Hnil| |].
      * rewrite Hl, (bool_decide_eq_false_2 (Some l = None)) by discriminate.
        now rewrite andb_false_r.
      * rewrite (bool_decide_eq_false_2 _ Hn). now rewrite andb_false_r.
    + eapply Forall_impl; [exact Hk|]. intros d. apply known_true.
  - intros e. destruct (stagingManifest cfg project (fs w)) as [pj|].
    + apply planProject_error.
    + now intros [= <-].
Qed.

Lemma tree_is_built_when_valid_witness :
  stagingManifest Scenario.cfg Scenario.projectA (fs Scenario.world) = Some Scenario.stagingA
  /\ (localName Scenario.projectA ∉ Object_prototype_names)
  /\ exists st,
       fst (buildLocalPackage Scenario.cfg Scenario.projectA (mkRushLinkJson ∅) Scenario.world)
       = inr st.
Proof.
  assert (stagingManifest Scenario.cfg Scenario.projectA (fs Scenario.world)
          = Some Scenario.stagingA) as Hs by by_evaluation.
  assert (localName Scenario.projectA ∉ Object_prototype_names) as Hn
      by (apply (bool_decide_eq_false_1 _); by_evaluation).
  split; [exact Hs|]. split; [exact Hn|].
  destruct (tree_is_built_when_valid Scenario.cfg Scenario.projectA
              (mkRushLinkJson ∅) Scenario.world) as (_ & Hbuilt & _).
  apply (Hbuilt Scenario.stagingA Hs).
  - assert (rushDependencyNames Scenario.stagingA = ["b"]) as -> by by_evaluation.
    constructor; [|constructor]. exists Scenario.projectB. reflexivity.
  - assert (dependencyNames Scenario.stagingA = ["lodash"]) as -> by by_evaluation.
    constructor; [|constructor]. by_evaluation.
  - assert (rushDependencyNames Scenario.stagingA = ["b"]) as -> by by_evaluation.
    assert (dependencyNames Scenario.stagingA = ["lodash"]) as -> by by_evaluation.
    intros d Hd%list_elem_of_singleton Hb%list_elem_of_singleton. subst d. discriminate Hb.
  - right. right. exact Hn.
Defined.

(** X6.  The link manifest that a run saves holds no entry but for the
    names of projects of the configuration; no entry is empty, and every
    name in an entry is the package name of a project of the
    configuration.  This holds whatever the names of the projects, two of
    which may share one. *)
Theorem link_manifest_names_projects_only cfg w w' :
  _linkProjects cfg w = (Resolved, w') ->
  exists manifest,
    saves (log w') = saves (log w) ++ [(rushLinkJsonFilename cfg, manifest)]
    /\ fs w' !! rushLinkJsonFilename cfg = Some (FsFile (RushLinkJsonFile manifest))
    /\ manifest_ok cfg manifest
    /\ forall n l,
         localLinks manifest !! n = Some l ->
         l <> []
         /\ (exists project, project ∈ projects cfg /\ localName project = n)
         /\ Forall (fun d => exists matched, matched ∈ projects cfg /\ packageName matched = d) l.
Proof.
  rewrite linkProjects_spec.
  destruct (linkAll cfg (projects cfg) (mkRushLinkJson ∅) w) as [[e|manifest] w1] eqn:Hall;
    [discriminate|].
  intros [= <-]. exists manifest. cbn [fs log].
  pose proof (linkAll_saves cfg (projects cfg) (mkRushLinkJson ∅) w) as Hs.
  rewrite Hall in Hs. cbn [snd] in Hs.
  assert (manifest_ok cfg manifest) as Hok.
  { eapply linkAll_manifest_ok; [|intros n l H|exact Hall]; [auto|].
    change ((∅ : gmap string (list string)) !! n = Some l) in H.
    rewrite lookup_empty in H. discriminate H. }
  split; [rewrite saves_app, Hs; reflexivity|].
  split; [apply lookup_insert_eq|]. split; [exact Hok|].
  intros n l Hl. destruct (Hok n l Hl) as (H1 & H2 & H3). split; [exact H1|].
  split; [exact H2|]. eapply Forall_impl; [exact H3|].
  intros d [matched Hm]. apply getProjectByName_Some in Hm as [Hin Hn].
  exists matched. split; [now apply list_elem_of_In|exact Hn].
Qed.

Lemma link_manifest_names_projects_only_witness :
  _linkProjects Scenario.cfg Scenario.world = (Resolved, Scenario.world_after)
  /\ exists manifest,
       fs Scenario.world_after !! rushLinkJsonFilename Scenario.cfg
       = Some (FsFile (RushLinkJsonFile manifest))
       /\ manifest_ok Scenario.cfg manifest.
Proof.
  assert (_linkProjects Scenario.cfg Scenario.world = (Resolved, Scenario.world_after)) as H
      by fst_by_evaluation.
  split; [exact H|].
  destruct (link_manifest_names_projects_only _ _ _ H) as (manifest & _ & Hf & Hok & _).
  exists manifest. split; [exact Hf|exact Hok].
Defined.

(** X7.  A run announces and reads the projects in the order of the
    configuration: for every project that the loop of lines 31-34 reaches,
    the line [LINKING: name] (line 32) and one read of the staging manifest
    of that project; no other file is read as JSON.  When the loop gets
    through, every project was reached and the line [Writing "file"] of
    line 36 is on the console; when the loop throws, the projects reached
    are a first part of the configuration that is not empty, those after it
    are neither announced nor read, and the line [Writing] is not on the
    console. *)
Theorem projects_are_announced_and_read_in_order cfg w :
  exists evs attempted,
    log (snd (_linkProjects cfg w)) = log w ++ evs
    /\ reads evs = map (packageJsonFilename cfg) attempted
    /\ filter (fun text => linking_line text = true) (console_texts evs)
       = map linking_text attempted
    /\ match fst (linkAll cfg (projects cfg) (mkRushLinkJson ∅) w) with
       | inr _ => attempted = projects cfg /\ writing_text cfg ∈ console_texts evs
       | inl _ =>
           (exists project post,
               projects cfg = attempted ++ post /\ last attempted = Some project)
           /\ writing_text cfg ∉ console_texts evs
       end.
Proof.
  rewrite linkProjects_spec.
  destruct (linkAll_log cfg (projects cfg) (mkRushLinkJson ∅) w)
    as (evs & attempted & Hl & Hr & Hc & _ & Hm).
  destruct (linkAll cfg (projects cfg) (mkRushLinkJson ∅) w) as [[e|manifest] w1];
    cbn [fst snd log] in *.
  - exists evs, attempted. rewrite Hc, linking_lines_all.
    split_all; try assumption; try reflexivity. apply writing_text_not_linking.
  - exists (evs ++ [writing_message cfg; EvSaveJson (rushLinkJsonFilename cfg) manifest]),
      attempted.
    split; [rewrite Hl; list_eq|]. rewrite reads_app, console_texts_app, Hr, Hc.
    cbn [reads console_texts writing_message]. rewrite app_nil_r.
    split; [reflexivity|]. split.
    + rewrite filter_app, linking_lines_all.
      rewrite filter_cons_False; [now rewrite filter_nil, app_nil_r|].
      unfold linking_line, EOL. cbn. discriminate.
    + split; [exact Hm|]. apply elem_of_app. right. now left.
Qed.

(** X8.  Lines 198-204: when linking a project succeeds and the common
    [.bin] folder exists on the disk that it leaves, the [.bin] of the
    project is a symlink to the common one, and making it is the last thing
    that linking the project does. *)
Theorem bin_folder_is_linked_last cfg project rushLinkJson w rushLinkJson' w' :
  _linkProject cfg project rushLinkJson w = (inr rushLinkJson', w') ->
  existsSync (fs w') (commonBinFolder cfg) = true ->
  fs w' !! projectBinFolder project = Some (FsSymlink (commonBinFolder cfg))
  /\ exists evs,
       log w' = log w ++ evs ++ [EvSymlink (commonBinFolder cfg) (projectBinFolder project)
                                          SymlinkDirectory].
Proof.
  intros H Hbin.
  apply linkProject_success in H as (pj & T & _ & _ & Hl & Hf).
  unfold project_events, bin_events in Hl, Hf.
  set (before := replay (tree_events project (fs w) T) (fs w)) in *.
  destruct (existsSync before (commonBinFolder cfg)) eqn:Hb.
  - rewrite replay_app in Hf. fold before in Hf. cbn in Hf. split.
    + rewrite Hf. apply lookup_insert_eq.
    + exists (EvReadJson (packageJsonFilename cfg project) :: tree_events project (fs w) T).
      rewrite Hl. list_eq.
  - rewrite app_nil_r in Hf. fold before in Hf. rewrite Hf, Hb in Hbin. discriminate Hbin.
Qed.

Lemma bin_folder_is_linked_last_witness :
  fst (_linkProject Scenario.cfg Scenario.projectB (mkRushLinkJson ∅) Scenario.worldWithBin)
  = inr (mkRushLinkJson ∅)
  /\ fs (snd (_linkProject Scenario.cfg Scenario.projectB (mkRushLinkJson ∅)
                           Scenario.worldWithBin))
       !! projectBinFolder Scenario.projectB
     = Some (FsSymlink (commonBinFolder Scenario.cfg)).
Proof.
  assert (_linkProject Scenario.cfg Scenario.projectB (mkRushLinkJson ∅) Scenario.worldWithBin
          = (inr (mkRushLinkJson ∅),
             snd (_linkProject Scenario.cfg Scenario.projectB (mkRushLinkJson ∅)
                               Scenario.worldWithBin))) as H by fst_by_evaluation.
  split; [now rewrite H|].
  apply (bin_folder_is_linked_last _ _ _ _ _ _ H). by_evaluation.
Defined.

(** X9.  The tree and the link manifest of a project depend on the staging
    manifest through the names of the rush dependencies, the names of the
    regular dependencies and the version alone: the name in the staging
    manifest and the version ranges that it declares play no part.  Two
    staging manifests that agree on those, on disks that agree on the
    locations of the regular dependencies, give the same tree, the same
    link manifest, or the same error. *)
Theorem declared_ranges_play_no_part cfg project rushLinkJson w1 w2 pj1 pj2 :
  stagingManifest cfg project (fs w1) = Some pj1 ->
  stagingManifest cfg project (fs w2) = Some pj2 ->
  rushDependencyNames pj1 = rushDependencyNames pj2 ->
  dependencyNames pj1 = dependencyNames pj2 ->
  pj_version pj1 = pj_version pj2 ->
  (forall d, d ∈ dependencyNames pj1 ->
             existsSync (fs w1) (Path.join [pathToLocalInstallation cfg project; d])
             = existsSync (fs w2) (Path.join [pathToLocalInstallation cfg project; d])
             /\ stats_of <$> lstatSync (fs w1) (Path.join [pathToLocalInstallation cfg project; d])
                = stats_of <$> lstatSync (fs w2)
                                 (Path.join [pathToLocalInstallation cfg project; d])) ->
  fst (buildLocalPackage cfg project rushLinkJson w1)
  = fst (buildLocalPackage cfg project rushLinkJson w2).
Proof.
  intros H1 H2 Hr Hd Hv Hdisk. rewrite !buildLocalPackage_spec, H1, H2. cbn [fst].
  unfold planProject. rewrite <- Hr, <- Hd, <- Hv.
  destruct (List.find _ _); [reflexivity|].
  erewrite foldE_ext; [reflexivity|]. intros d T Hin.
  destruct (Hdisk d Hin) as [He Hs]. unfold linkDependency_result. rewrite He.
  destruct (lstatSync (fs w1) _) as [e1|], (lstatSync (fs w2) _) as [e2|];
    cbn in Hs; try discriminate Hs; [|reflexivity].
  injection Hs as ->. reflexivity.
Qed.

Lemma declared_ranges_play_no_part_witness :
  stagingManifest Scenario.cfg Scenario.projectB (fs Scenario.world) = Some Scenario.stagingB
  /\ stagingManifest Scenario.cfg Scenario.projectB (fs Scenario.worldWithStagingB')
     = Some Scenario.stagingB'
  /\ Scenario.stagingB <> Scenario.stagingB'
  /\ fst (buildLocalPackage Scenario.cfg Scenario.projectB (mkRushLinkJson ∅) Scenario.world)
     = fst (buildLocalPackage Scenario.cfg Scenario.projectB (mkRushLinkJson ∅)
                              Scenario.worldWithStagingB').
Proof.
  assert (stagingManifest Scenario.cfg Scenario.projectB (fs Scenario.world)
          = Some Scenario.stagingB) as H1 by by_evaluation.
  assert (stagingManifest Scenario.cfg Scenario.projectB (fs Scenario.worldWithStagingB')
          = Some Scenario.stagingB') as H2 by by_evaluation.
  split; [exact H1|]. split; [exact H2|]. split; [discriminate|].
  apply (declared_ranges_play_no_part _ _ _ _ _ _ _ H1 H2); try reflexivity.
  intros d Hd%list_elem_of_singleton. subst d. split; by_evaluation.
Defined.

(** X10.  The texts of the three errors that [_linkProject] throws (lines
    111, 162 and 167) differ from one another whatever the names and the
    paths in them, so the text tells which of the three was thrown. *)
Theorem thrown_texts_tell_the_errors_apart d1 p1 d2 l2 d3 l3 :
  message (ConfigurationError d1 p1)
  <> message (BackendInvariantViolationError NotInstalled d2 l2)
  /\ message (ConfigurationError d1 p1)
     <> message (BackendInvariantViolationError NotASymlink d3 l3)
  /\ message (BackendInvariantViolationError NotInstalled d2 l2)
     <> message (BackendInvariantViolationError NotASymlink d3 l3).
Proof.
  unfold message. repeat (rewrite append_String || rewrite append_nil_l).
  split_all; discriminate.
Qed.

(** X11.  The regular dependencies are checked in the order of
    [Object.keys], after the rush dependencies: when every rush dependency
    is known, line 96 cannot throw (there is no rush dependency, or the
    link manifest has an entry for the project, or the name of the project
    is none that objects inherit), and the first regular dependency whose
    location is missing or is not a symlink is D, none before it having the
    name of a rush dependency, linking the project throws the error of the
    backend for D, whatever the dependencies after D, and writes nothing:
    the only trace is the read of the staging manifest. *)
Theorem first_bad_regular_dependency_is_reported
        cfg project rushLinkJson w pj before d after :
  stagingManifest cfg project (fs w) = Some pj ->
  Forall (fun d' => is_Some (getProjectByName cfg d')) (rushDependencyNames pj) ->
  (rushDependencyNames pj = []
   \/ is_Some (localLinks rushLinkJson !! localName project)
   \/ localName project ∉ Object_prototype_names) ->
  dependencyNames pj = before ++ d :: after ->
  Forall (fun d' => installed_as_symlink
                      (fs w) (Path.join [pathToLocalInstallation cfg project; d']) = true
                    /\ d' ∉ rushDependencyNames pj) before ->
  installed_as_symlink (fs w) (Path.join [pathToLocalInstallation cfg project; d]) = false ->
  exists why,
    (why = NotInstalled
     <-> existsSync (fs w) (Path.join [pathToLocalInstallation cfg project; d]) = false)
    /\ _linkProject cfg project rushLinkJson w
       = (inl (BackendInvariantViolationError why d (pathToLocalInstallation cfg project)),
          logged w (EvReadJson (packageJsonFilename cfg project))).
Proof.
  intros Hs Hk Hpush Hdeps Hbefore Hbad. apply push_cannot_fail with (cfg := cfg) in Hpush.
  assert (Forall (fun d' => known cfg d' = true) (rushDependencyNames pj)) as Hk'
      by (eapply Forall_impl; [exact Hk|]; intros d'; apply known_true).
  pose proof (Object_keys_NoDup (or_empty (dependencies pj))) as Hnd.
  fold (dependencyNames pj) in Hnd. rewrite Hdeps in Hnd.
  apply NoDup_app in Hnd as (Hnd & _ & _).
  set (root := with_children
                 (createLinkedPackage (pj_name (proj_packageJson project))
                                      (Some (pj_version pj)) (projectFolder project) None)
                 (rushChildren cfg (projectFolder project) (rushDependencyNames pj))).
  destruct (linkDependency_result_bad
              (fs w) (pathToLocalInstallation cfg project) d
              (with_children root
                 (children root
                  ++ map (depChild (folderPath root) (pathToLocalInstallation cfg project))
                         before)) Hbad) as (why & Hwhy & Hiff).
  exists why. split; [exact Hiff|]. unfold _linkProject.
  apply bind_inl. rewrite buildLocalPackage_spec, Hs. unfold logged. f_equal.
  unfold planProject. unfold localName in Hpush. rewrite Hpush.
  rewrite (proj2 (find_unknown_None cfg _) Hk'), Hdeps, foldE_app.
  fold root. rewrite dep_loop_ok.
  - cbn [foldE]. now rewrite Hwhy.
  - eapply Forall_impl; [exact Hbefore|]. now intros d' [? _].
  - exact Hnd.
  - intros d' Hd'. unfold child_names, root, with_children. cbn [children].
    rewrite (rushChildren_names _ _ _ Hk'). rewrite Forall_forall in Hbefore.
    now apply Hbefore.
Qed.

Lemma first_bad_regular_dependency_is_reported_witness :
  stagingManifest Scenario.cfg Scenario.projectB (fs Scenario.worldWithFolder)
  = Some Scenario.stagingB
  /\ installed_as_symlink
       (fs Scenario.worldWithFolder)
       (Path.join [pathToLocalInstallation Scenario.cfg Scenario.projectB; "lodash"]) = false
  /\ fst (_linkProject Scenario.cfg Scenario.projectB (mkRushLinkJson ∅)
                       Scenario.worldWithFolder)
     = inl (BackendInvariantViolationError
              NotASymlink "lodash" (pathToLocalInstallation Scenario.cfg Scenario.projectB)).
Proof.
  assert (stagingManifest Scenario.cfg Scenario.projectB (fs Scenario.worldWithFolder)
          = Some Scenario.stagingB) as Hs by by_evaluation.
  assert (installed_as_symlink
            (fs Scenario.worldWithFolder)
            (Path.join [pathToLocalInstallation Scenario.cfg Scenario.projectB; "lodash"])
          = false) as Hbad by by_evaluation.
  split; [exact Hs|]. split; [exact Hbad|].
  destruct (first_bad_regular_dependency_is_reported
              Scenario.cfg Scenario.projectB (mkRushLinkJson ∅) Scenario.worldWithFolder
              Scenario.stagingB [] "lodash" [] Hs)
    as (why & Hiff & ->); [constructor|now left|by_evaluation|constructor|exact Hbad|].
  cbn [fst]. destruct why; [|reflexivity].
  assert (existsSync (fs Scenario.worldWithFolder)
            (Path.join [pathToLocalInstallation Scenario.cfg Scenario.projectB; "lodash"])
          = true) as He by by_evaluation.
  rewrite (proj1 Hiff eq_refl) in He. discriminate He.
Defined.

(** X12.  What [path.join] returns is a normal path and is never empty:
    [path.normalize] leaves it as it is, and so does joining it alone;
    [path.normalize] itself changes nothing when it is applied twice. *)
Theorem joined_paths_are_normal :
  (forall p, Path.normalize (Path.normalize p) = Path.normalize p)
  /\ forall args,
       Path.normalize (Path.join args) = Path.join args
       /\ Path.join [Path.join args] = Path.join args
       /\ Path.join args <> "".
Proof.
  split; [exact normalize_idempotent|]. intros args.
  assert (Path.normalize (Path.join args) = Path.join args) as H.
  { unfold Path.join. destruct (filter _ args); [reflexivity|apply normalize_idempotent]. }
  split; [exact H|]. split; [|apply join_nonempty].
  unfold Path.join at 1. rewrite filter_cons_True by apply join_nonempty.
  rewrite filter_nil. exact H.
Qed.

(** X13.  A call of [path.join] on the result of another call is one call
    on all the arguments, provided that one of the inner arguments is not
    empty.  So the staging manifest of a project (lines 60-64) is at
    [commonTempFolder/projects/name/package.json], the location of a
    regular dependency (lines 142-158) is its name joined to the five
    segments of the local installation folder, the [.bin] folder of a
    project (line 200) is the [.bin] of its [node_modules] folder, and the
    link of a dependency (lines 99 and 170) is its name joined to that
    folder. *)
Theorem nested_joins_are_one_join cfg project :
  (forall args rest,
      (exists a, a ∈ args /\ a <> "") ->
      Path.join (Path.join args :: rest) = Path.join (args ++ rest))
  /\ packageJsonFilename cfg project
     = Path.join [commonTempFolder cfg; "projects"; unscopedTempProjectName project;
                  "package.json"]
  /\ (forall d,
         Path.join [pathToLocalInstallation cfg project; d]
         = Path.join [commonTempFolder cfg; "node_modules"; ".local";
                      UriEncode.uriEncode
                        (Path.join [commonTempFolder cfg; "projects";
                                    unscopedTempProjectName project +:+ ".tgz"]);
                      "node_modules"; d])
  /\ projectBinFolder project = Path.join [nodeModulesFolder project; ".bin"]
  /\ (forall d,
         Path.join [projectFolder project; "node_modules"; d]
         = Path.join [nodeModulesFolder project; d]).
Proof.
  split; [exact join_flatten|].
  assert ("projects" <> "") as H1 by discriminate.
  assert ("node_modules" <> "") as H2 by discriminate.
  split_all.
  - unfold packageJsonFilename. cbv zeta. rewrite join_flatten; [reflexivity|].
    exists "projects". split; [|exact H1]. right. now left.
  - intros d. unfold pathToLocalInstallation. cbv zeta. rewrite join_split.
    rewrite join_flatten; [reflexivity|].
    exists "node_modules". split; [|exact H2]. right. now left.
  - unfold projectBinFolder, nodeModulesFolder. rewrite join_flatten; [reflexivity|].
    exists "node_modules". split; [|exact H2]. right. now left.
  - intros d. unfold nodeModulesFolder. rewrite join_flatten; [reflexivity|].
    exists "node_modules". split; [|exact H2]. right. now left.
Qed.

(** X14.  For a dependency whose name is made of plain segments (a name
    such as [lodash], or a scoped name such as [@types/node]), the link
    that linking makes (lines 99 and 170) is the entry of that name in the
    [node_modules] folder of the project, and the location where the
    backend must have installed it (lines 156-158) is the entry of that
    name in the local installation folder. *)
Theorem dependency_paths_are_entries cfg project ps :
  ps <> [] ->
  Forall (fun p => plain_segment p = true) ps ->
  Path.join [projectFolder project; "node_modules"; Path.join_with "/" ps]
  = nodeModulesFolder project +:+ "/" +:+ Path.join_with "/" ps
  /\ Path.join [pathToLocalInstallation cfg project; Path.join_with "/" ps]
     = pathToLocalInstallation cfg project +:+ "/" +:+ Path.join_with "/" ps.
Proof.
  intros Hne Hps. split.
  - change [projectFolder project; "node_modules"; Path.join_with "/" ps]
      with ([projectFolder project; "node_modules"] ++ [Path.join_with "/" ps]).
    rewrite (join_with_segments _ ps Hne Hps).
    apply (join_plain_append (projectFolder project) ["node_modules"] ps);
      [discriminate|exact Hne|now repeat constructor|exact Hps].
  - unfold pathToLocalInstallation. cbv zeta. rewrite join_split.
    set (esc := UriEncode.uriEncode _).
    rewrite join_flatten
      by (exists "node_modules"; split; [right; now left|discriminate]).
    rewrite (join_with_segments _ ps Hne Hps).
    apply (join_plain_append (commonTempFolder cfg)
             [RushConstants.nodeModulesFolderName; ".local"; esc;
              RushConstants.nodeModulesFolderName] ps);
      [discriminate|exact Hne| |exact Hps].
    constructor; [reflexivity|]. constructor; [reflexivity|].
    constructor; [apply escaped_path_plain|]. constructor; [reflexivity|constructor].
Qed.

Lemma dependency_paths_are_entries_witness :
  Forall (fun p => plain_segment p = true) ["@types"; "node"]
  /\ Path.join [projectFolder Scenario.projectA; "node_modules"; "@types/node"]
     = "/repo/tools/a/node_modules/@types/node".
Proof.
  assert (Forall (fun p => plain_segment p = true) ["@types"; "node"]) as H
      by (constructor; [reflexivity|constructor; [reflexivity|constructor]]).
  split; [exact H|].
  destruct (dependency_paths_are_entries Scenario.cfg Scenario.projectA ["@types"; "node"])
    as [H1 _]; [discriminate|exact H|].
  cbn [Path.join_with] in H1.
  change ("@types" +:+ "/" +:+ "node") with "@types/node" in H1. rewrite H1.
  by_evaluation.
Defined.

(** X15.  Two dependencies of a project whose names are made of plain
    segments and differ have different links and different locations, and
    no link is the [node_modules] folder of the project itself. *)
Theorem dependencies_do_not_share_a_path cfg project ps1 ps2 :
  ps1 <> [] -> ps2 <> [] ->
  Forall (fun p => plain_segment p = true) ps1 ->
  Forall (fun p => plain_segment p = true) ps2 ->
  Path.join_with "/" ps1 <> Path.join_with "/" ps2 ->
  Path.join [projectFolder project; "node_modules"; Path.join_with "/" ps1]
  <> Path.join [projectFolder project; "node_modules"; Path.join_with "/" ps2]
  /\ Path.join [pathToLocalInstallation cfg project; Path.join_with "/" ps1]
     <> Path.join [pathToLocalInstallation cfg project; Path.join_with "/" ps2]
  /\ Path.join [projectFolder project; "node_modules"; Path.join_with "/" ps1]
     <> nodeModulesFolder project.
Proof.
  intros H1 H2 Hp1 Hp2 Hne.
  destruct (join_plain_tail (projectFolder project)) as [pre Hpre].
  destruct (join_plain_tail (commonTempFolder cfg)) as [pre' Hpre'].
  assert (forall ps, ps <> [] -> Forall (fun p => plain_segment p = true) ps ->
            Path.join [projectFolder project; "node_modules"; Path.join_with "/" ps]
            = pre +:+ "node_modules/" +:+ Path.join_with "/" ps) as Hlink.
  { intros ps Hn Hp.
    change [projectFolder project; "node_modules"; Path.join_with "/" ps]
      with ([projectFolder project; "node_modules"] ++ [Path.join_with "/" ps]).
    rewrite (join_with_segments _ ps Hn Hp).
    change ([projectFolder project; "node_modules"] ++ ps)
      with (projectFolder project :: "node_modules" :: ps).
    rewrite (Hpre ("node_modules" :: ps)); [|discriminate|now constructor].
    destruct ps; [contradiction|]. rewrite join_with_cons.
    repeat (rewrite append_String || rewrite append_nil_l). reflexivity. }
  set (esc := UriEncode.uriEncode
                (Path.join [commonTempFolder cfg; "projects";
                            unscopedTempProjectName project +:+ ".tgz"])).
  assert (Forall (fun p => plain_segment p = true)
                 ["node_modules"; ".local"; esc; "node_modules"]) as Hfour.
  { constructor; [reflexivity|]. constructor; [reflexivity|].
    constructor; [apply escaped_path_plain|]. constructor; [reflexivity|constructor]. }
  assert (forall ps, ps <> [] -> Forall (fun p => plain_segment p = true) ps ->
            Path.join [pathToLocalInstallation cfg project; Path.join_with "/" ps]
            = pre' +:+ Path.join_with "/" ["node_modules"; ".local"; esc; "node_modules"]
                   +:+ "/" +:+ Path.join_with "/" ps) as Hloc.
  { intros ps Hn Hp. unfold pathToLocalInstallation. cbv zeta. rewrite join_split. fold esc.
    rewrite join_flatten
      by (exists "node_modules"; split; [right; now left|discriminate]).
    rewrite (join_with_segments _ ps Hn Hp).
    unfold RushConstants.nodeModulesFolderName.
    change ([commonTempFolder cfg; "node_modules"; ".local"; esc; "node_modules"] ++ ps)
      with (commonTempFolder cfg :: ["node_modules"; ".local"; esc; "node_modules"] ++ ps).
    rewrite (Hpre' (["node_modules"; ".local"; esc; "node_modules"] ++ ps));
      [|discriminate|now apply Forall_app].
    rewrite join_with_app by (discriminate || exact Hn). reflexivity. }
  split_all.
  - rewrite (Hlink _ H1 Hp1), (Hlink _ H2 Hp2). intros H. apply Hne.
    now apply append_inv_head, append_inv_head in H.
  - rewrite (Hloc _ H1 Hp1), (Hloc _ H2 Hp2). intros H. apply Hne.
    now apply append_inv_head, append_inv_head, append_inv_head in H.
  - rewrite (Hlink _ H1 Hp1). unfold nodeModulesFolder.
    rewrite (Hpre ["node_modules"]); [|discriminate|now repeat constructor].
    cbn [Path.join_with]. intros H. apply append_inv_head in H.
    apply (f_equal String.length) in H. rewrite append_length in H.
    assert (Path.join_with "/" ps1 <> "") as Hd
        by (apply (join_plain_nonempty [] ps1); assumption).
    destruct (Path.join_with "/" ps1); [contradiction|]. cbn in H. lia.
Qed.

Lemma dependencies_do_not_share_a_path_witness :
  Forall (fun p => plain_segment p = true) ["lodash"]
  /\ Forall (fun p => plain_segment p = true) ["@types"; "node"]
  /\ Path.join [projectFolder Scenario.projectA; "node_modules"; "lodash"]
     <> Path.join [projectFolder Scenario.projectA; "node_modules"; "@types/node"].
Proof.
  assert (Forall (fun p => plain_segment p = true) ["lodash"]) as H1
      by (constructor; [reflexivity|constructor]).
  assert (Forall (fun p => plain_segment p = true) ["@types"; "node"]) as H2
      by (constructor; [reflexivity|constructor; [reflexivity|constructor]]).
  split; [exact H1|]. split; [exact H2|].
  destruct (dependencies_do_not_share_a_path Scenario.cfg Scenario.projectA
              ["lodash"] ["@types"; "node"]) as [H _];
    [discriminate|discriminate|exact H1|exact H2|discriminate|].
  exact H.
Defined.

(** X16.  Two projects whose unscoped temporary names are plain segments
    and differ have different staging manifests and different install
    folders (lines 57-68): each project is read from its own file. *)
Theorem staging_manifests_differ cfg project1 project2 :
  plain_segment (unscopedTempProjectName project1) = true ->
  plain_segment (unscopedTempProjectName project2) = true ->
  unscopedTempProjectName project1 <> unscopedTempProjectName project2 ->
  packageJsonFilename cfg project1 <> packageJsonFilename cfg project2
  /\ installFolderName cfg project1 <> installFolderName cfg project2.
Proof.
  intros H1 H2 Hne. destruct (join_plain_tail (commonTempFolder cfg)) as [pre Hpre].
  assert (forall project,
            plain_segment (unscopedTempProjectName project) = true ->
            packageJsonFilename cfg project
            = pre +:+ "projects/" +:+ unscopedTempProjectName project +:+ "/package.json"
            /\ installFolderName cfg project
               = pre +:+ "node_modules/@rush-temp/" +:+ unscopedTempProjectName project)
    as Hshape.
  { intros project Hn. split.
    - unfold packageJsonFilename. cbv zeta.
      rewrite join_flatten
        by (exists "projects"; split; [right; now left|discriminate]).
      cbn [app]. unfold RushConstants.rushTempProjectsFolderName.
      rewrite (Hpre ["projects"; unscopedTempProjectName project; "package.json"]);
        [|discriminate|].
      + cbn [Path.join_with]. repeat (rewrite append_String || rewrite append_nil_l).
        reflexivity.
      + constructor; [reflexivity|]. constructor; [exact Hn|].
        constructor; [reflexivity|constructor].
    - unfold installFolderName, RushConstants.nodeModulesFolderName,
        RushConstants.rushTempNpmScope.
      rewrite (Hpre ["node_modules"; "@rush-temp"; unscopedTempProjectName project]);
        [|discriminate|].
      + cbn [Path.join_with]. repeat (rewrite append_String || rewrite append_nil_l).
        reflexivity.
      + constructor; [reflexivity|]. constructor; [reflexivity|].
        constructor; [exact Hn|constructor]. }
  destruct (Hshape _ H1) as [Ha1 Hb1]. destruct (Hshape _ H2) as [Ha2 Hb2].
  rewrite Ha1, Ha2, Hb1, Hb2. split; intros H; apply Hne.
  - apply append_inv_head, append_inv_head in H. now apply append_inv_tail in H.
  - now apply append_inv_head, append_inv_head in H.
Qed.

Lemma staging_manifests_differ_witness :
  plain_segment (unscopedTempProjectName Scenario.projectA) = true
  /\ plain_segment (unscopedTempProjectName Scenario.projectB) = true
  /\ packageJsonFilename Scenario.cfg Scenario.projectA
     <> packageJsonFilename Scenario.cfg Scenario.projectB.
Proof.
  assert (plain_segment (unscopedTempProjectName Scenario.projectA) = true) as H1
      by reflexivity.
  assert (plain_segment (unscopedTempProjectName Scenario.projectB) = true) as H2
      by reflexivity.
  split; [exact H1|]. split; [exact H2|].
  destruct (staging_manifests_differ Scenario.cfg _ _ H1 H2) as [H _]; [discriminate|].
  exact H.
Defined.

(** X17.  The loop over the projects only appends to the link manifest
    (lines 91-96): whatever an entry holds when the loop starts on a list of
    projects is the beginning of what it holds when the loop is through; no
    entry is removed, emptied or reordered. *)
Theorem link_manifest_only_grows cfg l rushLinkJson w rushLinkJson' w' n l0 :
  linkAll cfg l rushLinkJson w = (inr rushLinkJson', w') ->
  localLinks rushLinkJson !! n = Some l0 ->
  exists more, localLinks rushLinkJson' !! n = Some (l0 ++ more).
Proof.
  revert rushLinkJson w l0. induction l as [|P l IH]; intros rlj w l0.
  - intros [= <- _] H. exists []. now rewrite app_nil_r.
  - rewrite linkAll_cons. intros H Hn. apply bind_inr_inv in H as (rlj1 & w1 & H1 & H).
    apply linkOne_inr in H1 as (pj & T & _ & Hp).
    apply planProject_inr in Hp as (_ & _ & -> & _).
    destruct (record_links_grows (localName P) (rushDependencyNames pj) rlj n l0 Hn)
      as [more1 H1].
    destruct (IH _ _ _ H H1) as [more2 H2].
    exists (more1 ++ more2). now rewrite app_assoc.
Qed.

Lemma link_manifest_only_grows_witness :
  fst (linkAll Scenario.cfg [Scenario.projectA]
               (mkRushLinkJson (<["a" := ["x"]]> ∅)) Scenario.world)
  = inr (record_links "a" ["b"] (mkRushLinkJson (<["a" := ["x"]]> ∅)))
  /\ exists more,
       localLinks (record_links "a" ["b"] (mkRushLinkJson (<["a" := ["x"]]> ∅))) !! "a"
       = Some (["x"] ++ more).
Proof.
  assert (linkAll Scenario.cfg [Scenario.projectA]
                  (mkRushLinkJson (<["a" := ["x"]]> ∅)) Scenario.world
          = (inr (record_links "a" ["b"] (mkRushLinkJson (<["a" := ["x"]]> ∅))),
             snd (linkAll Scenario.cfg [Scenario.projectA]
                          (mkRushLinkJson (<["a" := ["x"]]> ∅)) Scenario.world))) as H
      by fst_by_evaluation.
  split; [now rewrite H|].
  apply (link_manifest_only_grows _ _ _ _ _ _ "a" ["x"] H). apply lookup_insert_eq.
Defined.

(** X18.  When the turn of a project comes, its staging manifest declares
    an internal dependency name that matches no local project, and line 96
    does not throw first (should the first name of the loop be a project,
    the link manifest has an entry for the project that is linked, or the
    name of that project is none that objects inherit), linking the project
    throws the
    configuration error that names the project and the first such
    dependency, in the order of [Object.keys]: the turn of that name in the
    loop throws it, whatever the state.  The error ends the run at once:
    the promise is rejected with it, nothing is tried again (the log ends
    with the one attempt), the disk is as the earlier projects left it and
    no link manifest is saved. *)
Theorem unknown_internal_dependency_is_fatal
        cfg w pre project post rushLinkJsonP wP pj d :
  projects cfg = pre ++ project :: post ->
  linkAll cfg pre (mkRushLinkJson ∅) w = (inr rushLinkJsonP, wP) ->
  stagingManifest cfg project (fs wP) = Some pj ->
  (forall d1 rest,
      rushDependencyNames pj = d1 :: rest ->
      is_Some (getProjectByName cfg d1) ->
      is_Some (localLinks rushLinkJsonP !! localName project)
      \/ localName project ∉ Object_prototype_names) ->
  d ∈ rushDependencyNames pj ->
  getProjectByName cfg d = None ->
  exists d0 before after,
    rushDependencyNames pj = before ++ d0 :: after
    /\ Forall (fun d' => is_Some (getProjectByName cfg d')) before
    /\ getProjectByName cfg d0 = None
    /\ d ∈ d0 :: after
    /\ (forall st w1,
           linkRushDependency cfg project d0 st w1
           = (inl (ConfigurationError d0 (packageName project)), w1))
    /\ _linkProjects cfg w
       = (Rejected (ConfigurationError d0 (packageName project)),
          mkWorld (fs wP) (log wP ++ [linking_message project;
                                      EvReadJson (packageJsonFilename cfg project)]))
    /\ saves (log wP ++ [linking_message project;
                         EvReadJson (packageJsonFilename cfg project)]) = saves (log w).
Proof.
  intros Hsplit Hpre Hs Hpush Hin Hd. apply (push_guarded cfg) in Hpush.
  destruct (find_unknown_exists _ _ _ Hin Hd) as [d0 Hf].
  destruct (find_unknown_Some _ _ _ Hf) as (before & after & Hkeys & Hbefore & Hd0).
  exists d0, before, after. repeat split; try assumption.
  - eapply Forall_impl; [exact Hbefore|]. intros d'. apply known_true.
  - rewrite Hkeys in Hin. apply elem_of_app in Hin as [Hin|Hin]; [|exact Hin].
    rewrite Forall_forall in Hbefore. apply Hbefore, known_true in Hin as [q Hq].
    congruence.
  - intros st w1. now apply linkRushDependency_unknown.
  - rewrite linkProjects_spec, Hsplit.
    erewrite linkAll_reaches; [|exact Hpre|eapply linkOne_unknown; eassumption].
    unfold logged. cbn [fs log]. now rewrite <- app_assoc.
  - pose proof (linkAll_saves cfg pre (mkRushLinkJson ∅) w) as Hsv.
    rewrite Hpre in Hsv. cbn [snd] in Hsv. now rewrite saves_app, Hsv, app_nil_r.
Qed.

Lemma unknown_internal_dependency_is_fatal_witness :
  projects Scenario.staleCfg = [] ++ Scenario.projectA :: []
  /\ linkAll Scenario.staleCfg [] (mkRushLinkJson ∅) Scenario.world
     = (inr (mkRushLinkJson ∅), Scenario.world)
  /\ stagingManifest Scenario.staleCfg Scenario.projectA (fs Scenario.world)
     = Some Scenario.stagingA
  /\ (localName Scenario.projectA ∉ Object_prototype_names)
  /\ "b" ∈ rushDependencyNames Scenario.stagingA
  /\ getProjectByName Scenario.staleCfg "b" = None
  /\ fst (_linkProjects Scenario.staleCfg Scenario.world)
     = Rejected (ConfigurationError "b" "a")
  /\ fs (snd (_linkProjects Scenario.staleCfg Scenario.world)) = Scenario.disk.
Proof.
  assert (stagingManifest Scenario.staleCfg Scenario.projectA (fs Scenario.world)
          = Some Scenario.stagingA) as H3 by by_evaluation.
  assert (rushDependencyNames Scenario.stagingA = ["b"]) as Hb by by_evaluation.
  assert (localName Scenario.projectA ∉ Object_prototype_names) as Hp
      by (apply (bool_decide_eq_false_1 _); by_evaluation).
  assert ("b" ∈ rushDependencyNames Scenario.stagingA) as H4
      by (rewrite Hb; now left).
  assert (getProjectByName Scenario.staleCfg "b" = None) as H5 by reflexivity.
  split; [reflexivity|]. split; [reflexivity|].
  split; [exact H3|]. split; [exact Hp|]. split; [exact H4|]. split; [exact H5|].
  destruct (unknown_internal_dependency_is_fatal
              Scenario.staleCfg Scenario.world [] Scenario.projectA []
              (mkRushLinkJson ∅) Scenario.world Scenario.stagingA "b"
              eq_refl eq_refl H3 (fun _ _ _ _ => or_intror Hp) H4 H5)
    as (d0 & before & after & Hkeys & _ & _ & _ & _ & Hrun & _).
  rewrite Hb in Hkeys.
  destruct before as [|k before]; [|destruct before; discriminate Hkeys].
  inversion Hkeys; subst d0 after. rewrite Hrun. split; reflexivity.
Defined.
Example path_join_example :
  Path.join ["/repo/common/temp"; "node_modules"; "@rush-temp"; "project1"]
  = "/repo/common/temp/node_modules/@rush-temp/project1".
Proof. reflexivity. Qed.

Example path_join_dotdot : Path.join ["/a/b"; "../c/"; "./d"] = "/a/c/d".
Proof. reflexivity. Qed.

Example uriEncode_example :
  UriEncode.uriEncode "/wbt/common/temp/projects/api-documenter.tgz"
  = "%2Fwbt%2Fcommon%2Ftemp%2Fprojects%2Fapi-documenter.tgz".
Proof. reflexivity. Qed.
